(** * The request layer of the uploader: [services/api.service.js]

    A shallow embedding of the URL builder, the transport wrapper [send]
    and the request functions ([uploadFiles], [getListFiles],
    [searchFiles], [getTokenSettings], ...), with the JavaScript values
    they handle, followed by the properties the specification states
    about them. *)

From Stdlib Require Import ZArith Lia DecimalString.
From stdpp Require Import base option list strings gmap.

Local Open Scope Z_scope.
Set Warnings "-register-all".

(** ** JavaScript data *)

(** The values that flow through the request layer are data: what
    [JSON.parse] produces, plus [undefined] and [Error] objects. [Num z]
    is an integer-valued number, in the range where JavaScript prints it
    as plain decimal digits. [Obj ps] lists the own enumerable properties
    in the order [Object.keys] reports them, each key once. Functions are
    not data: the two callbacks of the upload call are modelled apart. *)
Inductive value : Type :=
| Undefined
| Null
| Bool (b : bool)
| Num (z : Z)
| Str (s : string)
| Arr (items : list value)
| Obj (props : list (string * value))
| Err (name message : string).

(** A completed evaluation: a result, or a thrown value. *)
Inductive result (A : Type) : Type :=
| Ok (a : A)
| Throw (e : value).
Arguments Ok {A} a.
Arguments Throw {A} e.

Global Instance result_ret : MRet result := @Ok.
Global Instance result_bind : MBind result := λ A B f m,
  match m with
  | Ok a => f a
  | Throw e => Throw e
  end.

(** [new Error(m)] and the [TypeError] the engine raises; the text of
    its message is the engine's own, and V8's wording is used. *)
Definition new_Error (m : string) : value := Err "Error" m.
Definition type_error (m : string) : value := Err "TypeError" m.

(** ToBoolean. *)
Definition truthy (v : value) : bool :=
  match v with
  | Undefined | Null => false
  | Bool b => b
  | Num z => negb (z =? 0)
  | Str s => negb (String.eqb s "")
  | Arr _ | Obj _ | Err _ _ => true
  end.

(** [a || b] and [a && b] on already evaluated operands. *)
Definition js_or (a b : value) : value := if truthy a then a else b.
Definition js_and (a b : value) : value := if truthy a then b else a.

(** [a === b] where [b] is a literal or a module constant: primitives are
    compared by value, and an object of a response or of a configuration
    is never the same object as a constant. *)
Definition strict_eq (a b : value) : bool :=
  match a, b with
  | Undefined, Undefined => true
  | Null, Null => true
  | Bool x, Bool y => Bool.eqb x y
  | Num x, Num y => x =? y
  | Str x, Str y => String.eqb x y
  | _, _ => false
  end.

Definition string_of_Z (z : Z) : string := NilZero.string_of_int (Z.to_int z).
Definition string_of_nat (n : nat) : string := string_of_Z (Z.of_nat n).

(** [xs.join(sep)] on strings. *)
Fixpoint join (sep : string) (xs : list string) : string :=
  match xs with
  | [] => ""
  | [x] => x
  | x :: rest => x +:+ sep +:+ join sep rest
  end.

(** ToString, as template literals and [+] with a string apply it. An
    array prints its elements joined by commas, with [null] and
    [undefined] elements printed as nothing. The function is total and
    prints digits: it agrees with JavaScript on the values that
    [printable] accepts, which leaves out the numbers beyond the safe
    integers, printed with rounded digits or an exponent, and the
    objects with a [toString] property of their own, on which ToString
    throws. *)
Fixpoint to_string (v : value) : string :=
  match v with
  | Undefined => "undefined"
  | Null => "null"
  | Bool true => "true"
  | Bool false => "false"
  | Num z => string_of_Z z
  | Str s => s
  | Arr items =>
      join "," (map (λ x, match x with
                          | Undefined | Null => ""
                          | _ => to_string x
                          end) items)
  | Obj _ => "[object Object]"
  | Err name message =>
      if String.eqb name "" then message
      else if String.eqb message "" then name
      else name +:+ ": " +:+ message
  end.

(** [Array.prototype.join] with a separator. *)
Definition array_join (sep : string) (items : list value) : string :=
  join sep (map (λ x, match x with
                      | Undefined | Null => ""
                      | _ => to_string x
                      end) items).

(** ** Objects *)

(** Own property lookup; a missing property reads as [undefined]. *)
Fixpoint lookup_prop {A} (k : string) (ps : list (string * A)) : option A :=
  match ps with
  | [] => None
  | (k', v) :: rest => if String.eqb k k' then Some v else lookup_prop k rest
  end.

Definition prop (k : string) (ps : list (string * value)) : value :=
  default Undefined (lookup_prop k ps).

(** [o[k] = v]: an existing key keeps its place, a new one goes last. *)
Fixpoint set_prop {A} (ps : list (string * A)) (k : string) (v : A)
  : list (string * A) :=
  match ps with
  | [] => [(k, v)]
  | (k', v') :: rest =>
      if String.eqb k k' then (k', v) :: rest else (k', v') :: set_prop rest k v
  end.

(** Copying properties one after the other into [target], as an object
    spread and [Object.assign] do. *)
Definition assign {A} (target src : list (string * A)) : list (string * A) :=
  fold_left (λ acc kv, set_prop acc kv.1 kv.2) src target.

Fixpoint indexed {A} (i : nat) (items : list A) : list (string * A) :=
  match items with
  | [] => []
  | x :: rest => (string_of_nat i, x) :: indexed (S i) rest
  end.

Fixpoint chars (s : string) : list value :=
  match s with
  | EmptyString => []
  | String c rest => Str (String c EmptyString) :: chars rest
  end.

(** The own enumerable properties an object spread [{...v}] copies. *)
Definition own_entries (v : value) : list (string * value) :=
  match v with
  | Obj ps => ps
  | Arr items => indexed 0 items
  | Str s => indexed 0 (chars s)
  | _ => []
  end.

(** [v.k] for the property names this file reads, all of them plain
    identifiers: reading off [null] or [undefined] throws, an object
    yields its own property, an [Error] its [name] and [message]; none of
    the names is an index, [length], or inherited data. *)
Definition get_prop (v : value) (k : string) : result value :=
  match v with
  | Undefined => Throw (type_error ("Cannot read properties of undefined (reading '" +:+ k +:+ "')"))
  | Null => Throw (type_error ("Cannot read properties of null (reading '" +:+ k +:+ "')"))
  | Obj ps => Ok (prop k ps)
  | Err name message =>
      Ok (if String.eqb k "message" then Str message
          else if String.eqb k "name" then Str name
          else Undefined)
  | _ => Ok Undefined
  end.

(** A destructuring default: [= d] replaces [undefined] only. *)
Definition or_default (v d : value) : value :=
  match v with
  | Undefined => d
  | _ => v
  end.

(** ** The URL builder *)

(** [platform === 'filerobot'], after the default [platform = 'filerobot']. *)
Definition is_filerobot (platform : value) : bool :=
  strict_eq (or_default platform (Str "filerobot")) (Str "filerobot").

Definition getBaseUrl (container platform : value) : string :=
  if is_filerobot platform
  then "https://api.filerobot.com/" +:+ to_string container +:+ "/v3/"
  else "https://" +:+ to_string container +:+ ".api.airstore.io/v1/".

Definition getSecretHeaderName (platform : value) : string :=
  if is_filerobot platform then "X-Filerobot-Key" else "X-Airstore-Secret-Key".

(** ** The transport *)

(** How a promise settles. *)
Inductive settlement : Type :=
| Fulfilled (v : value)
| Rejected (e : value).

(** The payload of a request: plain data, or a [FormData] with the
    (name, value, filename) triples appended to it. *)
Inductive body : Type :=
| Data (v : value)
| FormData (entries : list (string * value * value)).

Record request : Type := {
  url : value;
  method : string;
  data : body;
  headers : list (string * value);
  responseType : string
}.

(** [send] hands the request to axios and keeps the [data] of the
    response, [{}] when there is none; [reply] is how axios settles. *)
Definition send (reply : settlement) : settlement :=
  match reply with
  | Fulfilled response =>
      match get_prop response "data" with
      | Ok d => Fulfilled (or_default d (Obj []))
      | Throw e => Rejected e
      end
  | Rejected e => Rejected e
  end.

(** ** Promise handlers *)

(** The promise [uploadFiles] returns is settled by the first call of
    [resolve] or [reject]; [alerts] records the calls of [showAlert],
    each with its arguments. *)
Record promise : Type := {
  settled : option settlement;
  alerts : list (list value)
}.

Definition pending : promise := {| settled := None; alerts := [] |}.

(** A handler body runs on the promise state and returns or throws. *)
Definition handler (A : Type) : Type := promise → result A * promise.

Global Instance handler_ret : MRet handler := λ A a st, (Ok a, st).
Global Instance handler_bind : MBind handler := λ A B f m st,
  match m st with
  | (Ok a, st') => f a st'
  | (Throw e, st') => (Throw e, st')
  end.

Definition lift {A} (r : result A) : handler A := λ st, (r, st).
Definition throw {A} (e : value) : handler A := λ st, (Throw e, st).

Definition settle (s : settlement) : handler () := λ st,
  (Ok (), match settled st with
          | None => {| settled := Some s; alerts := alerts st |}
          | Some _ => st
          end).
Definition resolve (v : value) : handler () := settle (Fulfilled v).
Definition reject (e : value) : handler () := settle (Rejected e).

(** The [showAlert] property of the upload call: a function of the
    caller, which is taken to return, or anything else. *)
Inductive callback : Type :=
| Callable
| NotCallable.

Definition call (f : callback) (args : list value) : handler () := λ st,
  match f with
  | Callable => (Ok (), {| settled := settled st; alerts := alerts st ++ [args] |})
  | NotCallable => (Throw (type_error "showAlert is not a function"), st)
  end.

(** ** The request functions *)

Section RequestFunctions.

(** The two sentinel codes of [upload.state] and the page size of the
    gallery are imported from [../config]; the request layer only
    compares with them and prints them, so they stay parameters. *)
Variables DUPLICATE_CODE REPLACING_DATA_CODE GALLERY_IMAGES_LIMIT : value.

(** *** uploadFiles *)

(** The argument of [uploadFiles], with [undefined] for a property the
    caller left out. The [onUploadProgress] function of the
    configuration is handed to axios untouched. *)
Record upload_props : Type := {
  props_files : value;
  props_config : value;
  props_data_type : value;
  props_dir : value;
  props_showAlert : callback
}.

(** [{ ...uploadParams, ...{ dir: dir || uploadParams.dir } }]: a fresh
    object with the properties of [uploadParams], then [dir]. *)
Definition merge_dir (uploadParams dir : value) : result (list (string * value)) :=
  d ← (if truthy dir then Ok dir else get_prop uploadParams "dir");
  mret (assign (assign [] (own_entries uploadParams)) [("dir", d)]).

(** [Object.keys(uploadParams).filter(...).map(...).join('&')]. *)
Definition params_string (uploadParams : list (string * value)) : string :=
  join "&"
    (map (λ paramName, paramName +:+ "=" +:+ to_string (prop paramName uploadParams))
       (List.filter (λ paramName, negb (strict_eq (prop paramName uploadParams) Null))
          (map fst uploadParams))).

(** [let url = (uploadPath || ''); if (paramsStr) url += `?${paramsStr}`]. *)
Definition upload_url (uploadPath : value) (paramsStr : string) : value :=
  let url := js_or uploadPath (Str "") in
  if truthy (Str paramsStr) then Str (to_string url +:+ "?" +:+ paramsStr) else url.

(** [[...files]]: arrays and strings are iterable, other data is not. *)
Definition spread_iterable (v : value) : result (list value) :=
  match v with
  | Arr items => Ok items
  | Str s => Ok (chars s)
  | _ => Throw (type_error "files is not iterable")
  end.

(** The payload: the urls collected in [jsonData], or the files
    appended to [ajaxData] under the name [data_type]. *)
Definition upload_body (files data_type : value) : result body :=
  let isJson := strict_eq data_type (Str "application/json") in
  if truthy files && isJson then
    items ← spread_iterable files;
    mret (Data (Obj [("files_urls", Arr items)]))
  else if truthy files then
    items ← spread_iterable files;
    entries ← mapM (λ file,
                 name ← get_prop file "name";
                 mret (to_string data_type, file, js_or name Null)) items;
    mret (FormData entries)
  else
    mret (if isJson then Data (Obj [("files_urls", Arr [])]) else FormData []).

(** The fulfilment handler of the request (lines 85-100). *)
Definition on_response (response : value) : handler () :=
  status ← lift (get_prop response "status");
  files ← lift (get_prop response "files");
  file ← lift (get_prop response "file");
  upload ← lift (get_prop response "upload");
  let status := or_default status (Str "success") in
  let files := or_default files (Arr []) in
  let upload := or_default upload (Obj []) in
  state ← lift (get_prop upload "state");
  let isDuplicate := strict_eq state DUPLICATE_CODE in
  state ← lift (get_prop upload "state");
  let isReplacingData := strict_eq state REPLACING_DATA_CODE in
  if strict_eq status (Str "success") && truthy file then
    resolve (Arr [Arr [file]; Bool isDuplicate; Bool isReplacingData])
  else if strict_eq status (Str "success") && truthy files then
    resolve (Arr [files; Bool isDuplicate; Bool isReplacingData])
  else if strict_eq status (Str "error") then
    msg ← lift (get_prop response "msg");
    hint ← lift (get_prop response "hint");
    throw (new_Error (to_string msg +:+ " " +:+ to_string hint))
  else
    reject response.

(** [data.msg.join ? data.msg.join(', ') : data.msg], for a truthy
    [data.msg]: an array inherits [join]; an object has it only as an
    own property, which is data and cannot be called. *)
Definition join_or_self (msg : value) : result value :=
  match msg with
  | Arr items => Ok (Str (array_join ", " items))
  | Obj ps =>
      if truthy (prop "join" ps)
      then Throw (type_error "data.msg.join is not a function")
      else Ok msg
  | _ => Ok msg
  end.

(** [const data = (error.response && error.response.data) || {}]. *)
Definition error_data (error : value) : result value :=
  response ← get_prop error "response";
  if truthy response
  then d ← get_prop response "data"; mret (js_or d (Obj []))
  else mret (Obj []).

(** [const code = data.code || '']. *)
Definition error_code (data : value) : result value :=
  code ← get_prop data "code";
  mret (js_or code (Str "")).

(** [const msg = data.msg && (data.msg.join ? data.msg.join(', ') : data.msg)]. *)
Definition error_msg (data : value) : result value :=
  msg ← get_prop data "msg";
  if truthy msg then join_or_self msg else mret msg.

(** The second argument of [showAlert]:
    [((code || msg) ? `${code}: ${msg}` : '') || error.msg || error.message]. *)
Definition alert_message (error code msg : value) : result value :=
  if truthy (js_or code msg)
  then mret (Str (to_string code +:+ ": " +:+ to_string msg))
  else
    own ← get_prop error "msg";
    if truthy own then mret own else get_prop error "message".

(** The rejection handler (lines 102-109). *)
Definition on_error (showAlert : callback) (error : value) : handler () :=
  let error := or_default error (Obj []) in
  data ← lift (error_data error);
  code ← lift (error_code data);
  msg ← lift (error_msg data);
  text ← lift (alert_message error code msg);
  call showAlert [Str ""; text; Str "error"];;
  reject error.

(** [send(...).then(on_response).catch(on_error)]: a value thrown by
    the first handler reaches the second; a value thrown by the second
    is dropped, and the promise stays as it was. *)
Definition run_chain (showAlert : callback) (sent : settlement) : promise :=
  match sent with
  | Fulfilled response =>
      match on_response response pending with
      | (Ok _, st) => st
      | (Throw e, st) => (on_error showAlert e st).2
      end
  | Rejected e => (on_error showAlert e pending).2
  end.

(** The call returns the promise once the request is issued: the
    request, and how the promise ends for each way axios can settle. *)
Definition uploadFiles (props : upload_props)
  : result (request * (settlement → promise)) :=
  let files := or_default (props_files props) (Arr []) in
  let config := or_default (props_config props) (Obj []) in
  platform ← get_prop config "platform";
  uploadPath ← get_prop config "uploadPath";
  uploadParams ← get_prop config "uploadParams";
  uploadKey ← get_prop config "uploadKey";
  let uploadPath := or_default uploadPath (Str "") in
  let uploadParams := or_default uploadParams (Obj []) in
  let uploadKey := or_default uploadKey (Str "") in
  let data_type := or_default (props_data_type props) (Str "files[]") in
  let dir := props_dir props in
  let showAlert := props_showAlert props in
  let isJson := strict_eq data_type (Str "application/json") in
  uploadParams ← merge_dir uploadParams dir;
  let paramsStr := params_string uploadParams in
  let url := upload_url uploadPath paramsStr in
  payload ← upload_body files data_type;
  mret ({| url := url;
           method := "POST";
           data := payload;
           headers := [(getSecretHeaderName platform, uploadKey);
                       ("Content-Type",
                        Str (if isJson then "application/json" else "multipart/form-data"))];
           responseType := "json" |},
        λ reply, run_chain showAlert (send reply)).

(** *** The other request functions *)

(** [p.then(f)]: [f] runs on a fulfilled [p], and what it throws
    rejects the result; a rejected [p] passes through. *)
Definition and_then (p : settlement) (f : value → result value) : settlement :=
  match p with
  | Fulfilled v =>
      match f v with
      | Ok r => Fulfilled r
      | Throw e => Rejected e
      end
  | Rejected e => Rejected e
  end.

Definition get_request (url : string) (secret : string) (uploadKey : value) : request :=
  {| url := Str url; method := "GET"; data := Data Null;
     headers := [(secret, uploadKey)]; responseType := "json" |}.

Definition put_request (url : string) (payload : value) (secret : string)
  (uploadKey : value) : request :=
  {| url := Str url; method := "PUT"; data := Data payload;
     headers := [(secret, uploadKey)]; responseType := "json" |}.

Definition getListFiles (arg : value) : result (request * (settlement → settlement)) :=
  dir ← get_prop arg "dir";
  container ← get_prop arg "container";
  platform ← get_prop arg "platform";
  offset ← get_prop arg "offset";
  uploadKey ← get_prop arg "uploadKey";
  let dir := or_default dir (Str "") in
  let container := or_default container (Str "") in
  let baseUrl := getBaseUrl container platform in
  let apiPath := "list?" in
  let directoryPath := if truthy dir then "dir=" +:+ to_string dir else "" in
  let offsetQuery := "&offset=" +:+ to_string offset in
  let limit := "&limit=" +:+ to_string GALLERY_IMAGES_LIMIT in
  let url := join "" [baseUrl; apiPath; directoryPath; offsetQuery; limit] in
  mret (get_request url (getSecretHeaderName platform) uploadKey,
        λ reply, and_then (send reply) (λ response,
          let response := or_default response (Obj []) in
          files ← get_prop response "files";
          directories ← get_prop response "directories";
          current_directory ← get_prop response "current_directory";
          count ← (if truthy current_directory
                   then get_prop current_directory "files_count"
                   else mret current_directory);
          mret (Arr [files; directories; count]))).

Definition searchFiles (arg : value) : result (request * (settlement → settlement)) :=
  query ← get_prop arg "query";
  container ← get_prop arg "container";
  platform ← get_prop arg "platform";
  language ← get_prop arg "language";
  offset ← get_prop arg "offset";
  uploadKey ← get_prop arg "uploadKey";
  let query := or_default query (Str "") in
  let container := or_default container (Str "") in
  let language := or_default language (Str "en") in
  let offset := or_default offset (Num 0) in
  let baseUrl := getBaseUrl container platform in
  let apiPath := "search?" in
  let searchQuery := "q=" +:+ to_string query in
  let offsetQuery := "&offset=" +:+ to_string offset in
  let url := join "" [baseUrl; apiPath; searchQuery; offsetQuery] in
  mret (get_request url (getSecretHeaderName platform) uploadKey,
        λ reply, and_then (send reply) (λ response,
          let response := or_default response (Obj []) in
          files ← get_prop response "files";
          info ← get_prop response "info";
          total ← (if truthy info then get_prop info "total_files_count" else mret info);
          mret (Arr [files; total]))).

Definition generateTags (url autoTaggingProps language container platform
    filerobotUploadKey cloudimageToken : value)
  : result (request * (settlement → settlement)) :=
  let url := or_default url (Str "") in
  let autoTaggingProps := or_default autoTaggingProps (Obj []) in
  let language := or_default language (Str "en") in
  let container := or_default container (Str "") in
  let filerobotUploadKey := or_default filerobotUploadKey (Str "") in
  let cloudimageToken := or_default cloudimageToken (Str "demo") in
  key ← get_prop autoTaggingProps "key";
  provider ← get_prop autoTaggingProps "provider";
  confidence ← get_prop autoTaggingProps "confidence";
  limit ← get_prop autoTaggingProps "limit";
  let key := or_default key (Str "") in
  let provider := or_default provider (Str "google") in
  let confidence := or_default confidence (Num 60) in
  let limit := or_default limit (Num 10) in
  let base := getBaseUrl container platform +:+ "post-process/autotagging" in
  mret (get_request
          (base +:+ "?" +:+ join "&"
             ["key=" +:+ to_string key;
              "image_url=" +:+ to_string url;
              "provider=" +:+ to_string provider;
              "language=" +:+ to_string language;
              "confidence=" +:+ to_string confidence;
              "limit=" +:+ to_string limit;
              "ci=" +:+ to_string cloudimageToken])
          (getSecretHeaderName platform) filerobotUploadKey,
        λ reply, and_then (send reply) (λ response, mret (or_default response (Obj [])))).

Definition saveMetaData (id properties arg : value)
  : result (request * (settlement → settlement)) :=
  container ← get_prop arg "container";
  platform ← get_prop arg "platform";
  uploadKey ← get_prop arg "uploadKey";
  let base := getBaseUrl container platform +:+ "file/" in
  let data := Obj [("properties", properties)] in
  mret (put_request (base +:+ to_string id +:+ "/properties") data
          (getSecretHeaderName platform) uploadKey,
        λ reply, and_then (send reply) (λ response, mret (or_default response (Obj [])))).

Definition updateProduct (id product arg : value)
  : result (request * (settlement → settlement)) :=
  container ← get_prop arg "container";
  platform ← get_prop arg "platform";
  uploadKey ← get_prop arg "uploadKey";
  let base := getBaseUrl container platform in
  let data := Obj [("product", product)] in
  mret (put_request (base +:+ "file/" +:+ to_string id +:+ "/product") data
          (getSecretHeaderName platform) uploadKey,
        λ reply, and_then (send reply) (λ response, mret (or_default response (Obj [])))).

Definition getTokenSettings (arg : value) : result (request * (settlement → settlement)) :=
  container ← get_prop arg "container";
  platform ← get_prop arg "platform";
  uploadKey ← get_prop arg "uploadKey";
  let container := or_default container (Str "") in
  let baseUrl := getBaseUrl container platform in
  mret (get_request (join "" [baseUrl; "settings"]) (getSecretHeaderName platform) uploadKey,
        λ reply, and_then (send reply) (λ response,
          let response := or_default response (Obj []) in
          settings ← get_prop response "settings";
          let settings := or_default settings (Obj []) in
          enabled ← get_prop settings "_products_enabled";
          mret (Obj [("productsEnabled", Bool (strict_eq enabled (Num 1)))]))).

End RequestFunctions.

(** ** Vocabulary of the specification *)

(** A query pair [key=value], printed without any encoding. *)
Definition pair_string (kv : string * value) : string :=
  kv.1 +:+ "=" +:+ to_string kv.2.

Definition not_null (kv : string * value) : bool := negb (strict_eq kv.2 Null).

(** The entries whose value is not [null], as pairs joined with [&]. *)
Definition query_string (entries : list (string * value)) : string :=
  join "&" (map pair_string (List.filter not_null entries)).

(** The parameter mapping with the directory override merged in. *)
Definition with_dir (uploadParams : list (string * value)) (dir : value)
  : list (string * value) :=
  set_prop uploadParams "dir" (js_or dir (prop "dir" uploadParams)).

(** [uploadPath] followed by [?] and the query, when there is a query. *)
Definition with_query (uploadPath query : string) : string :=
  if String.eqb query "" then uploadPath else uploadPath +:+ "?" +:+ query.

(** [s] has [needle] as a substring. *)
Definition contains (needle s : string) : Prop :=
  ∃ before after, s = before +:+ needle +:+ after.

(** An upload call with [File] objects, a configuration object and a
    [showAlert] function. *)
Definition upload_call (files : list (list (string * value)))
    (config : list (string * value)) (data_type dir : value) : upload_props :=
  {| props_files := Arr (map Obj files);
     props_config := Obj config;
     props_data_type := data_type;
     props_dir := dir;
     props_showAlert := Callable |}.

(** [upload.state] of a response object, with the default [upload = {}]. *)
Definition upload_state (response : list (string * value)) : result value :=
  get_prop (or_default (prop "upload" response) (Obj [])) "state".

(** The two flags a resolved upload carries. *)
Definition upload_flags (DUPLICATE_CODE REPLACING_DATA_CODE state : value) : list value :=
  [Bool (strict_eq state DUPLICATE_CODE); Bool (strict_eq state REPLACING_DATA_CODE)].

(** A promise settled with [s] after the given calls of [showAlert]. *)
Definition ended (s : settlement) (calls : list (list value)) : promise :=
  {| settled := Some s; alerts := calls |}.

(** A property read that yields [undefined] when there is nothing to
    read it from. *)
Definition field (v : value) (k : string) : value :=
  match get_prop v k with
  | Ok x => x
  | Throw _ => Undefined
  end.

(** The state the flags are computed from: [upload.state], [undefined]
    when there is no [upload]. *)
Definition state_of (response : list (string * value)) : value :=
  field (or_default (prop "upload" response) (Obj [])) "state".

(** The payload of an error: [error.response.data], or [{}]. *)
Definition error_payload (error : value) : value :=
  js_or (js_and (field error "response") (field (field error "response") "data")) (Obj []).

(** [msg] joined with [', '] when it is a list. *)
Definition joined (msg : value) : value :=
  match msg with
  | Arr items => Str (array_join ", " items)
  | _ => msg
  end.

Definition payload_code (error : value) : value :=
  js_or (field (error_payload error) "code") (Str "").

Definition payload_msg (error : value) : value :=
  js_and (field (error_payload error) "msg") (joined (field (error_payload error) "msg")).

(** The message of the raw error itself. *)
Definition raw_message (error : value) : value :=
  js_or (field error "msg") (field error "message").

(** The text of the alert: ["{code}: {msg}"] when the payload carries a
    code or a message, the message of the raw error otherwise. *)
Definition alert_text (error : value) : value :=
  if truthy (payload_code error) || truthy (payload_msg error)
  then Str (to_string (payload_code error) +:+ ": " +:+ to_string (payload_msg error))
  else raw_message error.

(** The rejection handler receives [error]: the transport failed with it,
    or the fulfilment handler threw it. *)
Definition handled (DUPLICATE_CODE REPLACING_DATA_CODE : value)
    (reply : settlement) (error : value) : Prop :=
  send reply = Rejected error
  ∨ ∃ response st,
      send reply = Fulfilled response
      ∧ on_response DUPLICATE_CODE REPLACING_DATA_CODE response pending = (Throw error, st).

(** ** Objects in the store *)

(** The request functions receive objects by reference, and what they do
    to them is what the caller sees afterwards. Here every object lives
    in a cell of the store, and a variable or a property holds a [word]:
    data, or a reference to a cell. *)
Inductive word : Type :=
| Prim (v : value)
| Ref (l : nat).

Inductive cell : Type :=
| ObjCell (props : list (string * word))
| ArrCell (items : list word)
| FormCell (entries : list (string * word * word))
| FunCell.

(** A step of a function body: it runs on the store, and returns or
    throws. *)
Definition action (A : Type) : Type := gmap nat cell → result A * gmap nat cell.

Global Instance action_ret : MRet action := λ A a σ, (Ok a, σ).
Global Instance action_bind : MBind action := λ A B f m σ,
  match m σ with
  | (Ok a, σ') => f a σ'
  | (Throw e, σ') => (Throw e, σ')
  end.

(** Creating an object, reading a cell, and writing one. A reference a
    program holds is never dangling; [load] throws there for totality. *)
Definition alloc (c : cell) : action nat := λ σ,
  let l := fresh (dom σ) in (Ok l, <[l:=c]> σ).

Definition load (l : nat) : action cell := λ σ,
  (match σ !! l with
   | Some c => Ok c
   | None => Throw (type_error "dangling reference")
   end, σ).

Definition write (l : nat) (c : cell) : action () := λ σ, (Ok (), <[l:=c]> σ).

Definition eval {A} (r : result A) : action A := λ σ, (r, σ).

(** The data behind a word, read through at most [fuel] references: as
    many as the store has cells reach everything, since the objects of a
    call do not loop back on themselves. *)
Fixpoint reify (fuel : nat) (σ : gmap nat cell) (w : word) : value :=
  match w with
  | Prim v => v
  | Ref l =>
      match fuel with
      | O => Undefined
      | S n =>
          match σ !! l with
          | Some (ObjCell ps) => Obj (map (λ kv, (kv.1, reify n σ kv.2)) ps)
          | Some (ArrCell items) => Arr (map (reify n σ) items)
          | _ => Undefined
          end
      end
  end.

(** ToString of a word: of the data it stands for. *)
Definition text (w : word) : action string := λ σ,
  (Ok (to_string (reify (S (size σ)) σ w)), σ).

Definition word_truthy (w : word) : bool :=
  match w with
  | Prim v => truthy v
  | Ref _ => true
  end.

Definition word_or (a b : word) : word := if word_truthy a then a else b.

(** [w === lit] for a primitive literal or constant. *)
Definition word_is (w : word) (lit : value) : bool :=
  match w with
  | Prim v => strict_eq v lit
  | Ref _ => false
  end.

Definition word_default (w d : word) : word :=
  match w with
  | Prim Undefined => d
  | _ => w
  end.

(** A destructuring default that is an object literal: the object is
    created only when the default applies. *)
Definition or_fresh (w : word) (c : cell) : action word :=
  match w with
  | Prim Undefined => l ← alloc c; mret (Ref l)
  | _ => mret w
  end.

(** [w.k]. *)
Definition read_prop (w : word) (k : string) : action word :=
  match w with
  | Prim v => r ← eval (get_prop v k); mret (Prim r)
  | Ref l =>
      c ← load l;
      mret (match c with
            | ObjCell ps => default (Prim Undefined) (lookup_prop k ps)
            | _ => Prim Undefined
            end)
  end.

(** The own enumerable properties an object spread copies. *)
Definition spread_entries (w : word) : action (list (string * word)) :=
  match w with
  | Prim v => mret (map (λ kv, (kv.1, Prim kv.2)) (own_entries v))
  | Ref l =>
      c ← load l;
      mret (match c with
            | ObjCell ps => ps
            | ArrCell items => indexed 0 items
            | _ => []
            end)
  end.

(** [[...w]]: a new array with the elements of an iterable. *)
Definition spread_array (w : word) : action (list word) :=
  items ← match w with
           | Prim (Str s) => mret (map Prim (chars s))
           | Prim (Arr xs) => mret (map Prim xs)
           | Ref l =>
               c ← load l;
               match c with
               | ArrCell items => mret items
               | _ => eval (Throw (type_error "files is not iterable"))
               end
           | _ => eval (Throw (type_error "files is not iterable"))
           end;
  _ ← alloc (ArrCell items);
  mret items.

(** [arr.push(x)] and [form.append(name, value, filename)], on the array
    and the form a reference points to. *)
Definition push (l : nat) (x : word) : action () :=
  c ← load l;
  match c with
  | ArrCell items => write l (ArrCell (items ++ [x]))
  | _ => eval (Throw (type_error "push is not a function"))
  end.

Definition append (l : nat) (entry : string * word * word) : action () :=
  c ← load l;
  match c with
  | FormCell entries => write l (FormCell (entries ++ [entry]))
  | _ => eval (Throw (type_error "append is not a function"))
  end.

(** [items.forEach(f)], [keys.filter(p)] and [keys.map(f)]; the last two
    build a new array. *)
Fixpoint for_each (f : word → action ()) (items : list word) : action () :=
  match items with
  | [] => mret ()
  | x :: rest => f x;; for_each f rest
  end.

Fixpoint filter_loop (p : string → action bool) (names : list string)
  : action (list string) :=
  match names with
  | [] => mret []
  | x :: rest =>
      p x ≫= λ keep : bool,
      kept ← filter_loop p rest;
      mret (if keep then x :: kept else kept)
  end.

Fixpoint map_loop (f : string → action string) (names : list string)
  : action (list string) :=
  match names with
  | [] => mret []
  | x :: rest =>
      y ← f x;
      ys ← map_loop f rest;
      mret (y :: ys)
  end.

Definition strings_array (xs : list string) : cell := ArrCell (map (λ x, Prim (Str x)) xs).

(** [Object.keys(w)]. *)
Definition object_keys (w : word) : action (list string) :=
  entries ← spread_entries w;
  _ ← alloc (strings_array (map fst entries));
  mret (map fst entries).

Definition filter_keys (p : string → action bool) (names : list string)
  : action (list string) :=
  kept ← filter_loop p names;
  _ ← alloc (strings_array kept);
  mret kept.

Definition map_keys (f : string → action string) (names : list string)
  : action (list string) :=
  ys ← map_loop f names;
  _ ← alloc (strings_array ys);
  mret ys.

(** [[...].join(sep)] on an array literal of strings. *)
Definition join_literal (sep : string) (xs : list string) : action string :=
  _ ← alloc (strings_array xs);
  mret (join sep xs).

Definition word_is_filerobot (platform : word) : bool :=
  word_is (word_default platform (Prim (Str "filerobot"))) (Str "filerobot").

Definition secret_header (platform : word) : string :=
  if word_is_filerobot platform then "X-Filerobot-Key" else "X-Airstore-Secret-Key".

Definition base_url (container platform : word) : action string :=
  c ← text container;
  mret (if word_is_filerobot platform
        then "https://api.filerobot.com/" +:+ c +:+ "/v3/"
        else "https://" +:+ c +:+ ".api.airstore.io/v1/").

(** [send]: the headers object is built by the caller, the configuration
    object of the axios call here. *)
Definition send_request (url : word) (method : string) (payload : word)
    (headers : nat) (onUploadProgress : word) : action nat :=
  alloc (ObjCell [("url", url); ("method", Prim (Str method)); ("data", payload);
                  ("responseType", Prim (Str "json")); ("headers", Ref headers);
                  ("onUploadProgress", onUploadProgress)]).

(** *** The request functions, statement by statement *)

(** What the body of [uploadFiles] has built when it returns: the URL,
    the rebound [uploadParams], the payload and the axios call. *)
Record upload_frame : Type := {
  frame_url : word;
  frame_uploadParams : nat;
  frame_payload : nat;
  frame_request : nat
}.

(** Lines 44-84 of [uploadFiles], up to the call of [send]. [jsonData]
    is local and keeps its [files_urls] array, so the array is pushed to
    directly. *)
Definition uploadFiles_store (props : word) : action upload_frame :=
  files ← read_prop props "files";
  files ← or_fresh files (ArrCell []);
  config ← read_prop props "config";
  config ← or_fresh config (ObjCell []);
  platform ← read_prop config "platform";
  uploadPath ← read_prop config "uploadPath";
  uploadParams ← read_prop config "uploadParams";
  uploadParams ← or_fresh uploadParams (ObjCell []);
  uploadKey ← read_prop config "uploadKey";
  onUploadProgress ← read_prop config "onUploadProgress";
  data_type ← read_prop props "data_type";
  dir ← read_prop props "dir";
  showAlert ← read_prop props "showAlert";
  let uploadPath := word_default uploadPath (Prim (Str "")) in
  let uploadKey := word_default uploadKey (Prim (Str "")) in
  let data_type := word_default data_type (Prim (Str "files[]")) in
  let url := word_or uploadPath (Prim (Str "")) in
  ajaxData ← alloc (FormCell []);
  files_urls ← alloc (ArrCell []);
  jsonData ← alloc (ObjCell [("files_urls", Ref files_urls)]);
  let isJson := word_is data_type (Str "application/json") in
  d ← (if word_truthy dir then mret dir else read_prop uploadParams "dir");
  override ← alloc (ObjCell [("dir", d)]);
  own ← spread_entries uploadParams;
  extra ← spread_entries (Ref override);
  merged ← alloc (ObjCell (assign (assign [] own) extra));
  let uploadParams := Ref merged in
  names ← object_keys uploadParams;
  kept ← filter_keys (λ paramName,
            v ← read_prop uploadParams paramName;
            mret (negb (word_is v Null))) names;
  pairs ← map_keys (λ paramName,
             v ← read_prop uploadParams paramName;
             t ← text v;
             mret (paramName +:+ "=" +:+ t)) kept;
  let paramsStr := join "&" pairs in
  url ← (if truthy (Str paramsStr)
         then t ← text url; mret (Prim (Str (t +:+ "?" +:+ paramsStr)))
         else mret url);
  (if word_truthy files && isJson then
     items ← spread_array files;
     for_each (λ file, push files_urls file) items
   else if word_truthy files then
     items ← spread_array files;
     for_each (λ file,
       field_name ← text data_type;
       name ← read_prop file "name";
       append ajaxData (field_name, file, word_or name (Prim Null))) items
   else mret ());;
  let payload := if isJson then jsonData else ajaxData in
  headers ← alloc (ObjCell [(secret_header platform, uploadKey);
                            ("Content-Type",
                             Prim (Str (if isJson then "application/json"
                                        else "multipart/form-data")))]);
  request ← send_request url "POST" (Ref payload) headers onUploadProgress;
  mret {| frame_url := url;
          frame_uploadParams := merged;
          frame_payload := payload;
          frame_request := request |}.

Definition getListFiles_store (GALLERY_IMAGES_LIMIT : value) (arg : word) : action string :=
  dir ← read_prop arg "dir";
  container ← read_prop arg "container";
  platform ← read_prop arg "platform";
  offset ← read_prop arg "offset";
  uploadKey ← read_prop arg "uploadKey";
  let dir := word_default dir (Prim (Str "")) in
  let container := word_default container (Prim (Str "")) in
  baseUrl ← base_url container platform;
  d ← text dir;
  o ← text offset;
  let directoryPath := if word_truthy dir then "dir=" +:+ d else "" in
  let offsetQuery := "&offset=" +:+ o in
  let limit := "&limit=" +:+ to_string GALLERY_IMAGES_LIMIT in
  url ← join_literal "" [baseUrl; "list?"; directoryPath; offsetQuery; limit];
  headers ← alloc (ObjCell [(secret_header platform, uploadKey)]);
  _ ← send_request (Prim (Str url)) "GET" (Prim Null) headers (Prim Undefined);
  mret url.

Definition searchFiles_store (arg : word) : action string :=
  query ← read_prop arg "query";
  container ← read_prop arg "container";
  platform ← read_prop arg "platform";
  language ← read_prop arg "language";
  offset ← read_prop arg "offset";
  uploadKey ← read_prop arg "uploadKey";
  let query := word_default query (Prim (Str "")) in
  let container := word_default container (Prim (Str "")) in
  let offset := word_default offset (Prim (Num 0)) in
  baseUrl ← base_url container platform;
  q ← text query;
  o ← text offset;
  url ← join_literal "" [baseUrl; "search?"; "q=" +:+ q; "&offset=" +:+ o];
  headers ← alloc (ObjCell [(secret_header platform, uploadKey)]);
  _ ← send_request (Prim (Str url)) "GET" (Prim Null) headers (Prim Undefined);
  mret url.

Definition generateTags_store (url autoTaggingProps language container platform
    filerobotUploadKey cloudimageToken : word) : action string :=
  let url := word_default url (Prim (Str "")) in
  autoTaggingProps ← or_fresh autoTaggingProps (ObjCell []);
  let language := word_default language (Prim (Str "en")) in
  let container := word_default container (Prim (Str "")) in
  let filerobotUploadKey := word_default filerobotUploadKey (Prim (Str "")) in
  let cloudimageToken := word_default cloudimageToken (Prim (Str "demo")) in
  key ← read_prop autoTaggingProps "key";
  provider ← read_prop autoTaggingProps "provider";
  confidence ← read_prop autoTaggingProps "confidence";
  limit ← read_prop autoTaggingProps "limit";
  baseUrl ← base_url container platform;
  k ← text (word_default key (Prim (Str "")));
  u ← text url;
  p ← text (word_default provider (Prim (Str "google")));
  l ← text language;
  c ← text (word_default confidence (Prim (Num 60)));
  n ← text (word_default limit (Prim (Num 10)));
  ci ← text cloudimageToken;
  query ← join_literal "&" ["key=" +:+ k; "image_url=" +:+ u; "provider=" +:+ p;
                            "language=" +:+ l; "confidence=" +:+ c; "limit=" +:+ n;
                            "ci=" +:+ ci];
  let target := baseUrl +:+ "post-process/autotagging" +:+ "?" +:+ query in
  headers ← alloc (ObjCell [(secret_header platform, filerobotUploadKey)]);
  _ ← send_request (Prim (Str target)) "GET" (Prim Null) headers (Prim Undefined);
  mret target.

Definition saveMetaData_store (id properties arg : word) : action string :=
  container ← read_prop arg "container";
  platform ← read_prop arg "platform";
  uploadKey ← read_prop arg "uploadKey";
  baseUrl ← base_url container platform;
  data ← alloc (ObjCell [("properties", properties)]);
  i ← text id;
  let target := baseUrl +:+ "file/" +:+ i +:+ "/properties" in
  headers ← alloc (ObjCell [(secret_header platform, uploadKey)]);
  _ ← send_request (Prim (Str target)) "PUT" (Ref data) headers (Prim Undefined);
  mret target.

Definition updateProduct_store (id product arg : word) : action string :=
  container ← read_prop arg "container";
  platform ← read_prop arg "platform";
  uploadKey ← read_prop arg "uploadKey";
  baseUrl ← base_url container platform;
  data ← alloc (ObjCell [("product", product)]);
  i ← text id;
  let target := baseUrl +:+ "file/" +:+ i +:+ "/product" in
  headers ← alloc (ObjCell [(secret_header platform, uploadKey)]);
  _ ← send_request (Prim (Str target)) "PUT" (Ref data) headers (Prim Undefined);
  mret target.

Definition getTokenSettings_store (arg : word) : action string :=
  container ← read_prop arg "container";
  platform ← read_prop arg "platform";
  uploadKey ← read_prop arg "uploadKey";
  let container := word_default container (Prim (Str "")) in
  baseUrl ← base_url container platform;
  url ← join_literal "" [baseUrl; "settings"];
  headers ← alloc (ObjCell [(secret_header platform, uploadKey)]);
  _ ← send_request (Prim (Str url)) "GET" (Prim Null) headers (Prim Undefined);
  mret url.

(** An action keeps the cells of [σ0]: started from any store that has
    them, it ends in one that still has them, unchanged; [Q] holds of
    what it returns. *)
Definition keeps {A} (σ0 : gmap nat cell) (m : action A) (Q : A → Prop) : Prop :=
  ∀ σ, σ0 ⊆ σ → σ0 ⊆ (m σ).2 ∧ ∀ a, (m σ).1 = Ok a → Q a.

(** ** Sample inputs *)

(** Values standing for the constants of [../config] in the evaluations
    of the model, and a small upload call. *)
Definition sample_DUPLICATE_CODE : value := Str "DUPLICATE".
Definition sample_REPLACING_DATA_CODE : value := Str "REPLACING_DATA".
Definition sample_GALLERY_IMAGES_LIMIT : value := Num 100.

Definition sample_config (uploadParams : list (string * value)) : list (string * value) :=
  [("uploadPath", Str "//demo.api.airstore.io/upload");
   ("uploadParams", Obj uploadParams);
   ("uploadKey", Str "key")].

Definition sample_upload (uploadParams : list (string * value)) : upload_props :=
  upload_call [[("name", Str "a.png")]] (sample_config uploadParams) Undefined Undefined.

(** The axios response that carries [body]. *)
Definition received (body : value) : settlement :=
  Fulfilled (Obj [("data", body); ("status", Num 200)]).

(** A store with the argument of an upload call at 0, its configuration
    at 1, the [uploadParams] of the configuration at 2, and one file. *)
Definition sample_store : gmap nat cell :=
  <[0%nat := ObjCell [("files", Ref 3); ("config", Ref 1); ("showAlert", Ref 5)]]>
  (<[1%nat := ObjCell [("uploadPath", Prim (Str "//demo.api.airstore.io/upload"));
                       ("uploadParams", Ref 2); ("uploadKey", Prim (Str "key"))]]>
  (<[2%nat := ObjCell [("dir", Prim Null); ("tag", Prim (Str "x"))]]>
  (<[3%nat := ArrCell [Ref 4]]>
  (<[4%nat := ObjCell [("name", Prim (Str "a.png"))]]>
  (<[5%nat := FunCell]> ∅))))).

(** The data of a property list as words, and the word a property
    holds. *)
Definition as_words (ps : list (string * value)) : list (string * word) :=
  map (λ kv, (kv.1, Prim kv.2)) ps.

Definition word_at (k : string) (ps : list (string * word)) : word :=
  default (Prim Undefined) (lookup_prop k ps).

(** What holds after an action that returns: [Q] of the result and of
    the store it leaves. *)
Definition after {A} (m : action A) (Q : A → gmap nat cell → Prop)
    (σ : gmap nat cell) : Prop :=
  match m σ with
  | (Ok a, σ') => Q a σ'
  | (Throw _, _) => True
  end.

(** ** Vocabulary of the further properties *)

(** [data_type === 'application/json'], after the default
    [data_type = 'files[]']. *)
Definition is_json (data_type : value) : bool :=
  strict_eq (or_default data_type (Str "files[]")) (Str "application/json").

(** The entry that [ajaxData.append(data_type, file, file.name || null)]
    adds to the form for a [File] object. *)
Definition form_entry (data_type : value) (file : list (string * value))
  : string * value * value :=
  (to_string (or_default data_type (Str "files[]")), Obj file, js_or (prop "name" file) Null).

(** [a && a.k], as the handlers of the listing and of the search read a
    count off a part of the response that may be missing. *)
Definition and_field (a : value) (k : string) : value := js_and a (field a k).

(** A call that throws before it returns a promise. *)
Definition throws {A} (r : result A) : Prop := ∃ e, r = Throw e.

(** A call that returns: it issues a request and hands back a promise. *)
Definition returns {A} (r : result A) : Prop := ∃ a, r = Ok a.

(** The configuration of an upload call, after the default
    [config = {}], and the three settings the request is built from. *)
Definition config_of (props : upload_props) : value :=
  or_default (props_config props) (Obj []).

Definition uploadParams_of (props : upload_props) : value :=
  or_default (field (config_of props) "uploadParams") (Obj []).

Definition uploadKey_of (props : upload_props) : value :=
  or_default (field (config_of props) "uploadKey") (Str "").

Definition platform_of (props : upload_props) : value :=
  field (config_of props) "platform".

(** The request an upload call issues once its parameters are merged and
    its payload is filled. *)
Definition request_of (props : upload_props) (merged : list (string * value))
    (payload : body) : request :=
  {| url := upload_url (or_default (field (config_of props) "uploadPath") (Str ""))
              (params_string merged);
     method := "POST";
     data := payload;
     headers := [(getSecretHeaderName (platform_of props), uploadKey_of props);
                 ("Content-Type",
                  Str (if is_json (props_data_type props)
                       then "application/json" else "multipart/form-data"))];
     responseType := "json" |}.

(** ** Printed values *)

(** The values that [to_string] prints as JavaScript does, in a template
    literal, with [+] and a string, and in [Array.prototype.join]. A
    number is printed digit by digit as long as it is a safe integer: a
    larger one has its digits rounded, and from 10^21 on it is printed
    with an exponent. An object with a [toString] property of its own,
    which is data and cannot be called, is not printed at all: the
    conversion throws a [TypeError]; so does a list that holds such an
    object. The theorems about the text of a request take printable
    values. *)
Fixpoint printable (v : value) : bool :=
  match v with
  | Num z => Z.abs z <=? 9007199254740991
  | Arr items => forallb printable items
  | Obj ps =>
      match lookup_prop "toString" ps with
      | Some _ => false
      | None => true
      end
  | _ => true
  end.

(** Every value of a property list is printable. *)
Definition printable_entries (ps : list (string * value)) : bool :=
  forallb (λ kv, printable kv.2) ps.

(** The properties [names] of [v] are printable, a missing one being
    [undefined]. *)
Definition printable_fields (v : value) (names : list string) : bool :=
  forallb (λ k, printable (field v k)) names.

(** The pairs of the upload query when there is no truthy [dir]
    argument: the entries of [uploadParams], with [dir: undefined] added
    at the end when it has no [dir] of its own, less those whose value
    is [null]. *)
Definition pairs_without_dir (uploadParams : list (string * value))
  : list (string * value) :=
  List.filter not_null
    (match lookup_prop "dir" uploadParams with
     | None => uploadParams ++ [("dir", Undefined)]
     | Some _ => uploadParams
     end).

(** ** The options of [init] ([src/index.js], lines 15-24) *)

(** [init] receives its options by reference, merges them with the
    defaults it imports from [./AirstoreUploaderPlugin/config], and hands
    the result to the component as [initialOptions]. What it writes on
    the way is what its caller sees afterwards, so the objects live in a
    heap. Every object, whatever it was made as, holds named properties,
    all of them own data properties; an array holds its elements under
    their indices. A [word] is a reference to an object, or [Prim]: a
    primitive, or data that is frozen. *)
Inductive made : Type :=
| Plain
| List
| Function.

Record object : Type := {
  made_as : made;
  own : list (string * word)
}.

Definition script (A : Type) : Type := gmap nat object → result A * gmap nat object.

Global Instance script_ret : MRet script := λ A a h, (Ok a, h).
Global Instance script_bind : MBind script := λ A B f m h,
  match m h with
  | (Ok a, h') => f a h'
  | (Throw e, h') => (Throw e, h')
  end.

(** [{}], [[]] and [function() {}] as they are created. *)
Definition new_object : object := {| made_as := Plain; own := [] |}.
Definition new_array : object := {| made_as := List; own := [] |}.
Definition new_function : object := {| made_as := Function; own := [] |}.

Definition create (o : object) : script nat := λ h,
  let l := fresh (dom h) in (Ok l, <[l:=o]> h).

(** The object behind a reference; a reference a program holds is never
    dangling, and the script throws there for totality. *)
Definition deref (l : nat) : script object := λ h,
  (match h !! l with
   | Some o => Ok o
   | None => Throw (type_error "dangling reference")
   end, h).

Definition update (l : nat) (o : object) : script () := λ h, (Ok (), <[l:=o]> h).

(** [w.k], for the names [init] reads, none of them an index or
    inherited. *)
Definition obj_read (w : word) (k : string) : script word :=
  match w with
  | Prim v => λ h, (match get_prop v k with
                    | Ok r => Ok (Prim r)
                    | Throw e => Throw e
                    end, h)
  | Ref l => o ← deref l; mret (word_at k (own o))
  end.

(** [w.k = x] in the strict code of a module: an existing property
    keeps its place, a new one goes last; a primitive, and data that is
    frozen, cannot be written to. *)
Definition obj_write (w : word) (k : string) (x : word) : script () :=
  match w with
  | Prim _ => λ h, (Throw (type_error ("Cannot assign to property '" +:+ k +:+ "'")), h)
  | Ref l =>
      o ← deref l;
      update l {| made_as := made_as o; own := set_prop (own o) k x |}
  end.

(** The own enumerable properties [Object.assign] copies from a
    source. *)
Definition obj_entries (w : word) : script (list (string * word)) :=
  match w with
  | Prim v => mret (as_words (own_entries v))
  | Ref l => o ← deref l; mret (own o)
  end.

Fixpoint write_all (target : word) (entries : list (string * word)) : script () :=
  match entries with
  | [] => mret ()
  | (k, x) :: rest => obj_write target k x;; write_all target rest
  end.

(** One source of [Object.assign(target, ...)]. *)
Definition assign_from (target source : word) : script () :=
  entries ← obj_entries source;
  write_all target entries.

(** [w || {}], [w || []] and [w || function() {}]: the object is
    created only when [w] is falsy. *)
Definition or_create (w : word) (o : object) : script word :=
  if word_truthy w then mret w else l ← create o; mret (Ref l).

(** A parameter with an object as its default: the default applies to
    [undefined] only. *)
Definition default_param (w : word) (o : object) : script word :=
  match w with
  | Prim Undefined => l ← create o; mret (Ref l)
  | _ => mret w
  end.

(** Lines 17-24 of [init]: the options are merged with the defaults
    and completed. [config] is the default export of
    [./AirstoreUploaderPlugin/config]. *)
Definition init_merge (config options : word) : script word :=
  (* options = Object.assign({}, config || {}, options || {}) *)
  merged ← create new_object;
  defaults ← or_create config new_object;
  given ← or_create options new_object;
  assign_from (Ref merged) defaults;;
  assign_from (Ref merged) given;;
  let options := Ref merged in
  (* options.modules = options.modules || [] *)
  modules ← obj_read options "modules";
  modules ← or_create modules new_array;
  obj_write options "modules" modules;;
  (* options.settings = Object.assign({}, config.settings || {}, options.settings || {}) *)
  settings ← create new_object;
  default_settings ← obj_read config "settings";
  default_settings ← or_create default_settings new_object;
  given_settings ← obj_read options "settings";
  given_settings ← or_create given_settings new_object;
  assign_from (Ref settings) default_settings;;
  assign_from (Ref settings) given_settings;;
  obj_write options "settings" (Ref settings);;
  (* options.settings.uploadPath = options.settings.uploadPath || null *)
  target ← obj_read options "settings";
  source ← obj_read options "settings";
  uploadPath ← obj_read source "uploadPath";
  obj_write target "uploadPath" (word_or uploadPath (Prim Null));;
  (* options.settings.uploadParams = options.settings.uploadParams || {} *)
  target ← obj_read options "settings";
  source ← obj_read options "settings";
  uploadParams ← obj_read source "uploadParams";
  uploadParams ← or_create uploadParams new_object;
  obj_write target "uploadParams" uploadParams;;
  (* options.settings.uploadParams.opt_auth_upload_key =
       options.settings.uploadParams.opt_auth_upload_key || null *)
  target ← obj_read options "settings";
  target ← obj_read target "uploadParams";
  source ← obj_read options "settings";
  source ← obj_read source "uploadParams";
  key ← obj_read source "opt_auth_upload_key";
  obj_write target "opt_auth_upload_key" (word_or key (Prim Null));;
  (* options.onUpload = options.onUpload || function() {} *)
  onUpload ← obj_read options "onUpload";
  onUpload ← or_create onUpload new_function;
  obj_write options "onUpload" onUpload;;
  mret options.

(** [init(options = {}, isOpened = false)], up to the rendering of the
    component: the result is what the component receives as
    [initialOptions]. *)
Definition init_options (config options : word) : script word :=
  options ← default_param options new_object;
  init_merge config options.

(** A heap as a caller of [init] may find it: the defaults at 0 with
    their settings at 1 and the upload parameters of those at 5, the
    options of the caller at 2 with their settings at 3 and the upload
    parameters of those at 4. *)
Definition sample_heap : gmap nat object :=
  <[0%nat := {| made_as := Plain;
                own := [("settings", Ref 1); ("language", Prim (Str "en"))] |}]>
  (<[1%nat := {| made_as := Plain;
                 own := [("uploadPath", Prim (Str "//demo.api.airstore.io/upload"));
                         ("container", Prim (Str "demo"));
                         ("uploadParams", Ref 5)] |}]>
  (<[2%nat := {| made_as := Plain; own := [("settings", Ref 3)] |}]>
  (<[3%nat := {| made_as := Plain;
                 own := [("container", Prim (Str "mine")); ("uploadParams", Ref 4)] |}]>
  (<[4%nat := {| made_as := Plain; own := [("dir", Prim (Str "photos"))] |}]>
  (<[5%nat := new_object]> ∅))))).

(** What a run of a script leads to: [Q] of the result and of the heap
    when it returns, [T] of the heap when it throws. *)
Definition wp {A} (T : gmap nat object → Prop) (m : script A) (h : gmap nat object)
    (Q : A → gmap nat object → Prop) : Prop :=
  match m h with
  | (Ok a, h') => Q a h'
  | (Throw _, h') => T h'
  end.

(** The object [o] with its property [k] set to [x]. *)
Definition with_prop (o : object) (k : string) (x : word) : object :=
  {| made_as := made_as o; own := set_prop (own o) k x |}.

(** The object [o] after the properties [entries] were copied into it. *)
Definition with_entries (o : object) (entries : list (string * word)) : object :=
  {| made_as := made_as o; own := assign (own o) entries |}.

(** Between two heaps, every object of the first is found unchanged in
    the second, except at most one, which may have had its property [k]
    set. *)
Definition same_but_for (k : string) (h h' : gmap nat object) : Prop :=
  ∃ written : nat,
    (∀ l o, l ≠ written → h !! l = Some o → h' !! l = Some o)
    ∧ ∀ o, h !! written = Some o →
        h' !! written = Some o ∨ ∃ x, h' !! written = Some (with_prop o k x).

(** * Properties *)

(** ** Sample evaluations of the data model *)

Example to_string_samples :
  to_string (Num 0) = "0" ∧ to_string (Num 42) = "42" ∧ to_string (Num (-7)) = "-7"
  ∧ to_string (Arr [Num 1; Null; Str "a"; Arr [Num 2; Num 3]]) = "1,,a,2,3"
  ∧ to_string (Obj [("id", Num 1)]) = "[object Object]"
  ∧ to_string (new_Error "bad retry") = "Error: bad retry".
Proof. repeat split; reflexivity. Qed.

Example spread_samples :
  assign [] (own_entries (Obj [("a", Num 1); ("dir", Null)])) = [("a", Num 1); ("dir", Null)]
  ∧ assign [("a", Num 1); ("dir", Null)] [("dir", Str "x")] = [("a", Num 1); ("dir", Str "x")]
  ∧ assign [("a", Num 1)] [("dir", Undefined)] = [("a", Num 1); ("dir", Undefined)]
  ∧ own_entries (Arr [Str "p"; Str "q"]) = [("0", Str "p"); ("1", Str "q")].
Proof. repeat split; reflexivity. Qed.


(** ** The URL builder *)

Section UrlBuilder.
Implicit Types (container platform : value).

Lemma is_filerobot_iff platform :
  is_filerobot platform = true ↔ platform = Undefined ∨ platform = Str "filerobot".
Proof.
  unfold is_filerobot. destruct platform; simpl; split; intros H;
    try discriminate; try (destruct H; discriminate); auto.
  - apply String.eqb_eq in H. subst. now right.
  - destruct H as [H|[= ->]]; [discriminate | reflexivity].
Qed.

Lemma getBaseUrl_filerobot c :
  getBaseUrl (Str c) (Str "filerobot") = "https://api.filerobot.com/" +:+ c +:+ "/v3/".
Proof. reflexivity. Qed.

Lemma getBaseUrl_other c platform :
  is_filerobot platform = false →
  getBaseUrl (Str c) platform = "https://" +:+ c +:+ ".api.airstore.io/v1/".
Proof. intros H. unfold getBaseUrl. now rewrite H. Qed.

Lemma getSecretHeaderName_filerobot :
  getSecretHeaderName (Str "filerobot") = "X-Filerobot-Key"
  ∧ getSecretHeaderName Undefined = "X-Filerobot-Key".
Proof. split; reflexivity. Qed.

Lemma getSecretHeaderName_other platform :
  is_filerobot platform = false →
  getSecretHeaderName platform = "X-Airstore-Secret-Key".
Proof. intros H. unfold getSecretHeaderName. now rewrite H. Qed.

Example getBaseUrl_airstore :
  getBaseUrl (Str "demo") (Str "airstore") = "https://demo.api.airstore.io/v1/".
Proof. reflexivity. Qed.

End UrlBuilder.

(** ** Strings *)

Section Strings.
Implicit Types (s t u sep : string) (xs : list string).

Lemma append_cons c s t : String c s +:+ t = String c (s +:+ t).
Proof. reflexivity. Qed.

Lemma append_empty_l s : "" +:+ s = s.
Proof. reflexivity. Qed.

Lemma append_assoc s t u : (s +:+ t) +:+ u = s +:+ t +:+ u.
Proof.
  induction s as [|c s IH]; [reflexivity|].
  rewrite !append_cons. f_equal. exact IH.
Qed.

Lemma append_empty_r s : s +:+ "" = s.
Proof.
  induction s as [|c s IH]; [reflexivity|].
  rewrite append_cons. f_equal. exact IH.
Qed.

Lemma append_nonempty_r s t : t ≠ "" → String.eqb (s +:+ t) "" = false.
Proof.
  intros Ht. apply String.eqb_neq. destruct s as [|c s].
  - exact Ht.
  - rewrite append_cons. discriminate.
Qed.

Lemma contains_refl s : contains s s.
Proof. exists "", "". now rewrite append_empty_l, append_empty_r. Qed.

Lemma contains_append_l needle s t : contains needle s → contains needle (t +:+ s).
Proof.
  intros (a & b & ->). exists (t +:+ a), b. now rewrite append_assoc.
Qed.

Lemma contains_append_r needle s t : contains needle s → contains needle (s +:+ t).
Proof.
  intros (a & b & ->). exists a, (b +:+ t). now rewrite !append_assoc.
Qed.

(** Joining with one more element only adds at the end. *)
Lemma join_snoc sep xs y :
  join sep (xs ++ [y]) = match xs with
                         | [] => y
                         | _ => join sep xs +:+ sep +:+ y
                         end.
Proof.
  induction xs as [|x xs IH]; [reflexivity|].
  destruct xs as [|x' xs]; [reflexivity|].
  change (join sep ((x :: x' :: xs) ++ [y]))
    with (x +:+ sep +:+ join sep ((x' :: xs) ++ [y])).
  rewrite IH.
  change (join sep (x :: x' :: xs)) with (x +:+ sep +:+ join sep (x' :: xs)).
  now rewrite !append_assoc.
Qed.

Lemma join_snoc_suffix sep xs y : ∃ before, join sep (xs ++ [y]) = before +:+ y.
Proof.
  rewrite join_snoc. destruct xs as [|x xs].
  - now exists "".
  - exists (join sep (x :: xs) +:+ sep). now rewrite append_assoc.
Qed.

End Strings.

(** ** Property lists *)

Section PropertyLists.
Implicit Types (ps acc : list (string * value)) (k : string) (v : value).

Lemma prop_cons_eq k v ps : prop k ((k, v) :: ps) = v.
Proof. unfold prop. simpl. rewrite String.eqb_refl. reflexivity. Qed.

Lemma prop_cons_ne k k' v ps : k ≠ k' → prop k ((k', v) :: ps) = prop k ps.
Proof.
  intros Hne. unfold prop. simpl.
  destruct (String.eqb_spec k k') as [->|_]; [contradiction | reflexivity].
Qed.

Lemma lookup_prop_None k ps : lookup_prop k ps = None ↔ ¬ In k (map fst ps).
Proof.
  induction ps as [|[k' v'] ps IH]; simpl.
  - tauto.
  - destruct (String.eqb_spec k k') as [->|Hne].
    + split; [discriminate | intros H; exfalso; apply H; now left].
    + rewrite IH. split; [intros H [E|I]; [congruence | tauto] | tauto].
Qed.

Lemma lookup_prop_In k v ps :
  NoDup (map fst ps) → In (k, v) ps → lookup_prop k ps = Some v.
Proof.
  induction ps as [|[k' v'] ps IH]; simpl; [tauto|].
  intros Hnd [E|I].
  - inversion E; subst. rewrite String.eqb_refl. reflexivity.
  - inversion Hnd as [|? ? Hk Hnd']; subst.
    destruct (String.eqb_spec k k') as [->|_].
    + exfalso. apply Hk. apply list_elem_of_In. apply (in_map fst) in I. exact I.
    + auto.
Qed.

Lemma set_prop_fresh k v ps :
  ¬ In k (map fst ps) → set_prop ps k v = ps ++ [(k, v)].
Proof.
  induction ps as [|[k' v'] ps IH]; simpl; [reflexivity|].
  intros H. destruct (String.eqb_spec k k') as [->|_].
  - exfalso. apply H. now left.
  - rewrite IH by tauto. reflexivity.
Qed.

Lemma set_prop_keys k v ps :
  In k (map fst ps) → map fst (set_prop ps k v) = map fst ps.
Proof.
  induction ps as [|[k' v'] ps IH]; simpl; [tauto|].
  intros H. destruct (String.eqb_spec k k') as [->|Hne]; simpl; [reflexivity|].
  rewrite IH; [reflexivity|]. destruct H as [E|I]; [congruence | exact I].
Qed.

Lemma set_prop_NoDup k v ps :
  NoDup (map fst ps) → NoDup (map fst (set_prop ps k v)).
Proof.
  intros Hnd. destruct (in_dec String.string_dec k (map fst ps)) as [Hin|Hout].
  - rewrite set_prop_keys by exact Hin. exact Hnd.
  - rewrite set_prop_fresh by exact Hout.
    rewrite map_app. simpl. apply NoDup_app. repeat split.
    + exact Hnd.
    + intros x Hx Hx'. apply list_elem_of_In in Hx, Hx'.
      destruct Hx' as [<-|[]]. contradiction.
    + apply NoDup_singleton.
Qed.

(** A spread into a fresh object copies a well-formed property list
    as it is. *)
Lemma assign_app acc ps :
  NoDup (map fst (acc ++ ps)) → assign acc ps = acc ++ ps.
Proof.
  revert acc. induction ps as [|[k v] ps IH]; intros acc Hnd; simpl.
  - now rewrite app_nil_r.
  - unfold assign in *. simpl.
    assert (Hk : ¬ In k (map fst acc)).
    { intros Hin. rewrite map_app in Hnd. simpl in Hnd.
      apply NoDup_app in Hnd as (_ & Hdisj & _).
      apply (Hdisj k); [apply list_elem_of_In; exact Hin | left]. }
    rewrite set_prop_fresh by exact Hk.
    rewrite IH; rewrite <- app_assoc; [reflexivity | exact Hnd].
Qed.

Lemma assign_fresh ps : NoDup (map fst ps) → assign [] ps = ps.
Proof. intros H. apply (assign_app [] ps H). Qed.

(** Reading every key of a well-formed list back gives its entries. *)
Lemma prop_of_entry k v ps : NoDup (map fst ps) → In (k, v) ps → prop k ps = v.
Proof. intros Hnd Hin. unfold prop. now rewrite (lookup_prop_In k v ps Hnd Hin). Qed.

Lemma lookup_prop_Some_In k v ps : lookup_prop k ps = Some v → In (k, v) ps.
Proof.
  induction ps as [|[k' v'] ps IH]; simpl; [discriminate|].
  destruct (String.eqb_spec k k') as [->|_].
  - intros [= ->]. now left.
  - intros H. right. auto.
Qed.

Lemma set_prop_same k v ps : lookup_prop k ps = Some v → set_prop ps k v = ps.
Proof.
  induction ps as [|[k' v'] ps IH]; simpl; [discriminate|].
  destruct (String.eqb_spec k k') as [->|_].
  - now intros [= ->].
  - intros H. now rewrite IH.
Qed.

Lemma strict_eq_Null v : strict_eq v Null = true ↔ v = Null.
Proof. destruct v; simpl; split; congruence. Qed.

Lemma not_null_iff k v : not_null (k, v) = true ↔ v ≠ Null.
Proof.
  unfold not_null. simpl. rewrite negb_true_iff, <- not_true_iff_false.
  now rewrite strict_eq_Null.
Qed.

End PropertyLists.

(** ** The upload URL *)

Section UploadUrl.
Variables DUPLICATE_CODE REPLACING_DATA_CODE : value.
Implicit Types (ps cfg : list (string * value)) (k : string) (v : value).

Lemma keys_read_back ps (l : list (string * value)) :
  (∀ kv, In kv l → prop kv.1 ps = kv.2) →
  map (λ k, k +:+ "=" +:+ to_string (prop k ps))
    (List.filter (λ k, negb (strict_eq (prop k ps) Null)) (map fst l))
  = map pair_string (List.filter not_null l).
Proof.
  induction l as [|[k v] l IH]; intros Hall; simpl; [reflexivity|].
  assert (Hkv : prop k ps = v) by (apply (Hall (k, v)); now left).
  assert (Hrest : ∀ kv, In kv l → prop kv.1 ps = kv.2)
    by (intros kv Hin; apply Hall; now right).
  specialize (IH Hrest). unfold not_null at 1. simpl. rewrite Hkv.
  destruct (negb (strict_eq v Null)); simpl; [|exact IH].
  rewrite Hkv, IH. reflexivity.
Qed.

Lemma params_string_entries ps :
  NoDup (map fst ps) → params_string ps = query_string ps.
Proof.
  intros Hnd. unfold params_string, query_string. f_equal.
  apply keys_read_back. intros [k v] Hin. now apply prop_of_entry.
Qed.

Lemma merge_dir_object ps dir :
  NoDup (map fst ps) → merge_dir (Obj ps) dir = Ok (with_dir ps dir).
Proof.
  intros Hnd. unfold merge_dir, with_dir, js_or. simpl.
  rewrite (assign_fresh ps Hnd).
  destruct (truthy dir); reflexivity.
Qed.

Lemma upload_url_string path q : upload_url (Str path) q = Str (with_query path q).
Proof.
  unfold upload_url, with_query, js_or. simpl.
  destruct (String.eqb_spec path "") as [->|_]; simpl;
    destruct (String.eqb q ""); reflexivity.
Qed.

(** Building the payload from [File] objects never throws. *)
Lemma append_files_total (name : string) (files : list (list (string * value))) :
  ∃ entries,
    mapM (λ file, n ← get_prop file "name"; mret (name, file, js_or n Null))
      (map Obj files) = Ok entries.
Proof.
  induction files as [|f files [entries IH]]; simpl.
  - eexists. reflexivity.
  - unfold mbind, result_bind in *. simpl. rewrite IH. eexists. reflexivity.
Qed.

Lemma upload_body_total files data_type :
  ∃ payload, upload_body (Arr (map Obj files)) data_type = Ok payload.
Proof.
  unfold upload_body. simpl.
  destruct (strict_eq data_type (Str "application/json")); simpl.
  - eexists. reflexivity.
  - destruct (append_files_total (to_string data_type) files) as [entries H].
    unfold mbind, result_bind, mret, result_ret in *. rewrite H.
    eexists. reflexivity.
Qed.

(** The call returns a promise whenever the configuration is an object
    and the parameters can be merged; the promise is the handler chain
    on what [send] delivers. *)
Lemma uploadFiles_returns files cfg data_type dir merged :
  merge_dir (or_default (prop "uploadParams" cfg) (Obj [])) dir = Ok merged →
  ∃ req,
    uploadFiles DUPLICATE_CODE REPLACING_DATA_CODE (upload_call files cfg data_type dir)
    = Ok (req, λ reply,
            run_chain DUPLICATE_CODE REPLACING_DATA_CODE Callable (send reply))
    ∧ url req = upload_url (or_default (prop "uploadPath" cfg) (Str ""))
                  (params_string merged).
Proof.
  intros Hm. unfold uploadFiles, upload_call. simpl.
  unfold mbind, result_bind, mret, result_ret in *. rewrite Hm.
  destruct (upload_body_total files (or_default data_type (Str "files[]")))
    as [payload Hp].
  rewrite Hp. eexists. split; reflexivity.
Qed.

(** What the promise of a returned call is. *)
Lemma uploadFiles_promise props req p :
  uploadFiles DUPLICATE_CODE REPLACING_DATA_CODE props = Ok (req, p) →
  p = λ reply,
        run_chain DUPLICATE_CODE REPLACING_DATA_CODE (props_showAlert props) (send reply).
Proof.
  unfold uploadFiles, mbind, result_bind, mret, result_ret.
  repeat (match goal with
          | |- match ?x with _ => _ end = _ → _ => destruct x; try discriminate
          end).
  intros H. inversion H. reflexivity.
Qed.

(** C3. For every [uploadParams] mapping whose values can be printed
    (text or [null], as the data model has them, and every other
    [printable] value), the URL of the upload request is [uploadPath]
    followed by [?] and the query string, and the query string is made
    of exactly the entries of the mapping (directory override merged in)
    whose value is not [null], each printed as [key=value] without any
    encoding and joined with [&]. *)
Theorem upload_query_string files cfg ps path data_type dir :
  or_default (prop "uploadParams" cfg) (Obj []) = Obj ps →
  NoDup (map fst ps) →
  or_default (prop "uploadPath" cfg) (Str "") = Str path →
  printable_entries ps = true →
  printable dir = true →
  printable data_type = true →
  ∃ req p,
    uploadFiles DUPLICATE_CODE REPLACING_DATA_CODE (upload_call files cfg data_type dir)
    = Ok (req, p)
    ∧ url req
      = Str (with_query path
               (join "&" (map (λ kv, kv.1 +:+ "=" +:+ to_string kv.2)
                            (List.filter (λ kv, negb (strict_eq kv.2 Null))
                               (with_dir ps dir))))).
Proof.
  intros Hps Hnd Hpath _ _ _.
  destruct (uploadFiles_returns files cfg data_type dir (with_dir ps dir))
    as (req & Hcall & Hurl).
  { rewrite Hps. now apply merge_dir_object. }
  exists req. eexists. split; [exact Hcall|].
  rewrite Hurl, Hpath. rewrite upload_url_string.
  rewrite params_string_entries by (now apply set_prop_NoDup).
  reflexivity.
Qed.

Lemma with_dir_absent ps dir :
  truthy dir = false → lookup_prop "dir" ps = None →
  with_dir ps dir = ps ++ [("dir", Undefined)].
Proof.
  intros Hd Hnone. unfold with_dir, js_or, prop. rewrite Hd, Hnone. simpl.
  apply set_prop_fresh. now apply lookup_prop_None.
Qed.

Lemma with_dir_present ps dir v :
  truthy dir = false → lookup_prop "dir" ps = Some v → with_dir ps dir = ps.
Proof.
  intros Hd Hsome. unfold with_dir, js_or, prop. rewrite Hd, Hsome. simpl.
  now apply set_prop_same.
Qed.

(** What the query is made of when there is no [dir] argument. *)
Lemma with_dir_falsy ps dir :
  truthy dir = false →
  List.filter not_null (with_dir ps dir) = pairs_without_dir ps.
Proof.
  intros Hd. unfold pairs_without_dir.
  destruct (lookup_prop "dir" ps) as [v|] eqn:Hlook.
  - now rewrite (with_dir_present ps dir v Hd Hlook).
  - now rewrite (with_dir_absent ps dir Hd Hlook).
Qed.

(** C9. When the [dir] argument is falsy and the values of the mapping
    can be printed: the URL that is built is [uploadPath] with the pairs
    of [pairs_without_dir]; a mapping with no [dir] key is merged into
    one with a [dir] entry whose value is [undefined], which is kept, so
    the URL ends with the pair [dir=undefined]; and the URL has a [dir]
    pair unless the mapping holds an explicit [null] for it. *)
Theorem upload_dir_undefined files cfg ps path data_type dir :
  or_default (prop "uploadParams" cfg) (Obj []) = Obj ps →
  NoDup (map fst ps) →
  or_default (prop "uploadPath" cfg) (Str "") = Str path →
  truthy dir = false →
  printable_entries ps = true →
  printable data_type = true →
  ∃ req p u,
    uploadFiles DUPLICATE_CODE REPLACING_DATA_CODE (upload_call files cfg data_type dir)
    = Ok (req, p)
    ∧ url req = Str u
    ∧ u = with_query path (join "&" (map pair_string (pairs_without_dir ps)))
    ∧ (lookup_prop "dir" ps = None →
         merge_dir (Obj ps) dir = Ok (ps ++ [("dir", Undefined)])
         ∧ u = path +:+ "?"
               +:+ join "&" (map pair_string (List.filter not_null ps) ++ ["dir=undefined"])
         ∧ contains "dir=undefined" u)
    ∧ (In "dir" (map fst (pairs_without_dir ps))
       ↔ lookup_prop "dir" ps ≠ Some Null).
Proof.
  intros Hps Hnd Hpath Hd _ _.
  destruct (uploadFiles_returns files cfg data_type dir (with_dir ps dir))
    as (req & Hcall & Hurl).
  { rewrite Hps. now apply merge_dir_object. }
  rewrite Hpath in Hurl. rewrite upload_url_string in Hurl.
  rewrite params_string_entries in Hurl by (now apply set_prop_NoDup).
  unfold query_string in Hurl. rewrite (with_dir_falsy ps dir Hd) in Hurl.
  exists req. eexists.
  exists (with_query path (join "&" (map pair_string (pairs_without_dir ps)))).
  split; [exact Hcall|]. split; [exact Hurl|]. split; [reflexivity|]. split.
  - intros Hnone. split.
    { rewrite (merge_dir_object ps dir Hnd).
      now rewrite (with_dir_absent ps dir Hd Hnone). }
    unfold pairs_without_dir. rewrite Hnone.
    rewrite List.filter_app, map_app. simpl.
    change (pair_string ("dir", Undefined)) with "dir=undefined".
    destruct (join_snoc_suffix "&" (map pair_string (List.filter not_null ps))
                "dir=undefined") as [before Hjoin].
    assert (Hq : ∀ q, q = before +:+ "dir=undefined" →
                      with_query path q = path +:+ "?" +:+ q).
    { intros q ->. unfold with_query.
      now rewrite append_nonempty_r by discriminate. }
    rewrite (Hq _ Hjoin). split; [reflexivity|].
    rewrite Hjoin. do 3 apply contains_append_l. apply contains_refl.
  - unfold pairs_without_dir.
    destruct (lookup_prop "dir" ps) as [v|] eqn:Hlook.
    + split.
      * intros Hin [= ->]. apply in_map_iff in Hin as ([k w] & Hk & Hkw).
        simpl in Hk. subst k. apply filter_In in Hkw as [Hin Hkeep].
        apply not_null_iff in Hkeep. apply Hkeep.
        pose proof (lookup_prop_In "dir" w ps Hnd Hin) as Hw. congruence.
      * intros Hne. apply in_map_iff. exists ("dir", v). split; [reflexivity|].
        apply filter_In. split; [now apply lookup_prop_Some_In|].
        apply not_null_iff. congruence.
    + split; [discriminate|]. intros _.
      rewrite List.filter_app, map_app. apply in_or_app. right. now left.
Qed.

End UploadUrl.

(** ** The response of an upload *)

Section UploadResponse.
Variables DUPLICATE_CODE REPLACING_DATA_CODE : value.
Implicit Types (fields : list (string * value)) (s : value).

Local Abbreviation on_response := (on_response DUPLICATE_CODE REPLACING_DATA_CODE).
Local Abbreviation uploadFiles := (uploadFiles DUPLICATE_CODE REPLACING_DATA_CODE).
Local Abbreviation flags := (upload_flags DUPLICATE_CODE REPLACING_DATA_CODE).
Local Abbreviation handled := (handled DUPLICATE_CODE REPLACING_DATA_CODE).

Lemma get_prop_field v k : v ≠ Null → v ≠ Undefined → get_prop v k = Ok (field v k).
Proof. intros Hn Hu. unfold field. destruct v; try congruence; reflexivity. Qed.

Lemma truthy_defined v : truthy v = true → v ≠ Null ∧ v ≠ Undefined.
Proof. destruct v; simpl; intros H; split; congruence. Qed.

Lemma upload_state_absent fields :
  lookup_prop "upload" fields = None → upload_state fields = Ok Undefined.
Proof. intros H. unfold upload_state, prop. rewrite H. reflexivity. Qed.

Lemma upload_state_defined fields :
  prop "upload" fields ≠ Null ↔ ∃ s, upload_state fields = Ok s.
Proof.
  unfold upload_state. destruct (prop "upload" fields); simpl;
    split; try congruence; try (intros _; eexists; reflexivity).
  intros [s Hs]. discriminate.
Qed.

Lemma upload_state_of fields :
  prop "upload" fields ≠ Null → upload_state fields = Ok (state_of fields).
Proof.
  intros Hnull. unfold upload_state, state_of.
  apply get_prop_field; destruct (prop "upload" fields); simpl; congruence.
Qed.

(** The fulfilment handler on a response object, branch by branch. *)
Lemma on_response_object fields s :
  upload_state fields = Ok s →
  on_response (Obj fields) pending =
    let status := or_default (prop "status" fields) (Str "success") in
    let files := or_default (prop "files" fields) (Arr []) in
    let file := prop "file" fields in
    if strict_eq status (Str "success") && truthy file then
      (Ok (), ended (Fulfilled (Arr (Arr [file] :: flags s))) [])
    else if strict_eq status (Str "success") && truthy files then
      (Ok (), ended (Fulfilled (Arr (files :: flags s))) [])
    else if strict_eq status (Str "error") then
      (Throw (new_Error (to_string (prop "msg" fields) +:+ " "
                         +:+ to_string (prop "hint" fields))), pending)
    else (Ok (), ended (Rejected (Obj fields)) []).
Proof.
  intros Hs. unfold upload_state in Hs.
  unfold on_response, mbind, handler_bind, lift. simpl.
  rewrite Hs. simpl.
  repeat (match goal with |- context [if ?c then _ else _] => destruct c end);
    reflexivity.
Qed.

(** A throwing fulfilment handler leaves the promise pending. *)
Lemma on_response_throws response e st :
  on_response response pending = (Throw e, st) → st = pending.
Proof.
  unfold on_response, mbind, handler_bind, lift, throw, resolve, reject, settle.
  repeat (match goal with
          | |- context [match ?x with _ => _ end] => destruct x; simpl
          end); intros [=]; congruence.
Qed.

Lemma error_payload_truthy e : truthy (error_payload e) = true.
Proof.
  unfold error_payload, js_or.
  destruct (truthy (js_and _ _)) eqn:H; [exact H | reflexivity].
Qed.

Lemma error_data_payload e :
  e ≠ Null → e ≠ Undefined → error_data e = Ok (error_payload e).
Proof.
  intros Hn Hu. unfold error_data, error_payload, js_and.
  rewrite (get_prop_field e "response" Hn Hu).
  unfold mbind, result_bind, mret, result_ret.
  destruct (truthy (field e "response")) eqn:Hr.
  - destruct (truthy_defined _ Hr) as [Hrn Hru].
    now rewrite (get_prop_field _ "data" Hrn Hru).
  - unfold js_or. now rewrite Hr.
Qed.

Lemma error_code_payload e :
  error_code (error_payload e) = Ok (payload_code e).
Proof.
  destruct (truthy_defined _ (error_payload_truthy e)) as [Hn Hu].
  unfold error_code, payload_code. now rewrite (get_prop_field _ "code" Hn Hu).
Qed.

Lemma error_msg_payload e :
  (∀ ps, field (error_payload e) "msg" = Obj ps → truthy (prop "join" ps) = false) →
  error_msg (error_payload e) = Ok (payload_msg e).
Proof.
  intros Hmsg.
  destruct (truthy_defined _ (error_payload_truthy e)) as [Hn Hu].
  unfold error_msg, payload_msg, js_and. rewrite (get_prop_field _ "msg" Hn Hu).
  unfold mbind, result_bind, mret, result_ret.
  destruct (field (error_payload e) "msg") as [| |b|z|s|items|ps|n m] eqn:Hm; simpl;
    try reflexivity.
  - now destruct b.
  - now destruct (negb (z =? 0)).
  - now destruct (negb (String.eqb s "")).
  - now rewrite (Hmsg ps eq_refl).
Qed.

Lemma alert_message_text e :
  e ≠ Null → e ≠ Undefined →
  alert_message e (payload_code e) (payload_msg e) = Ok (alert_text e).
Proof.
  intros Hn Hu. unfold alert_message, alert_text, raw_message.
  assert (Hor : truthy (js_or (payload_code e) (payload_msg e))
                = truthy (payload_code e) || truthy (payload_msg e)).
  { unfold js_or at 1. destruct (truthy (payload_code e)) eqn:Hc; [exact Hc | reflexivity]. }
  rewrite Hor. destruct (truthy (payload_code e) || truthy (payload_msg e)); [reflexivity|].
  rewrite (get_prop_field e "msg" Hn Hu), (get_prop_field e "message" Hn Hu).
  unfold mbind, result_bind, mret, result_ret, js_or.
  destruct (truthy (field e "msg")); reflexivity.
Qed.

(** The rejection handler alerts once and rejects with the error. *)
Lemma on_error_alert e :
  e ≠ Null → e ≠ Undefined →
  (∀ ps, field (error_payload e) "msg" = Obj ps → truthy (prop "join" ps) = false) →
  on_error Callable e pending
  = (Ok (), ended (Rejected e) [[Str ""; alert_text e; Str "error"]]).
Proof.
  intros Hn Hu Hmsg. unfold on_error.
  replace (or_default e (Obj [])) with e by (destruct e; simpl; congruence).
  unfold mbind, handler_bind, lift.
  rewrite (error_data_payload e Hn Hu), error_code_payload,
    (error_msg_payload e Hmsg), (alert_message_text e Hn Hu).
  reflexivity.
Qed.

(** The promise of a returned call, once the transport has delivered a
    response object whose [upload.state] can be read. *)
Lemma promise_of_response props req p reply fields s :
  uploadFiles props = Ok (req, p) →
  send reply = Fulfilled (Obj fields) →
  upload_state fields = Ok s →
  p reply = match on_response (Obj fields) pending with
            | (Ok _, st) => st
            | (Throw e, st) => (on_error (props_showAlert props) e st).2
            end.
Proof.
  intros Hcall Hsend _. rewrite (uploadFiles_promise _ _ _ _ _ Hcall).
  unfold run_chain. now rewrite Hsend.
Qed.

(** Reading [upload.state] off a [null] [upload] throws before the
    status is looked at. *)
Lemma on_response_null_upload fields :
  prop "upload" fields = Null →
  on_response (Obj fields) pending
  = (Throw (type_error "Cannot read properties of null (reading 'state')"), pending).
Proof.
  intros Hnull. unfold on_response, mbind, handler_bind, lift. simpl.
  rewrite Hnull. reflexivity.
Qed.

(** The rejection handler on an [Error]: its message is the alert. *)
Lemma on_error_of_Error name text :
  on_error Callable (Err name text) pending
  = (Ok (), ended (Rejected (Err name text)) [[Str ""; Str text; Str "error"]]).
Proof. rewrite on_error_alert; try discriminate. reflexivity. Qed.

(** When [showAlert] is not a function the rejection handler throws
    before it rejects, whatever the error. *)
Lemma on_error_not_callable e st : (on_error NotCallable e st).2 = st.
Proof.
  unfold on_error, mbind, handler_bind, lift, call.
  repeat (match goal with
          | |- context [match ?x with _ => _ end] => destruct x; simpl
          end); reflexivity.
Qed.

(** The promise on a response whose [upload] is [null]. *)
Lemma promise_of_null_upload props req p reply fields :
  uploadFiles props = Ok (req, p) →
  send reply = Fulfilled (Obj fields) →
  prop "upload" fields = Null →
  let e := type_error "Cannot read properties of null (reading 'state')" in
  (props_showAlert props = Callable →
     p reply = ended (Rejected e)
                 [[Str ""; Str "Cannot read properties of null (reading 'state')";
                   Str "error"]])
  ∧ (props_showAlert props = NotCallable → p reply = pending).
Proof.
  intros Hcall Hsend Hnull e. rewrite (uploadFiles_promise _ _ _ _ _ Hcall).
  unfold run_chain. rewrite Hsend, (on_response_null_upload _ Hnull).
  split; intros ->.
  - unfold e, type_error. now rewrite on_error_of_Error.
  - apply on_error_not_callable.
Qed.

(** C1, amended. For every response with status ["success"]: when its
    [upload] field is absent or not [null], so that [upload.state] can be
    read, a truthy [file] makes the promise resolve with
    [[[file], isDuplicate, isReplacingData]], and otherwise a present and
    truthy [files] makes it resolve with [[files, isDuplicate,
    isReplacingData]]; the two flags compare [upload.state] with the two
    codes, and both are false when [upload] is absent and the codes are
    defined values. When [upload] is [null], reading [upload.state]
    throws a [TypeError]: with [showAlert] a function the promise
    rejects with that error after one alert that carries its message,
    and with [showAlert] not a function the promise stays pending. *)
Theorem upload_success_result props req p reply fields :
  uploadFiles props = Ok (req, p) →
  send reply = Fulfilled (Obj fields) →
  prop "status" fields = Str "success" →
  let state := state_of fields in
  (prop "upload" fields ≠ Null →
     (truthy (prop "file" fields) = true →
        p reply = ended (Fulfilled (Arr (Arr [prop "file" fields] :: flags state))) [])
     ∧ (truthy (prop "file" fields) = false →
        ∀ files, lookup_prop "files" fields = Some files → truthy files = true →
        p reply = ended (Fulfilled (Arr (files :: flags state))) []))
  ∧ (lookup_prop "upload" fields = None →
     state = Undefined
     ∧ (DUPLICATE_CODE ≠ Undefined → REPLACING_DATA_CODE ≠ Undefined →
        flags state = [Bool false; Bool false]))
  ∧ (prop "upload" fields = Null →
     ∃ text,
       (props_showAlert props = Callable →
          p reply = ended (Rejected (type_error text)) [[Str ""; Str text; Str "error"]])
       ∧ (props_showAlert props = NotCallable → p reply = pending)).
Proof.
  intros Hcall Hsend Hstatus state. split; [|split].
  - intros Hnull.
    pose proof (upload_state_of fields Hnull) as Hs. fold state in Hs.
    rewrite (promise_of_response _ _ _ _ _ _ Hcall Hsend Hs),
      (on_response_object _ _ Hs), Hstatus.
    cbn zeta. simpl or_default at 1 2 3. simpl strict_eq. simpl andb.
    split.
    + intros Hfile. now rewrite Hfile.
    + intros Hfile files Hfiles Htruthy. rewrite Hfile.
      unfold prop. rewrite Hfiles. simpl.
      assert (Hdef : or_default files (Arr []) = files)
        by (destruct files; simpl in *; congruence).
      rewrite Hdef, Htruthy. reflexivity.
  - intros Habsent.
    assert (Hstate : state = Undefined).
    { unfold state, state_of, prop. now rewrite Habsent. }
    rewrite Hstate.
    split; [reflexivity|]. intros HD HR. unfold upload_flags.
    destruct DUPLICATE_CODE, REPLACING_DATA_CODE; simpl; congruence.
  - intros Hnull. eexists.
    exact (promise_of_null_upload _ _ _ _ _ Hcall Hsend Hnull).
Qed.

(** C2, amended. For every response with status ["error"] whose [msg]
    and [hint] can be printed: when its [upload] field is absent or not
    [null] and [showAlert] is a function, the promise rejects with an
    [Error] whose message is the server's [msg], a space, and the
    server's [hint], after [showAlert] was called once with that
    message; when [upload] is [null], reading [upload.state] throws
    first, and the promise rejects with that [TypeError] instead, after
    one alert that carries its message; when [showAlert] is not a
    function the promise stays pending in both cases. *)
Theorem upload_error_rejects props req p reply fields :
  uploadFiles props = Ok (req, p) →
  send reply = Fulfilled (Obj fields) →
  prop "status" fields = Str "error" →
  printable (prop "msg" fields) = true →
  printable (prop "hint" fields) = true →
  let message := to_string (prop "msg" fields) +:+ " " +:+ to_string (prop "hint" fields) in
  (prop "upload" fields ≠ Null →
     (props_showAlert props = Callable →
        p reply = ended (Rejected (new_Error message)) [[Str ""; Str message; Str "error"]])
     ∧ (props_showAlert props = NotCallable → p reply = pending))
  ∧ (prop "upload" fields = Null →
     ∃ text,
       (props_showAlert props = Callable →
          p reply = ended (Rejected (type_error text)) [[Str ""; Str text; Str "error"]])
       ∧ (props_showAlert props = NotCallable → p reply = pending))
  ∧ contains (to_string (prop "msg" fields)) message
  ∧ contains (to_string (prop "hint" fields)) message.
Proof.
  intros Hcall Hsend Hstatus _ _ message. split; [|split; [|split]].
  - intros Hnull.
    pose proof (upload_state_of fields Hnull) as Hs.
    rewrite (promise_of_response _ _ _ _ _ _ Hcall Hsend Hs),
      (on_response_object _ _ Hs), Hstatus.
    cbn zeta. simpl or_default at 1 2 3. simpl strict_eq. simpl andb. cbv iota.
    split; intros ->.
    + fold message. unfold new_Error. now rewrite on_error_of_Error.
    + apply on_error_not_callable.
  - intros Hnull. eexists.
    exact (promise_of_null_upload _ _ _ _ _ Hcall Hsend Hnull).
  - apply contains_append_r, contains_refl.
  - do 2 apply contains_append_l. apply contains_refl.
Qed.

(** C4, amended. With [showAlert] a function, take an error that is
    neither [null] nor [undefined], whose payload has a [code] and a
    [msg] that can be printed, the [msg] being no object with a truthy
    [join] property of its own. When it reaches the rejection handler,
    [showAlert] is called exactly once, with the text ["{code}: {msg}"]
    when the payload carries a code or a message ([msg] joined with
    [', '] when it is a list) and with the raw error's own message
    otherwise, and the promise then rejects with the error itself. An
    error reaches the handler when the transport fails with it, and also
    when it is the [Error] that the response handler throws on a
    response with status ["error"], whose message, the server's [msg], a
    space and the server's [hint], is then the text of the alert. *)
Theorem upload_rejection_alert props req p reply e :
  uploadFiles props = Ok (req, p) →
  props_showAlert props = Callable →
  e ≠ Null → e ≠ Undefined →
  (∀ ps, field (error_payload e) "msg" = Obj ps → truthy (prop "join" ps) = false) →
  printable (field (error_payload e) "code") = true →
  printable (field (error_payload e) "msg") = true →
  (handled reply e →
     p reply = ended (Rejected e) [[Str ""; alert_text e; Str "error"]])
  ∧ (reply = Rejected e → handled reply e)
  ∧ (∀ fields,
       send reply = Fulfilled (Obj fields) →
       prop "status" fields = Str "error" →
       prop "upload" fields ≠ Null →
       printable (prop "msg" fields) = true →
       printable (prop "hint" fields) = true →
       let message :=
         to_string (prop "msg" fields) +:+ " " +:+ to_string (prop "hint" fields) in
       e = new_Error message →
       handled reply e ∧ alert_text e = Str message).
Proof.
  intros Hcall Halert Hn Hu Hmsg _ _. split; [|split].
  - intros Hhandled.
    rewrite (uploadFiles_promise _ _ _ _ _ Hcall), Halert.
    unfold run_chain.
    destruct Hhandled as [Hsend | (response & st & Hsend & Hthrow)]; rewrite Hsend.
    + now rewrite on_error_alert.
    + rewrite Hthrow. rewrite (on_response_throws _ _ _ Hthrow).
      now rewrite on_error_alert.
  - intros ->. now left.
  - intros fields Hsend Hstatus Hnull _ _ message ->. split; [|reflexivity].
    right. exists (Obj fields), pending. split; [exact Hsend|].
    rewrite (on_response_object _ _ (upload_state_of fields Hnull)), Hstatus.
    reflexivity.
Qed.

(** C5, amended. A response whose [upload] field is absent or not
    [null] is rejected with the raw response object, and without any alert, when
    its status (["success"] when absent) is neither ["success"] nor
    ["error"], or when the status is ["success"] while [file] is falsy
    and [files] is present but falsy. A response with no status field
    counts as a success, and a success that carries neither [file] nor
    [files] resolves with the empty list. *)
Theorem upload_unexpected_shape props req p reply fields :
  uploadFiles props = Ok (req, p) →
  send reply = Fulfilled (Obj fields) →
  prop "upload" fields ≠ Null →
  let status := or_default (prop "status" fields) (Str "success") in
  let files := or_default (prop "files" fields) (Arr []) in
  (strict_eq status (Str "success") = false ∧ strict_eq status (Str "error") = false
   ∨ strict_eq status (Str "success") = true
     ∧ truthy (prop "file" fields) = false ∧ truthy files = false →
   p reply = ended (Rejected (Obj fields)) [])
  ∧ (strict_eq status (Str "success") = true →
     lookup_prop "file" fields = None → lookup_prop "files" fields = None →
     p reply = ended (Fulfilled (Arr (Arr [] :: flags (state_of fields)))) []).
Proof.
  intros Hcall Hsend Hnull status files.
  pose proof (upload_state_of fields Hnull) as Hs.
  rewrite (promise_of_response _ _ _ _ _ _ Hcall Hsend Hs),
    (on_response_object _ _ Hs).
  cbn zeta. fold status. fold files. split.
  - intros [[Hsuccess Herror] | (Hsuccess & Hfile & Hfiles)].
    + rewrite Hsuccess, Herror. reflexivity.
    + rewrite Hsuccess, Hfile, Hfiles. simpl.
      destruct status; simpl in *; try reflexivity.
      apply String.eqb_eq in Hsuccess. subst. reflexivity.
  - intros Hsuccess Hfile Hfiles. rewrite Hsuccess.
    unfold files, prop. rewrite Hfile, Hfiles. reflexivity.
Qed.

End UploadResponse.

(** ** Listing, searching and the token settings *)

Section Queries.
Variable GALLERY_IMAGES_LIMIT : value.
Implicit Types (arg : list (string * value)).

Lemma strict_eq_one v : strict_eq v (Num 1) = true ↔ v = Num 1.
Proof.
  destruct v; simpl; split; try congruence.
  - intros H. apply Z.eqb_eq in H. now subst.
  - intros [= ->]. reflexivity.
Qed.

(** [send] never delivers [undefined]. *)
Lemma send_defined reply v : send reply = Fulfilled v → v ≠ Undefined.
Proof.
  unfold send. destruct reply as [r|e]; [|discriminate].
  destruct (get_prop r "data") as [d|]; [|discriminate].
  intros [= <-]. destruct d; discriminate.
Qed.

(** C6. For a non-empty [dir] and an [offset], with an offset, a
    container and a page size that can be printed (numbers in the safe
    range and text are), the request is a GET to the base URL followed
    by [list?dir=<dir>&offset=<offset>&limit=<page size>], and on a
    response that carries a [current_directory] the promise resolves
    with [[files, directories, files_count]]. *)
Theorem list_request arg d :
  prop "dir" arg = Str d → d ≠ "" →
  printable (prop "offset" arg) = true →
  printable (prop "container" arg) = true →
  printable GALLERY_IMAGES_LIMIT = true →
  let offset := prop "offset" arg in
  ∃ req p u,
    getListFiles GALLERY_IMAGES_LIMIT (Obj arg) = Ok (req, p)
    ∧ method req = "GET"
    ∧ url req = Str u
    ∧ u = getBaseUrl (or_default (prop "container" arg) (Str "")) (prop "platform" arg)
          +:+ "list?" +:+ "dir=" +:+ d +:+ "&offset=" +:+ to_string offset
          +:+ "&limit=" +:+ to_string GALLERY_IMAGES_LIMIT
    ∧ contains ("dir=" +:+ d +:+ "&offset=" +:+ to_string offset
                +:+ "&limit=" +:+ to_string GALLERY_IMAGES_LIMIT) u
    ∧ ∀ reply response cd,
        send reply = Fulfilled (Obj response) →
        prop "current_directory" response = Obj cd →
        p reply = Fulfilled (Arr [prop "files" response;
                                  prop "directories" response;
                                  prop "files_count" cd]).
Proof.
  intros Hdir Hne _ _ _ offset.
  unfold getListFiles. simpl. rewrite Hdir. simpl. fold offset.
  assert (Htruthy : negb (String.eqb d "") = true)
    by (apply negb_true_iff, String.eqb_neq; exact Hne).
  rewrite Htruthy.
  eexists _, _, (getBaseUrl (or_default (prop "container" arg) (Str "")) (prop "platform" arg)
                 +:+ "list?" +:+ "dir=" +:+ d +:+ "&offset=" +:+ to_string offset
                 +:+ "&limit=" +:+ to_string GALLERY_IMAGES_LIMIT).
  split; [reflexivity|]. split; [reflexivity|].
  split; [reflexivity|]. split; [reflexivity|]. split.
  - do 2 apply contains_append_l. apply contains_refl.
  - intros reply response cd Hsend Hcd. simpl. rewrite Hsend. simpl.
    rewrite Hcd. reflexivity.
Qed.

(** C10. Without an [offset] in the argument, [searchFiles] asks for
    [&offset=0], as its default says, while [getListFiles], which has no
    default, prints the missing value: its URL has [offset=undefined]. *)
Theorem offset_defaults arg :
  lookup_prop "offset" arg = None →
  (∃ req p u,
     searchFiles (Obj arg) = Ok (req, p)
     ∧ url req = Str u
     ∧ u = getBaseUrl (or_default (prop "container" arg) (Str "")) (prop "platform" arg)
           +:+ "search?" +:+ "q=" +:+ to_string (or_default (prop "query" arg) (Str ""))
           +:+ "&offset=0"
     ∧ contains "&offset=0" u)
  ∧ (∃ req p u,
       getListFiles GALLERY_IMAGES_LIMIT (Obj arg) = Ok (req, p)
       ∧ url req = Str u
       ∧ u = getBaseUrl (or_default (prop "container" arg) (Str "")) (prop "platform" arg)
             +:+ "list?"
             +:+ (if truthy (or_default (prop "dir" arg) (Str ""))
                  then "dir=" +:+ to_string (or_default (prop "dir" arg) (Str ""))
                  else "")
             +:+ "&offset=undefined"
             +:+ "&limit=" +:+ to_string GALLERY_IMAGES_LIMIT
       ∧ contains "offset=undefined" u).
Proof.
  intros Hoffset.
  assert (Hprop : prop "offset" arg = Undefined) by (unfold prop; now rewrite Hoffset).
  split.
  - unfold searchFiles. simpl. rewrite Hprop. simpl.
    eexists _, _, (_ +:+ "search?" +:+ "q=" +:+ _ +:+ "&offset=0").
    split; [reflexivity|]. split; [reflexivity|].
    split; [reflexivity|].
    do 4 apply contains_append_l. apply contains_refl.
  - unfold getListFiles. simpl. rewrite Hprop. simpl.
    eexists _, _, (_ +:+ "list?" +:+ _ +:+ "&offset=undefined" +:+ "&limit=" +:+ _).
    split; [reflexivity|]. split; [reflexivity|].
    split; [reflexivity|].
    do 3 apply contains_append_l.
    change "&offset=undefined" with ("&" +:+ "offset=undefined").
    apply contains_append_r, contains_append_l, contains_refl.
Qed.

(** C7, amended. For every response other than [null] whose [settings]
    field is not [null], the promise resolves with [{productsEnabled:
    b}], where [b] is true exactly when [settings._products_enabled] is
    the number 1; a missing [settings] gives false. *)
Theorem token_settings_result arg :
  ∃ req p,
    getTokenSettings (Obj arg) = Ok (req, p)
    ∧ ∀ reply (response : value),
        send reply = Fulfilled response →
        response ≠ Null →
        field response "settings" ≠ Null →
        let enabled :=
          field (or_default (field response "settings") (Obj [])) "_products_enabled" in
        p reply = Fulfilled (Obj [("productsEnabled", Bool (strict_eq enabled (Num 1)))])
        ∧ (strict_eq enabled (Num 1) = true ↔ enabled = Num 1)
        ∧ (field response "settings" = Undefined → strict_eq enabled (Num 1) = false).
Proof.
  unfold getTokenSettings. eexists _, _. split; [reflexivity|].
  intros reply response Hsend Hnull Hsettings. simpl. rewrite Hsend. simpl.
  pose proof (send_defined _ _ Hsend) as Hundef.
  assert (Hresponse : or_default response (Obj []) = response)
    by (destruct response; simpl; congruence).
  rewrite Hresponse.
  rewrite (get_prop_field response "settings" Hnull Hundef).
  unfold mbind, result_bind, mret, result_ret.
  assert (Hdef : or_default (field response "settings") (Obj []) ≠ Null
                 ∧ or_default (field response "settings") (Obj []) ≠ Undefined)
    by (destruct (field response "settings"); simpl; split; congruence).
  destruct Hdef as [Hn Hu].
  rewrite (get_prop_field _ "_products_enabled" Hn Hu).
  split; [reflexivity|]. split; [apply strict_eq_one|].
  intros Habsent. rewrite Habsent. reflexivity.
Qed.

End Queries.

(** ** What the request functions leave in the store *)

Section Frame.
Variable σ0 : gmap nat cell.

Lemma keeps_ret {A} (a : A) (Q : A → Prop) : Q a → keeps σ0 (mret a) Q.
Proof. intros Hq σ Hσ. split; [exact Hσ|]. now intros a' [= <-]. Qed.

Lemma keeps_bind {A B} (m : action A) (f : A → action B) Q R :
  keeps σ0 m Q → (∀ a, Q a → keeps σ0 (f a) R) → keeps σ0 (m ≫= f) R.
Proof.
  intros Hm Hf σ Hσ. destruct (Hm σ Hσ) as [Hsub Hq].
  unfold mbind, action_bind. destruct (m σ) as [[a|e] σ1]; simpl in *.
  - apply (Hf a); [apply Hq; reflexivity | exact Hsub].
  - split; [exact Hsub | discriminate].
Qed.

Lemma keeps_any {A} (m : action A) Q : keeps σ0 m Q → keeps σ0 m (λ _, True).
Proof. intros Hm σ Hσ. split; [apply (Hm σ Hσ) | trivial]. Qed.

Lemma keeps_bind_any {A B} (m : action A) (f : A → action B) R :
  keeps σ0 m (λ _, True) → (∀ a, keeps σ0 (f a) R) → keeps σ0 (m ≫= f) R.
Proof. intros Hm Hf. apply (keeps_bind m f (λ _, True) R Hm). auto. Qed.

(** A new object takes a place that no earlier cell has. *)
Lemma keeps_alloc c : keeps σ0 (alloc c) (λ l, σ0 !! l = None).
Proof.
  intros σ Hσ. unfold alloc. simpl.
  assert (Hfresh : σ !! fresh (dom σ) = None)
    by (apply not_elem_of_dom, is_fresh).
  split.
  - etrans; [exact Hσ|]. now apply insert_subseteq.
  - intros l [= <-]. destruct (σ0 !! fresh (dom σ)) eqn:H0; [|reflexivity].
    apply (lookup_weaken _ _ _ _ H0) in Hσ. congruence.
Qed.

Lemma keeps_bind_alloc {B} c (f : nat → action B) R :
  (∀ l, σ0 !! l = None → keeps σ0 (f l) R) → keeps σ0 (alloc c ≫= f) R.
Proof. intros Hf. exact (keeps_bind _ f _ R (keeps_alloc c) Hf). Qed.

Lemma keeps_load l : keeps σ0 (load l) (λ _, True).
Proof. intros σ Hσ. split; [exact Hσ | trivial]. Qed.

Lemma keeps_eval {A} (r : result A) : keeps σ0 (eval r) (λ _, True).
Proof. intros σ Hσ. split; [exact Hσ | trivial]. Qed.

Lemma keeps_text w : keeps σ0 (text w) (λ _, True).
Proof. intros σ Hσ. split; [exact Hσ | trivial]. Qed.

(** Writing is harmless on a cell that was created after [σ0]. *)
Lemma keeps_write l c : σ0 !! l = None → keeps σ0 (write l c) (λ _, True).
Proof.
  intros Hl σ Hσ. split; [|trivial]. unfold write. simpl.
  apply map_subseteq_spec. intros i x Hi.
  rewrite lookup_insert_ne by congruence.
  exact (lookup_weaken _ _ _ _ Hi Hσ).
Qed.

Lemma keeps_alloc_any c : keeps σ0 (alloc c) (λ _, True).
Proof. exact (keeps_any _ _ (keeps_alloc c)). Qed.

End Frame.

Create HintDb frame.
#[export] Hint Resolve keeps_load keeps_eval keeps_text keeps_alloc_any : frame.

(** One step through the body of a function: a [bind] after an [alloc]
    records that the new place is outside [σ0]; any other [bind] asks
    that its first action keeps [σ0]. *)
Ltac frame_step :=
  lazymatch goal with
  | |- keeps _ (mbind _ (alloc _)) _ => apply keeps_bind_alloc; intros ? ?
  | |- keeps _ (mbind _ _) _ =>
      apply keeps_bind_any; [solve [eauto with frame] | intros ?]
  | |- keeps _ (mret _) _ => apply keeps_ret
  | |- keeps _ (match ?x with _ => _ end) _ => destruct x
  end.

Ltac frame := repeat frame_step; eauto with frame.

Section FrameOfFunctions.
Variable σ0 : gmap nat cell.

Lemma keeps_read_prop w k : keeps σ0 (read_prop w k) (λ _, True).
Proof. unfold read_prop. destruct w; frame. Qed.

Lemma keeps_or_fresh w c : keeps σ0 (or_fresh w c) (λ _, True).
Proof. unfold or_fresh. frame. Qed.

Lemma keeps_spread_entries w : keeps σ0 (spread_entries w) (λ _, True).
Proof. unfold spread_entries. destruct w; frame. Qed.

Lemma keeps_spread_array w : keeps σ0 (spread_array w) (λ _, True).
Proof.
  unfold spread_array. apply keeps_bind_any; [|intros items; frame].
  destruct w as [[]|]; frame.
Qed.

Lemma keeps_push l x : σ0 !! l = None → keeps σ0 (push l x) (λ _, True).
Proof. intros Hl. unfold push. frame. now apply keeps_write. Qed.

Lemma keeps_append l entry : σ0 !! l = None → keeps σ0 (append l entry) (λ _, True).
Proof. intros Hl. unfold append. frame. now apply keeps_write. Qed.

Lemma keeps_for_each f items :
  (∀ x, keeps σ0 (f x) (λ _, True)) → keeps σ0 (for_each f items) (λ _, True).
Proof.
  intros Hf. induction items as [|x items IH]; simpl.
  - now apply keeps_ret.
  - apply keeps_bind_any; [apply Hf | intros _; exact IH].
Qed.

Lemma keeps_filter_loop p names :
  (∀ x, keeps σ0 (p x) (λ _, True)) → keeps σ0 (filter_loop p names) (λ _, True).
Proof.
  intros Hp. induction names as [|x names IH]; simpl.
  - now apply keeps_ret.
  - apply keeps_bind_any; [apply Hp | intros keep].
    apply keeps_bind_any; [exact IH | intros kept]. now apply keeps_ret.
Qed.

Lemma keeps_map_loop f names :
  (∀ x, keeps σ0 (f x) (λ _, True)) → keeps σ0 (map_loop f names) (λ _, True).
Proof.
  intros Hf. induction names as [|x names IH]; simpl.
  - now apply keeps_ret.
  - apply keeps_bind_any; [apply Hf | intros y].
    apply keeps_bind_any; [exact IH | intros ys]. now apply keeps_ret.
Qed.

End FrameOfFunctions.

#[export] Hint Resolve keeps_read_prop keeps_or_fresh keeps_spread_entries
  keeps_spread_array keeps_push keeps_append : frame.

Section FrameOfRequests.
Variable σ0 : gmap nat cell.

Lemma keeps_object_keys w : keeps σ0 (object_keys w) (λ _, True).
Proof. unfold object_keys. frame. Qed.

Lemma keeps_filter_keys p names :
  (∀ x, keeps σ0 (p x) (λ _, True)) → keeps σ0 (filter_keys p names) (λ _, True).
Proof.
  intros Hp. unfold filter_keys.
  apply keeps_bind_any; [now apply keeps_filter_loop | intros kept]. frame.
Qed.

Lemma keeps_map_keys f names :
  (∀ x, keeps σ0 (f x) (λ _, True)) → keeps σ0 (map_keys f names) (λ _, True).
Proof.
  intros Hf. unfold map_keys.
  apply keeps_bind_any; [now apply keeps_map_loop | intros ys]. frame.
Qed.

Lemma keeps_join_literal sep xs : keeps σ0 (join_literal sep xs) (λ _, True).
Proof. unfold join_literal. frame. Qed.

Lemma keeps_base_url container platform :
  keeps σ0 (base_url container platform) (λ _, True).
Proof. unfold base_url. frame. Qed.

Lemma keeps_send_request_new url method payload headers progress :
  keeps σ0 (send_request url method payload headers progress) (λ l, σ0 !! l = None).
Proof. unfold send_request. apply keeps_alloc. Qed.

Lemma keeps_send_request url method payload headers progress :
  keeps σ0 (send_request url method payload headers progress) (λ _, True).
Proof. exact (keeps_any _ _ _ (keeps_send_request_new _ _ _ _ _)). Qed.

End FrameOfRequests.

#[export] Hint Resolve keeps_object_keys keeps_join_literal keeps_base_url
  keeps_send_request : frame.

(** Through a whole function body: loops by their lemmas, branches by
    cases, everything else by [frame_step]. *)
Ltac frame_body :=
  repeat lazymatch goal with
    | |- keeps _ (mbind _ (alloc _)) _ => apply keeps_bind_alloc; intros ? ?
    | |- keeps _ (mbind _ (send_request _ _ _ _ _)) _ =>
        eapply keeps_bind; [apply keeps_send_request_new | intros ? ?]
    | |- keeps _ (mbind _ (if ?b then _ else _)) _ => destruct b
    | |- keeps _ (mbind _ _) _ => apply keeps_bind_any; [|intros ?]
    | |- keeps _ (mret _) _ => apply keeps_ret
    | |- keeps _ (if ?b then _ else _) _ => destruct b
    | |- keeps _ (for_each _ _) _ => apply keeps_for_each; intros ?
    | |- keeps _ (filter_keys _ _) _ => apply keeps_filter_keys; intros ?
    | |- keeps _ (map_keys _ _) _ => apply keeps_map_keys; intros ?
    | |- keeps _ (push _ _) _ => apply keeps_push; assumption
    | |- keeps _ (append _ _) _ => apply keeps_append; assumption
    | |- keeps _ _ _ => solve [eauto with frame]
    end.

Section RequestsKeepTheStore.
Variable σ0 : gmap nat cell.

(** The body of [uploadFiles] writes only to the form and to the array
    it has created itself; the mapping it merges the directory into,
    its payload and its axios call are new objects. *)
Lemma keeps_uploadFiles props :
  keeps σ0 (uploadFiles_store props)
    (λ built, σ0 !! frame_uploadParams built = None
              ∧ σ0 !! frame_payload built = None
              ∧ σ0 !! frame_request built = None).
Proof.
  unfold uploadFiles_store. cbv zeta. frame_body; try exact I;
    simpl; destruct (word_is _ _); auto.
Qed.

Lemma keeps_getListFiles limit arg :
  keeps σ0 (getListFiles_store limit arg) (λ _, True).
Proof. unfold getListFiles_store. cbv zeta. frame_body; exact I. Qed.

Lemma keeps_searchFiles arg : keeps σ0 (searchFiles_store arg) (λ _, True).
Proof. unfold searchFiles_store. cbv zeta. frame_body; exact I. Qed.

Lemma keeps_generateTags url props language container platform key token :
  keeps σ0 (generateTags_store url props language container platform key token)
    (λ _, True).
Proof. unfold generateTags_store. cbv zeta. frame_body; exact I. Qed.

Lemma keeps_saveMetaData id properties arg :
  keeps σ0 (saveMetaData_store id properties arg) (λ _, True).
Proof. unfold saveMetaData_store. cbv zeta. frame_body; exact I. Qed.

Lemma keeps_updateProduct id product arg :
  keeps σ0 (updateProduct_store id product arg) (λ _, True).
Proof. unfold updateProduct_store. cbv zeta. frame_body; exact I. Qed.

Lemma keeps_getTokenSettings arg : keeps σ0 (getTokenSettings_store arg) (λ _, True).
Proof. unfold getTokenSettings_store. cbv zeta. frame_body; exact I. Qed.

End RequestsKeepTheStore.

(** ** The configuration is not written to *)

Section ConfigUnchanged.
Variable σ : gmap nat cell.

Lemma kept_cell {A} (m : action A) Q l c :
  keeps σ m Q → σ !! l = Some c → (m σ).2 !! l = Some c.
Proof.
  intros Hm Hl. destruct (Hm σ) as [Hsub _]; [reflexivity|].
  exact (lookup_weaken _ _ _ _ Hl Hsub).
Qed.

(** C8. Whatever object is in the store when a request function is
    called, the configuration object and its [uploadParams] mapping
    among them, is the same afterwards: [uploadFiles] merges the
    directory override into a mapping that did not exist before, and no
    request function writes to an object of its caller. *)
Theorem config_left_unchanged l c :
  σ !! l = Some c →
  (∀ props,
     (uploadFiles_store props σ).2 !! l = Some c
     ∧ ∀ built, (uploadFiles_store props σ).1 = Ok built →
                σ !! frame_uploadParams built = None
                ∧ frame_uploadParams built ≠ l)
  ∧ (∀ limit arg, (getListFiles_store limit arg σ).2 !! l = Some c)
  ∧ (∀ arg, (searchFiles_store arg σ).2 !! l = Some c)
  ∧ (∀ url props language container platform key token,
       (generateTags_store url props language container platform key token σ).2 !! l
       = Some c)
  ∧ (∀ id properties arg, (saveMetaData_store id properties arg σ).2 !! l = Some c)
  ∧ (∀ id product arg, (updateProduct_store id product arg σ).2 !! l = Some c)
  ∧ (∀ arg, (getTokenSettings_store arg σ).2 !! l = Some c).
Proof.
  intros Hl. split; [|repeat split].
  - intros props. split.
    + exact (kept_cell _ _ l c (keeps_uploadFiles σ props) Hl).
    + intros built Hbuilt.
      destruct (keeps_uploadFiles σ props σ) as [_ Hnew]; [reflexivity|].
      destruct (Hnew built Hbuilt) as [Hnone _].
      split; [exact Hnone | congruence].
  - intros limit arg. exact (kept_cell _ _ l c (keeps_getListFiles σ limit arg) Hl).
  - intros arg. exact (kept_cell _ _ l c (keeps_searchFiles σ arg) Hl).
  - intros url props language container platform key token.
    exact (kept_cell _ _ l c
             (keeps_generateTags σ url props language container platform key token) Hl).
  - intros id properties arg.
    exact (kept_cell _ _ l c (keeps_saveMetaData σ id properties arg) Hl).
  - intros id product arg.
    exact (kept_cell _ _ l c (keeps_updateProduct σ id product arg) Hl).
  - intros arg. exact (kept_cell _ _ l c (keeps_getTokenSettings σ arg) Hl).
Qed.

End ConfigUnchanged.

(** ** The two models of [uploadFiles] build the same URL *)

Section Agreement.
Implicit Types (σ : gmap nat cell) (ps : list (string * value)).

Lemma after_ret {A} (a : A) Q σ : Q a σ → after (mret a) Q σ.
Proof. intros H. exact H. Qed.

Lemma after_bind {A B} (m : action A) (f : A → action B) Q σ :
  after m (λ a σ', after (f a) Q σ') σ → after (m ≫= f) Q σ.
Proof.
  unfold after, mbind, action_bind. destruct (m σ) as [[a|e] σ']; auto.
Qed.

Lemma after_bind_any {A B} (m : action A) (f : A → action B) Q σ :
  (∀ a σ', after (f a) Q σ') → after (m ≫= f) Q σ.
Proof.
  intros H. apply after_bind. unfold after at 1.
  destruct (m σ) as [[a|e] σ']; auto.
Qed.

(** An action that keeps the store ends in a larger store. *)
Lemma after_keeps {A} (m : action A) P (Q : A → gmap nat cell → Prop) σ :
  keeps σ m P → (∀ a σ', σ ⊆ σ' → P a → Q a σ') → after m Q σ.
Proof.
  intros Hm HQ. destruct (Hm σ) as [Hsub HP]; [reflexivity|].
  unfold after. destruct (m σ) as [[a|e] σ']; simpl in *; auto.
Qed.

Lemma after_alloc c (Q : nat → gmap nat cell → Prop) σ :
  (∀ l, σ !! l = None → Q l (<[l:=c]> σ)) → after (alloc c) Q σ.
Proof. intros H. apply H. apply not_elem_of_dom, is_fresh. Qed.

Lemma after_read_prop l k props (Q : word → gmap nat cell → Prop) σ :
  σ !! l = Some (ObjCell props) → Q (word_at k props) σ →
  after (read_prop (Ref l) k) Q σ.
Proof.
  intros Hl HQ. unfold after, read_prop, mbind, action_bind, load. simpl.
  rewrite Hl. exact HQ.
Qed.

Lemma after_spread_entries l props (Q : list (string * word) → gmap nat cell → Prop) σ :
  σ !! l = Some (ObjCell props) → Q props σ → after (spread_entries (Ref l)) Q σ.
Proof.
  intros Hl HQ. unfold after, spread_entries, mbind, action_bind, load. simpl.
  rewrite Hl. exact HQ.
Qed.

Lemma insert_new_lookup σ l l' c c' :
  σ !! l = None → σ !! l' = Some c' → <[l:=c]> σ !! l' = Some c'.
Proof. intros Hl Hl'. rewrite lookup_insert_ne by congruence. exact Hl'. Qed.

Lemma word_at_as_words k ps : word_at k (as_words ps) = Prim (prop k ps).
Proof.
  unfold word_at, prop, as_words. induction ps as [|[k' v] ps IH]; simpl.
  - reflexivity.
  - destruct (String.eqb k k'); [reflexivity | exact IH].
Qed.

Lemma set_prop_as_words ps k v :
  set_prop (as_words ps) k (Prim v) = as_words (set_prop ps k v).
Proof.
  unfold as_words. induction ps as [|[k' v'] ps IH]; simpl.
  - reflexivity.
  - destruct (String.eqb k k'); simpl; [reflexivity | now rewrite IH].
Qed.

Lemma assign_as_words acc ps :
  assign (as_words acc) (as_words ps) = as_words (assign acc ps).
Proof.
  unfold assign. revert acc. induction ps as [|[k v] ps IH]; intros acc; simpl.
  - reflexivity.
  - rewrite set_prop_as_words. apply IH.
Qed.

Lemma map_fst_as_words ps : map fst (as_words ps) = map fst ps.
Proof. unfold as_words. rewrite map_map. reflexivity. Qed.

Lemma after_text v (Q : string → gmap nat cell → Prop) σ :
  Q (to_string v) σ → after (text (Prim v)) Q σ.
Proof. intros H. exact H. Qed.

Lemma after_array {A} (xs : list string) (k : action A) Q σ :
  (∀ σ', σ ⊆ σ' → after k Q σ') → after (alloc (strings_array xs) ≫= λ _, k) Q σ.
Proof.
  intros H. apply after_bind, after_alloc. intros l Hl. apply H.
  now apply insert_subseteq.
Qed.

(** The filter and the map of lines 60-63 read the merged mapping and
    nothing else. *)
Lemma filter_loop_reads l props names σ :
  σ !! l = Some (ObjCell props) →
  filter_loop (λ paramName,
      v ← read_prop (Ref l) paramName; mret (negb (word_is v Null))) names σ
  = (Ok (List.filter (λ k, negb (word_is (word_at k props) Null)) names), σ).
Proof.
  intros Hl. set (p := λ paramName : string, _).
  assert (Hp : ∀ x, p x σ = (Ok (negb (word_is (word_at x props) Null)), σ)).
  { intros x. unfold p, read_prop, mbind, action_bind, load. now rewrite Hl. }
  clearbody p. induction names as [|x names IH]; [reflexivity|].
  cbn [filter_loop List.filter]. unfold mbind, action_bind.
  rewrite Hp, IH. now destruct (negb _).
Qed.

Lemma map_loop_reads l ps names σ :
  σ !! l = Some (ObjCell (as_words ps)) →
  map_loop (λ paramName,
      v ← read_prop (Ref l) paramName;
      t ← text v;
      mret (paramName +:+ "=" +:+ t)) names σ
  = (Ok (map (λ k, k +:+ "=" +:+ to_string (prop k ps)) names), σ).
Proof.
  intros Hl. set (f := λ paramName : string, _).
  assert (Hf : ∀ x, f x σ = (Ok (x +:+ "=" +:+ to_string (prop x ps)), σ)).
  { intros x. unfold f, read_prop, mbind, action_bind, load. rewrite Hl.
    fold (word_at x (as_words ps)). rewrite word_at_as_words. reflexivity. }
  clearbody f. induction names as [|x names IH]; [reflexivity|].
  cbn [map_loop map]. unfold mbind, action_bind.
  now rewrite Hf, IH.
Qed.

Lemma after_eq {A} (m : action A) a σ σ' (Q : A → gmap nat cell → Prop) :
  m σ = (Ok a, σ') → Q a σ' → after m Q σ.
Proof. intros Hm HQ. unfold after. now rewrite Hm. Qed.

Lemma after_dir u ps dir (Q : word → gmap nat cell → Prop) σ :
  σ !! u = Some (ObjCell (as_words ps)) →
  Q (Prim (js_or dir (prop "dir" ps))) σ →
  after (if word_truthy (Prim dir) then mret (Prim dir) else read_prop (Ref u) "dir") Q σ.
Proof.
  intros Hu HQ. unfold js_or in HQ. simpl word_truthy.
  destruct (truthy dir).
  - now apply after_ret.
  - apply (after_read_prop u "dir" (as_words ps)); [exact Hu|].
    now rewrite word_at_as_words.
Qed.

Lemma merged_as_words ps d :
  NoDup (map fst ps) →
  assign (assign [] (as_words ps)) [("dir", Prim d)] = as_words (set_prop ps "dir" d).
Proof.
  intros Hnd.
  pose proof (assign_as_words [] ps) as Hown.
  change (as_words []) with (@nil (string * word)) in Hown.
  rewrite Hown, (assign_fresh ps Hnd).
  exact (assign_as_words ps [("dir", d)]).
Qed.

Lemma word_default_prim v d : word_default (Prim v) (Prim d) = Prim (or_default v d).
Proof. now destruct v. Qed.

Lemma word_or_prim a b : word_or (Prim a) (Prim b) = Prim (js_or a b).
Proof. unfold word_or, js_or. simpl. now destruct (truthy a). Qed.

(** The cells of the caller, seen from a store that has grown. *)
Ltac grown Hsub :=
  repeat match goal with
    | H : ?σ !! ?l = Some ?c, Hsub : ?σ ⊆ ?σ' |- _ =>
        apply (λ H, lookup_weaken σ σ' l c H Hsub) in H
    end.

(** Through an allocation: the new cell is at [l], and the cells known
    so far are still there. *)
Ltac allocated l Hl :=
  apply after_bind, after_alloc; intros l Hl;
  repeat match goal with
    | H : ?σ !! ?l' = Some ?c |- context [<[l:=?new]> ?σ] =>
        apply (insert_new_lookup σ l l' new c Hl) in H
    end;
  match goal with
  | |- context [<[l:=?new]> ?σ] =>
      pose proof (lookup_insert_eq σ l new) as Hl';
      let σ' := fresh "σ" in
      set (σ' := <[l:=new]> σ) in *; clearbody σ'; clear Hl; rename Hl' into Hl
  end.

Lemma uploadFiles_store_after σ p c u props config ps path dir :
  σ !! p = Some (ObjCell props) →
  word_at "config" props = Ref c →
  σ !! c = Some (ObjCell config) →
  word_at "uploadParams" config = Ref u →
  σ !! u = Some (ObjCell (as_words ps)) →
  word_at "uploadPath" config = Prim path →
  word_at "dir" props = Prim dir →
  NoDup (map fst ps) →
  after (uploadFiles_store (Ref p))
    (λ built _,
       frame_url built
       = Prim (upload_url (or_default path (Str "")) (params_string (with_dir ps dir))))
    σ.
Proof.
  intros Hp Hconfig Hc Hparams Hu Hpath Hdir Hnd.
  unfold uploadFiles_store. cbv zeta.
  apply after_bind, (after_read_prop p "files" props); [exact Hp|].
  apply after_bind, (after_keeps _ _ _ _ (keeps_or_fresh σ _ _)).
  intros files σ1 Hsub _. grown Hsub. clear Hsub σ.
  apply after_bind, (after_read_prop p "config" props); [exact Hp|].
  rewrite Hconfig. apply after_bind, after_ret.
  apply after_bind, (after_read_prop c "platform" config); [exact Hc|].
  apply after_bind, (after_read_prop c "uploadPath" config); [exact Hc|].
  apply after_bind, (after_read_prop c "uploadParams" config); [exact Hc|].
  rewrite Hparams, Hpath. apply after_bind, after_ret.
  apply after_bind, (after_read_prop c "uploadKey" config); [exact Hc|].
  apply after_bind, (after_read_prop c "onUploadProgress" config); [exact Hc|].
  apply after_bind, (after_read_prop p "data_type" props); [exact Hp|].
  apply after_bind, (after_read_prop p "dir" props); [exact Hp|].
  apply after_bind, (after_read_prop p "showAlert" props); [exact Hp|].
  rewrite Hdir.
  allocated ajaxData Hajax.
  allocated files_urls Hurls.
  allocated jsonData Hjson.
  apply after_bind, (after_dir u ps dir); [exact Hu|].
  allocated override Hoverride.
  apply after_bind, (after_spread_entries u (as_words ps)); [exact Hu|].
  apply after_bind, (after_spread_entries override [("dir", Prim (js_or dir (prop "dir" ps)))]);
    [exact Hoverride|].
  rewrite (merged_as_words ps _ Hnd). fold (with_dir ps dir).
  allocated merged Hmerged.
  apply after_bind. unfold object_keys.
  apply after_bind, (after_spread_entries merged (as_words (with_dir ps dir)));
    [exact Hmerged|].
  allocated keys Hkeys. apply after_ret.
  apply after_bind. unfold filter_keys.
  apply after_bind,
    (after_eq _ _ _ _ _ (filter_loop_reads merged _ _ _ Hmerged)).
  allocated kept Hkept. apply after_ret.
  apply after_bind. unfold map_keys.
  apply after_bind,
    (after_eq _ _ _ _ _ (map_loop_reads merged _ _ _ Hmerged)).
  allocated pairs Hpairs. apply after_ret.
  rewrite word_default_prim, word_or_prim, map_fst_as_words.
  assert (Hquery :
    join "&"
      (map (λ k, k +:+ "=" +:+ to_string (prop k (with_dir ps dir)))
         (List.filter (λ k, negb (word_is (word_at k (as_words (with_dir ps dir))) Null))
            (map fst (with_dir ps dir))))
    = params_string (with_dir ps dir)).
  { unfold params_string. do 2 f_equal. apply filter_ext. intros k.
    now rewrite word_at_as_words. }
  rewrite Hquery.
  apply after_bind.
  unfold upload_url. cbv zeta.
  destruct (truthy (Str (params_string (with_dir ps dir)))).
  - apply after_bind, after_text, after_ret.
    apply after_bind_any. intros _ ?.
    apply after_bind_any. intros headers ?.
    apply after_bind_any. intros request ?.
    now apply after_ret.
  - apply after_ret.
    apply after_bind_any. intros _ ?.
    apply after_bind_any. intros headers ?.
    apply after_bind_any. intros request ?.
    now apply after_ret.
Qed.

(** When the objects of the call are in the store, with data in the
    parameter mapping, the body of [uploadFiles] builds there the URL
    that [uploadFiles] gives for the same call. *)
Theorem uploadFiles_store_url D R σ p c u props config ps dir built σ'
    files cfg data_type :
  σ !! p = Some (ObjCell props) →
  word_at "config" props = Ref c →
  σ !! c = Some (ObjCell config) →
  word_at "uploadParams" config = Ref u →
  σ !! u = Some (ObjCell (as_words ps)) →
  word_at "uploadPath" config = Prim (prop "uploadPath" cfg) →
  word_at "dir" props = Prim dir →
  prop "uploadParams" cfg = Obj ps →
  NoDup (map fst ps) →
  uploadFiles_store (Ref p) σ = (Ok built, σ') →
  ∃ req promise,
    uploadFiles D R (upload_call files cfg data_type dir) = Ok (req, promise)
    ∧ frame_url built = Prim (url req).
Proof.
  intros Hp Hconfig Hc Hparams Hu Hpath Hdir Hcfg Hnd Hrun.
  destruct (uploadFiles_returns D R files cfg data_type dir (with_dir ps dir))
    as (req & Hcall & Hurl).
  { rewrite Hcfg. now apply merge_dir_object. }
  exists req. eexists. split; [exact Hcall|]. rewrite Hurl.
  pose proof (uploadFiles_store_after σ p c u props config ps _ dir
                Hp Hconfig Hc Hparams Hu Hpath Hdir Hnd) as Hafter.
  unfold after in Hafter. now rewrite Hrun in Hafter.
Qed.

End Agreement.

(** ** The properties at sample inputs *)

Section Samples.
Local Abbreviation D := sample_DUPLICATE_CODE.
Local Abbreviation R := sample_REPLACING_DATA_CODE.
Local Abbreviation two_files :=
  [("status", Str "success");
   ("files", Arr [Obj [("id", Num 1)]; Obj [("id", Num 2)]]);
   ("upload", Obj [("state", D)])].
Local Abbreviation failure :=
  [("status", Str "error"); ("msg", Str "bad"); ("hint", Str "retry")].

Lemma upload_query_string_witness :
  ∃ req p,
    uploadFiles D R (sample_upload [("dir", Null); ("tag", Str "x")]) = Ok (req, p)
    ∧ url req = Str "//demo.api.airstore.io/upload?tag=x".
Proof.
  apply (upload_query_string D R [[("name", Str "a.png")]]
           (sample_config [("dir", Null); ("tag", Str "x")])
           [("dir", Null); ("tag", Str "x")]
           "//demo.api.airstore.io/upload" Undefined Undefined).
  - reflexivity.
  - apply (bool_decide_unpack _). vm_compute. exact I.
  - reflexivity.
  - reflexivity.
  - reflexivity.
  - reflexivity.
Defined.

(** Keys and values go into the query as they are: no encoding. *)
Example upload_query_not_encoded :
  ∃ req p,
    uploadFiles D R (sample_upload [("dir", Str "my photos"); ("q", Str "a&b=c")])
    = Ok (req, p)
    ∧ url req = Str "//demo.api.airstore.io/upload?dir=my photos&q=a&b=c".
Proof. eexists _, _. split; reflexivity. Qed.

Lemma upload_dir_undefined_witness :
  ∃ req p,
    uploadFiles D R (sample_upload [("tag", Str "x")]) = Ok (req, p)
    ∧ url req = Str "//demo.api.airstore.io/upload?tag=x&dir=undefined".
Proof.
  destruct (upload_dir_undefined D R [[("name", Str "a.png")]]
              (sample_config [("tag", Str "x")]) [("tag", Str "x")]
              "//demo.api.airstore.io/upload" Undefined Undefined)
    as (req & p & u & Hcall & Hurl & _ & Habsent & _).
  - reflexivity.
  - apply (bool_decide_unpack _). vm_compute. exact I.
  - reflexivity.
  - reflexivity.
  - reflexivity.
  - reflexivity.
  - exists req, p. split; [exact Hcall|]. rewrite Hurl.
    destruct (Habsent eq_refl) as (_ & -> & _). reflexivity.
Defined.

(** The second example of the specification: two files, and an upload
    state that is the duplicate code. *)
Lemma upload_success_result_witness :
  ∃ req p,
    uploadFiles D R (sample_upload []) = Ok (req, p)
    ∧ p (received (Obj two_files))
      = ended (Fulfilled (Arr [Arr [Obj [("id", Num 1)]; Obj [("id", Num 2)]];
                               Bool true; Bool false])) []
    ∧ ∃ text,
        p (received (Obj [("status", Str "success"); ("file", Obj [("id", Num 1)]);
                          ("upload", Null)]))
        = ended (Rejected (type_error text)) [[Str ""; Str text; Str "error"]].
Proof.
  eexists _, _. split; [reflexivity|]. split.
  - refine (proj2 (proj1 (upload_success_result D R (sample_upload []) _ _
                            (received (Obj two_files)) two_files
                            eq_refl eq_refl eq_refl) _)
              eq_refl _ eq_refl eq_refl).
    discriminate.
  - destruct (proj2 (proj2 (upload_success_result D R (sample_upload []) _ _
                              (received (Obj [("status", Str "success");
                                              ("file", Obj [("id", Num 1)]);
                                              ("upload", Null)]))
                              [("status", Str "success"); ("file", Obj [("id", Num 1)]);
                               ("upload", Null)]
                              eq_refl eq_refl eq_refl)) eq_refl)
      as [text [Hcallable _]].
    exists text. exact (Hcallable eq_refl).
Defined.

(** The first example: a single file, no [upload] field. *)
Example upload_single_file :
  ∃ req p,
    uploadFiles D R (sample_upload []) = Ok (req, p)
    ∧ p (received (Obj [("status", Str "success"); ("file", Obj [("id", Num 1)])]))
      = ended (Fulfilled (Arr [Arr [Obj [("id", Num 1)]]; Bool false; Bool false])) [].
Proof. eexists _, _. split; reflexivity. Qed.

(** A [null] upload field: reading [upload.state] throws, and the
    promise rejects although the status is a success and a file is
    there; when [showAlert] is not a function it does not even settle. *)
Lemma upload_success_counterexample :
  let response := Obj [("status", Str "success");
                       ("file", Obj [("id", Num 1)]);
                       ("upload", Null)] in
  (∃ req p e,
     uploadFiles D R (sample_upload []) = Ok (req, p)
     ∧ settled (p (received response)) = Some (Rejected e))
  ∧ (∃ req p,
       uploadFiles D R
         {| props_files := Arr []; props_config := Obj (sample_config []);
            props_data_type := Undefined; props_dir := Undefined;
            props_showAlert := NotCallable |} = Ok (req, p)
       ∧ p (received response) = pending).
Proof.
  split.
  - eexists _, _, _. split; reflexivity.
  - eexists _, _. split; reflexivity.
Qed.

(** Presence is tested by truthiness: a [file] that holds [null] is
    passed over for [files]. *)
Example upload_null_file :
  ∃ req p,
    uploadFiles D R (sample_upload []) = Ok (req, p)
    ∧ settled (p (received (Obj [("status", Str "success");
                                 ("file", Null);
                                 ("files", Arr [Obj [("id", Num 2)]])])))
      = Some (Fulfilled (Arr [Arr [Obj [("id", Num 2)]]; Bool false; Bool false])).
Proof. eexists _, _. split; reflexivity. Qed.

Lemma upload_error_rejects_witness :
  ∃ req p,
    uploadFiles D R (sample_upload []) = Ok (req, p)
    ∧ p (received (Obj failure))
      = ended (Rejected (new_Error "bad retry")) [[Str ""; Str "bad retry"; Str "error"]].
Proof.
  eexists _, _. split; [reflexivity|].
  refine (proj1 (proj1 (upload_error_rejects D R (sample_upload []) _ _
                          (received (Obj failure)) failure
                          eq_refl eq_refl eq_refl eq_refl eq_refl) _) eq_refl).
  discriminate.
Defined.

(** An error response with a [null] upload field: the rejection is the
    [TypeError] of reading [upload.state], and its message has neither
    the [msg] nor the [hint] of the server. Without a function to alert
    with, an error response does not settle the promise at all. *)
Lemma upload_error_counterexample :
  (∃ req p,
     uploadFiles D R (sample_upload []) = Ok (req, p)
     ∧ p (received (Obj [("status", Str "error"); ("msg", Str "quota exceeded");
                         ("hint", Str "delete some files"); ("upload", Null)]))
       = ended (Rejected (type_error "Cannot read properties of null (reading 'state')"))
           [[Str ""; Str "Cannot read properties of null (reading 'state')"; Str "error"]])
  ∧ (∃ req p,
       uploadFiles D R
         {| props_files := Arr []; props_config := Obj (sample_config []);
            props_data_type := Undefined; props_dir := Undefined;
            props_showAlert := NotCallable |} = Ok (req, p)
       ∧ p (received (Obj failure)) = pending).
Proof.
  split.
  - eexists _, _. split; reflexivity.
  - eexists _, _. split; reflexivity.
Qed.

(** A transport failure whose payload has a code and a list of
    messages, and an error response of the server. *)
Lemma upload_rejection_alert_witness :
  ∃ req p,
    uploadFiles D R (sample_upload []) = Ok (req, p)
    ∧ (let error := Obj [("message", Str "Request failed with status code 403");
                         ("response",
                          Obj [("status", Num 403);
                               ("data", Obj [("code", Str "KEY_INVALID");
                                             ("msg", Arr [Str "bad key"; Str "ask the owner"])])])] in
       p (Rejected error)
       = ended (Rejected error)
           [[Str ""; Str "KEY_INVALID: bad key, ask the owner"; Str "error"]])
    ∧ p (received (Obj failure))
      = ended (Rejected (new_Error "bad retry")) [[Str ""; Str "bad retry"; Str "error"]].
Proof.
  eexists _, _. split; [reflexivity|]. split.
  - intros error.
    refine (proj1 (upload_rejection_alert D R (sample_upload []) _ _ (Rejected error) error
                     eq_refl eq_refl _ _ _ eq_refl eq_refl)
              (or_introl eq_refl)); try discriminate.
  - assert (Hupload : prop "upload" failure ≠ Null) by discriminate.
    destruct (upload_rejection_alert D R (sample_upload []) _ _
                (received (Obj failure)) (new_Error "bad retry")
                eq_refl eq_refl) as (Halert & _ & Hthrown); try discriminate.
    + reflexivity.
    + reflexivity.
    + destruct (Hthrown failure eq_refl eq_refl Hupload eq_refl eq_refl eq_refl)
        as [Hhandled Htext].
      rewrite (Halert Hhandled), Htext. reflexivity.
Defined.

(** Rejections that go another way. An error whose payload [msg] is an
    object with a truthy [join] of its own makes the handler throw before
    the alert: nothing is shown and the promise stays pending, as it does
    for a [null] error. A rejection with [undefined] is replaced by an
    empty object, and the promise rejects with that object. *)
Lemma upload_rejection_counterexample :
  ∃ req p,
    uploadFiles D R (sample_upload []) = Ok (req, p)
    ∧ p (Rejected (Obj [("message", Str "Request failed with status code 400");
                        ("response",
                         Obj [("data", Obj [("code", Str "E");
                                            ("msg", Obj [("join", Num 1)])])])]))
      = pending
    ∧ p (Rejected Null) = pending
    ∧ p (Rejected Undefined) = ended (Rejected (Obj [])) [[Str ""; Undefined; Str "error"]].
Proof. eexists _, _. repeat split; reflexivity. Qed.

(** Without a payload the alert shows the message of the error. *)
Example upload_network_error :
  ∃ req p,
    uploadFiles D R (sample_upload []) = Ok (req, p)
    ∧ p (Rejected (Obj [("message", Str "Network Error")]))
      = ended (Rejected (Obj [("message", Str "Network Error")]))
          [[Str ""; Str "Network Error"; Str "error"]].
Proof. eexists _, _. split; reflexivity. Qed.

Lemma upload_unexpected_shape_witness :
  ∃ req p,
    uploadFiles D R (sample_upload []) = Ok (req, p)
    ∧ p (received (Obj [("status", Str "pending")]))
      = ended (Rejected (Obj [("status", Str "pending")])) [].
Proof.
  eexists _, _. split; [reflexivity|].
  refine (proj1 (upload_unexpected_shape D R (sample_upload []) _ _
                   (received (Obj [("status", Str "pending")]))
                   [("status", Str "pending")] eq_refl eq_refl _)
            (or_introl (conj eq_refl eq_refl))).
  discriminate.
Defined.

(** A response with no status, no file and no files matches none of
    the three patterns, and yet the promise resolves, with the empty
    list; so does a bare success. *)
Lemma upload_unexpected_shape_counterexample :
  ∃ req p,
    uploadFiles D R (sample_upload []) = Ok (req, p)
    ∧ p (received (Obj []))
      = ended (Fulfilled (Arr [Arr []; Bool false; Bool false])) []
    ∧ p (received (Obj [("status", Str "success")]))
      = ended (Fulfilled (Arr [Arr []; Bool false; Bool false])) [].
Proof. eexists _, _. split; [reflexivity|]. split; reflexivity. Qed.

Local Abbreviation LIMIT := sample_GALLERY_IMAGES_LIMIT.
Local Abbreviation photos :=
  [("dir", Str "photos"); ("offset", Num 0); ("container", Str "demo");
   ("uploadKey", Str "key")].
Local Abbreviation listing :=
  [("files", Arr [Obj [("id", Num 1)]]);
   ("directories", Arr [Str "2019"]);
   ("current_directory", Obj [("files_count", Num 1)])].

Lemma list_request_witness :
  ∃ req p,
    getListFiles LIMIT (Obj photos) = Ok (req, p)
    ∧ url req = Str "https://api.filerobot.com/demo/v3/list?dir=photos&offset=0&limit=100"
    ∧ p (received (Obj listing))
      = Fulfilled (Arr [Arr [Obj [("id", Num 1)]]; Arr [Str "2019"]; Num 1]).
Proof.
  destruct (list_request LIMIT photos "photos")
    as (req & p & u & Hcall & _ & Hurl & -> & _ & Hthen).
  - reflexivity.
  - discriminate.
  - reflexivity.
  - reflexivity.
  - reflexivity.
  - exists req, p. split; [exact Hcall|]. split; [exact Hurl|].
    exact (Hthen (received (Obj listing)) listing [("files_count", Num 1)]
             eq_refl eq_refl).
Defined.

(** Without a [current_directory] the count is [undefined]. *)
Example list_without_current_directory :
  ∃ req p,
    getListFiles LIMIT (Obj photos) = Ok (req, p)
    ∧ p (received (Obj [("files", Arr []); ("directories", Arr [])]))
      = Fulfilled (Arr [Arr []; Arr []; Undefined]).
Proof. eexists _, _. split; reflexivity. Qed.

Lemma offset_defaults_witness :
  (∃ req p,
     searchFiles (Obj [("query", Str "cat"); ("container", Str "demo")]) = Ok (req, p)
     ∧ url req = Str "https://api.filerobot.com/demo/v3/search?q=cat&offset=0")
  ∧ (∃ req p,
       getListFiles LIMIT (Obj [("query", Str "cat"); ("container", Str "demo")])
       = Ok (req, p)
       ∧ url req = Str "https://api.filerobot.com/demo/v3/list?&offset=undefined&limit=100").
Proof.
  destruct (offset_defaults LIMIT [("query", Str "cat"); ("container", Str "demo")])
    as [(req & p & u & Hcall & Hurl & -> & _) (req' & p' & u' & Hcall' & Hurl' & -> & _)].
  - reflexivity.
  - split; [exists req, p | exists req', p']; split; assumption.
Defined.

Lemma token_settings_result_witness :
  ∃ req p,
    getTokenSettings (Obj [("container", Str "demo"); ("uploadKey", Str "key")])
    = Ok (req, p)
    ∧ p (received (Obj [("settings", Obj [("_products_enabled", Num 1)])]))
      = Fulfilled (Obj [("productsEnabled", Bool true)])
    ∧ p (received (Obj [("settings", Obj [("_products_enabled", Num 0)])]))
      = Fulfilled (Obj [("productsEnabled", Bool false)])
    ∧ p (received (Obj [("settings", Obj [("_products_enabled", Str "1")])]))
      = Fulfilled (Obj [("productsEnabled", Bool false)])
    ∧ p (received (Obj []))
      = Fulfilled (Obj [("productsEnabled", Bool false)]).
Proof.
  destruct (token_settings_result [("container", Str "demo"); ("uploadKey", Str "key")])
    as (req & p & Hcall & Hthen).
  exists req, p. split; [exact Hcall|].
  repeat split;
    match goal with
    | |- p (received ?body) = _ =>
        refine (proj1 (Hthen (received body) body eq_refl _ _)); discriminate
    end.
Defined.

(** A [null] in the place of the settings: the handler throws, and the
    promise rejects instead of resolving with [false]. *)
Lemma token_settings_counterexample :
  ∃ req p e,
    getTokenSettings (Obj [("container", Str "demo"); ("uploadKey", Str "key")])
    = Ok (req, p)
    ∧ p (received (Obj [("settings", Null)])) = Rejected e.
Proof. eexists _, _, _. split; reflexivity. Qed.

(** In the sample store the configuration is at 1 and its parameter
    mapping at 2; an upload leaves both as they were, and merges into a
    new object. *)
Lemma config_left_unchanged_witness :
  (uploadFiles_store (Ref 0) sample_store).2 !! 1%nat = sample_store !! 1%nat
  ∧ (uploadFiles_store (Ref 0) sample_store).2 !! 2%nat
    = Some (ObjCell [("dir", Prim Null); ("tag", Prim (Str "x"))]).
Proof.
  split.
  - refine (proj1 (proj1 (config_left_unchanged sample_store 1 _ _) (Ref 0))).
    vm_compute. reflexivity.
  - refine (proj1 (proj1 (config_left_unchanged sample_store 2 _ _) (Ref 0))).
    vm_compute. reflexivity.
Defined.

Example upload_in_sample_store :
  ∃ built σ',
    uploadFiles_store (Ref 0) sample_store = (Ok built, σ')
    ∧ frame_url built = Prim (Str "//demo.api.airstore.io/upload?tag=x")
    ∧ sample_store !! frame_uploadParams built = None
    ∧ σ' !! frame_uploadParams built
      = Some (ObjCell [("dir", Prim Null); ("tag", Prim (Str "x"))])
    ∧ σ' !! frame_payload built
      = Some (FormCell [("files[]", Ref 4, Prim (Str "a.png"))]).
Proof. eexists _, _. split; [vm_compute; reflexivity|]. vm_compute. auto. Qed.

(** The two models on the same call: the sample store holds the call of
    [sample_upload], and both build the same URL. *)
Example models_agree_in_sample_store :
  ∀ built σ',
    uploadFiles_store (Ref 0) sample_store = (Ok built, σ') →
    ∃ req promise,
      uploadFiles D R (sample_upload [("dir", Null); ("tag", Str "x")]) = Ok (req, promise)
      ∧ frame_url built = Prim (url req).
Proof.
  intros built σ' Hrun.
  refine (uploadFiles_store_url D R sample_store 0 1 2 _ _
            [("dir", Null); ("tag", Str "x")] Undefined built σ'
            [[("name", Str "a.png")]]
            (sample_config [("dir", Null); ("tag", Str "x")]) Undefined
            _ _ _ _ _ _ _ _ _ Hrun);
    try (vm_compute; reflexivity).
  apply (bool_decide_unpack _). vm_compute. exact I.
Qed.

End Samples.

(** * Further properties of the request layer *)

(** ** The platform, the transport and the plain handlers *)

Section Transport.
Implicit Types (container platform response v e : value) (reply : settlement).

(** X1. [getBaseUrl] and [getSecretHeaderName] read the platform the
    same way, so the endpoint and the header always go together: a
    missing platform or ['filerobot'] gives the Filerobot URL and
    [X-Filerobot-Key]; any other value, [null] included since a default
    replaces [undefined] only, gives the Airstore URL and
    [X-Airstore-Secret-Key]. *)
Theorem platform_selects_endpoint container platform :
  ((platform = Undefined ∨ platform = Str "filerobot")
   ∧ getBaseUrl container platform
     = "https://api.filerobot.com/" +:+ to_string container +:+ "/v3/"
   ∧ getSecretHeaderName platform = "X-Filerobot-Key")
  ∨ ((platform ≠ Undefined ∧ platform ≠ Str "filerobot")
     ∧ getBaseUrl container platform
       = "https://" +:+ to_string container +:+ ".api.airstore.io/v1/"
     ∧ getSecretHeaderName platform = "X-Airstore-Secret-Key").
Proof.
  unfold getBaseUrl, getSecretHeaderName.
  destruct (is_filerobot platform) eqn:H.
  - left. apply is_filerobot_iff in H. auto.
  - right. split; [|auto]. split; intros ->; discriminate.
Qed.

(** X2. [send] delivers the [data] of the axios response and never
    [undefined]: a response without [data] gives [{}], while a [null]
    [data] stays [null]. It rejects only with the error axios rejected
    with, or when what axios delivered is [null] or [undefined]. *)
Theorem send_settlement reply :
  match send reply with
  | Fulfilled v =>
      v ≠ Undefined
      ∧ ∃ response,
          reply = Fulfilled response
          ∧ v = or_default (field response "data") (Obj [])
          ∧ (field response "data" = Null → v = Null)
  | Rejected e =>
      reply = Rejected e
      ∨ ∃ response, reply = Fulfilled response ∧ (response = Null ∨ response = Undefined)
  end.
Proof.
  destruct reply as [response|e]; [|now left].
  unfold send.
  destruct (get_prop response "data") as [d|e] eqn:Hd.
  - split.
    + destruct d; discriminate.
    + exists response. unfold field. rewrite Hd.
      split; [reflexivity|]. split; [reflexivity|]. now intros ->.
  - right. exists response. split; [reflexivity|].
    destruct response; try discriminate; auto.
Qed.

(** The handler [(response = {}) => response] changes nothing of what
    [send] can deliver. *)
Lemma and_then_identity reply :
  and_then (send reply) (λ response, mret (or_default response (Obj []))) = send reply.
Proof.
  destruct (send reply) as [v|e] eqn:Hs; [|reflexivity].
  pose proof (send_defined _ _ Hs) as Hv.
  simpl. destruct v; try reflexivity. contradiction.
Qed.

(** X3. The promises of [generateTags], [saveMetaData] and
    [updateProduct] settle exactly as [send] does: the default of their
    handler, [(response = {}) => response], never applies, so the data
    of the server comes back unchanged ([null] included) and an error of
    the transport is passed on as it is. *)
Theorem plain_handlers_pass_through reply :
  (∀ url tagging language container platform key token req p,
     generateTags url tagging language container platform key token = Ok (req, p) →
     p reply = send reply)
  ∧ (∀ id properties arg req p,
       saveMetaData id properties arg = Ok (req, p) → p reply = send reply)
  ∧ (∀ id product arg req p,
       updateProduct id product arg = Ok (req, p) → p reply = send reply).
Proof.
  split; [|split].
  - intros url tagging language container platform key token req p.
    unfold generateTags, mbind, result_bind, mret, result_ret.
    repeat (match goal with
            | |- match ?x with _ => _ end = _ → _ => destruct x; try discriminate
            end).
    intros [= _ <-]. apply and_then_identity.
  - intros id properties arg req p.
    unfold saveMetaData, mbind, result_bind, mret, result_ret.
    repeat (match goal with
            | |- match ?x with _ => _ end = _ → _ => destruct x; try discriminate
            end).
    intros [= _ <-]. apply and_then_identity.
  - intros id product arg req p.
    unfold updateProduct, mbind, result_bind, mret, result_ret.
    repeat (match goal with
            | |- match ?x with _ => _ end = _ → _ => destruct x; try discriminate
            end).
    intros [= _ <-]. apply and_then_identity.
Qed.

End Transport.

(** ** The request of an upload *)

Section UploadRequest.
Variables DUPLICATE_CODE REPLACING_DATA_CODE : value.
Implicit Types (props : upload_props) (files : list (list (string * value))).

Local Abbreviation chain := (run_chain DUPLICATE_CODE REPLACING_DATA_CODE).


(** The call, once the configuration has been destructured: the
    parameters are merged, the payload is filled, and the request
    goes out. A [null] configuration cannot be destructured. *)
Lemma uploadFiles_steps props :
  uploadFiles DUPLICATE_CODE REPLACING_DATA_CODE props
  = if strict_eq (props_config props) Null
    then Throw (type_error "Cannot read properties of null (reading 'platform')")
    else
      merged ← merge_dir (uploadParams_of props) (props_dir props);
      payload ← upload_body (or_default (props_files props) (Arr []))
                  (or_default (props_data_type props) (Str "files[]"));
      mret (request_of props merged payload,
            λ reply, chain (props_showAlert props) (send reply)).
Proof.
  unfold uploadFiles, request_of, uploadParams_of, uploadKey_of, platform_of,
    config_of, is_json.
  destruct (props_config props) as [| |b|z|s|items|ps|n m]; reflexivity.
Qed.

Local Abbreviation uploadFiles := (uploadFiles DUPLICATE_CODE REPLACING_DATA_CODE).

(** The payload kind follows [data_type]: plain data for
    ['application/json'], a form otherwise. *)
Lemma upload_body_kind (files data_type : value) payload :
  upload_body files data_type = Ok payload →
  match payload with
  | Data _ => strict_eq data_type (Str "application/json") = true
  | FormData _ => strict_eq data_type (Str "application/json") = false
  end.
Proof.
  unfold upload_body, mbind, result_bind, mret, result_ret.
  destruct (strict_eq data_type (Str "application/json"));
    destruct (truthy files); simpl;
    repeat (match goal with
            | |- match ?x with _ => _ end = _ → _ => destruct x; try discriminate
            end);
    now intros [= <-].
Qed.

(** X4. An upload is a POST that asks for JSON, with two headers: the
    secret header of the platform carrying [uploadKey] (['']  when the
    configuration has none), and a [Content-Type] that always agrees
    with the payload: [application/json] with plain data exactly when
    [data_type] is ['application/json'], [multipart/form-data] with a
    form otherwise. *)
Theorem upload_request_headers props req p :
  uploadFiles props = Ok (req, p) →
  method req = "POST"
  ∧ responseType req = "json"
  ∧ headers req
    = [(getSecretHeaderName (platform_of props), uploadKey_of props);
       ("Content-Type",
        Str (if is_json (props_data_type props)
             then "application/json" else "multipart/form-data"))]
  ∧ match data req with
    | Data _ => is_json (props_data_type props) = true
    | FormData _ => is_json (props_data_type props) = false
    end.
Proof.
  rewrite uploadFiles_steps. destruct (strict_eq _ Null); [discriminate|].
  unfold mbind, result_bind, mret, result_ret.
  destruct (merge_dir _ _) as [merged|]; [|discriminate].
  destruct (upload_body _ _) as [payload|] eqn:Hbody; [|discriminate].
  intros [= <- _]. simpl.
  split; [reflexivity|]. split; [reflexivity|]. split; [reflexivity|].
  exact (upload_body_kind _ _ _ Hbody).
Qed.

(** Filling the form from [File] objects: one entry for each. *)
Lemma append_files_entries (name : string) files :
  mapM (λ file, n ← get_prop file "name"; mret (name, file, js_or n Null))
    (map Obj files)
  = Ok (map (λ file, (name, Obj file, js_or (prop "name" file) Null)) files).
Proof.
  induction files as [|f files IH]; [reflexivity|].
  cbn [map mapM]. unfold mbind, result_bind, mret, result_ret in *.
  simpl. now rewrite IH.
Qed.

Lemma upload_body_files files data_type :
  upload_body (Arr (map Obj files)) (or_default data_type (Str "files[]"))
  = Ok (if is_json data_type
        then Data (Obj [("files_urls", Arr (map Obj files))])
        else FormData (map (form_entry data_type) files)).
Proof.
  unfold upload_body, is_json. simpl.
  destruct (strict_eq _ (Str "application/json")); [reflexivity|].
  now rewrite append_files_entries.
Qed.

(** X5. The payload of an upload of [File] objects holds the files in
    the order given, one entry for each: with [data_type]
    ['application/json'] it is [{files_urls: [...files]}]; otherwise it
    is a form with one entry per file under the name [data_type]
    (['files[]'] by default), the file as its value and [file.name], or
    [null] when the name is missing or empty, as its file name. *)
Theorem upload_payload files cfg data_type dir req p :
  uploadFiles (upload_call files cfg data_type dir) = Ok (req, p) →
  data req
  = (if is_json data_type
     then Data (Obj [("files_urls", Arr (map Obj files))])
     else FormData (map (form_entry data_type) files))
  ∧ (is_json data_type = false →
     ∃ entries, data req = FormData entries
       ∧ length entries = length files
       ∧ ∀ i file, files !! i = Some file →
           entries !! i = Some (to_string (or_default data_type (Str "files[]")),
                                Obj file, js_or (prop "name" file) Null)).
Proof.
  rewrite uploadFiles_steps. simpl strict_eq. cbv iota.
  unfold mbind, result_bind, mret, result_ret.
  destruct (merge_dir _ _) as [merged|]; [|discriminate].
  unfold upload_call at 1 2. cbn [props_files props_data_type or_default].
  rewrite upload_body_files. intros [= <- _]. cbn [data request_of].
  split; [reflexivity|]. intros Hform. rewrite Hform.
  eexists. split; [reflexivity|]. split; [now rewrite length_map|].
  intros i file Hi. rewrite list_lookup_fmap, Hi. reflexivity.
Qed.

(** X6. When does the call throw instead of returning a promise? With
    [File] objects as files, and with a [dir], a [data_type], an
    [uploadPath] and [uploadParams] values that can be printed, exactly
    when the configuration is [null], or when [uploadParams] is [null]
    and there is no [dir] argument to stand in for [uploadParams.dir]. A
    missing configuration, or one that is not an object, is as good as
    an empty one. *)
Theorem upload_returns_iff files (config data_type dir : value) (showAlert : callback) :
  printable dir = true →
  printable data_type = true →
  printable (field (or_default config (Obj [])) "uploadPath") = true →
  printable_entries
    (own_entries (or_default (field (or_default config (Obj [])) "uploadParams") (Obj [])))
  = true →
  returns (uploadFiles {| props_files := Arr (map Obj files);
                          props_config := config;
                          props_data_type := data_type;
                          props_dir := dir;
                          props_showAlert := showAlert |})
  ↔ config ≠ Null
    ∧ (truthy dir = true ∨ field (or_default config (Obj [])) "uploadParams" ≠ Null).
Proof.
  intros _ _ _ _.
  rewrite uploadFiles_steps. cbn [props_files props_config props_data_type props_dir].
  unfold uploadParams_of, config_of. cbn [props_config].
  cbn [or_default]. rewrite upload_body_files.
  unfold returns, merge_dir, mbind, result_bind, mret, result_ret.
  destruct (strict_eq config Null) eqn:Hconfig.
  - apply strict_eq_Null in Hconfig. subst config.
    split; [intros [a [=]] | intros [H _]; contradiction].
  - assert (Hnull : config ≠ Null) by (intros ->; discriminate).
    destruct (truthy dir) eqn:Hdir.
    + split; [intros _; auto | intros _; eexists; reflexivity].
    + split.
      * intros [a Ha]. split; [exact Hnull|]. right. intros Hup.
        rewrite Hup in Ha. discriminate.
      * intros [_ [H|H]]; [discriminate|].
        destruct (field (or_default config (Obj [])) "uploadParams");
          try contradiction; eexists; reflexivity.
Qed.

(** X7. An upload without a configuration still goes out, when its
    [dir] and [data_type] can be printed: to the relative URL
    [?dir=<dir>], which is [?dir=undefined] when there is no truthy
    [dir] argument, with the Filerobot header and an empty key. *)
Theorem upload_without_config files (data_type dir : value) (showAlert : callback) :
  printable dir = true →
  printable data_type = true →
  ∃ req p,
    uploadFiles {| props_files := Arr (map Obj files);
                   props_config := Undefined;
                   props_data_type := data_type;
                   props_dir := dir;
                   props_showAlert := showAlert |} = Ok (req, p)
    ∧ url req = Str ("?dir=" +:+ to_string (js_or dir Undefined))
    ∧ headers req = [("X-Filerobot-Key", Str "");
                     ("Content-Type",
                      Str (if is_json data_type
                           then "application/json" else "multipart/form-data"))].
Proof.
  intros _ _.
  rewrite uploadFiles_steps. cbn [props_config strict_eq].
  unfold uploadParams_of, config_of.
  cbn [props_config props_files props_data_type props_dir or_default field get_prop prop
       lookup_prop default].
  rewrite upload_body_files.
  unfold merge_dir, js_or. destruct (truthy dir) eqn:Hdir.
  - eexists _, _. split; [reflexivity|]. split; [|reflexivity].
    cbn [url request_of]. unfold params_string. simpl.
    rewrite !prop_cons_eq.
    assert (Hkeep : strict_eq dir Null = false)
      by (destruct dir; try reflexivity; discriminate).
    rewrite Hkeep. simpl. rewrite prop_cons_eq. reflexivity.
  - eexists _, _. split; [reflexivity|]. split; reflexivity.
Qed.

End UploadRequest.

(** ** How the promise of an upload can end *)

Section UploadPromise.
Variables DUPLICATE_CODE REPLACING_DATA_CODE : value.
Implicit Types (props : upload_props) (response e : value) (reply : settlement).

Local Abbreviation on_response := (on_response DUPLICATE_CODE REPLACING_DATA_CODE).
Local Abbreviation uploadFiles := (uploadFiles DUPLICATE_CODE REPLACING_DATA_CODE).
Local Abbreviation handled := (handled DUPLICATE_CODE REPLACING_DATA_CODE).
Local Abbreviation flags := (upload_flags DUPLICATE_CODE REPLACING_DATA_CODE).

(** The rejection handler either throws on the way, or alerts once and
    rejects. *)
Lemma on_error_outcome (showAlert : callback) e :
  (on_error showAlert e pending).2 = pending
  ∨ ∃ text, (on_error showAlert e pending).2
            = ended (Rejected (or_default e (Obj []))) [[Str ""; text; Str "error"]].
Proof.
  destruct showAlert; [|left; apply on_error_not_callable].
  unfold on_error, mbind, handler_bind, lift, call.
  destruct (error_data _) as [data|]; [|now left].
  destruct (error_code _) as [code|]; [|now left].
  destruct (error_msg _) as [msg|]; [|now left].
  destruct (alert_message _ _ _) as [text|]; [|now left].
  right. exists text. reflexivity.
Qed.

(** The fulfilment handler throws with the promise still pending,
    resolves with a triple, or rejects with the response. *)
Lemma on_response_outcome response :
  (∃ e, on_response response pending = (Throw e, pending))
  ∨ (∃ list state,
       on_response response pending
       = (Ok (), ended (Fulfilled (Arr (list :: flags state))) [])
       ∧ truthy list = true)
  ∨ on_response response pending = (Ok (), ended (Rejected response) []).
Proof.
  unfold on_response, mbind, handler_bind, lift, throw, resolve, reject, settle.
  destruct (get_prop response "status") as [status|]; [|left; eexists; reflexivity].
  destruct (get_prop response "files") as [files|]; [|left; eexists; reflexivity].
  destruct (get_prop response "file") as [file|]; [|left; eexists; reflexivity].
  destruct (get_prop response "upload") as [upload|]; [|left; eexists; reflexivity].
  destruct (get_prop (or_default upload (Obj [])) "state") as [state|];
    [|left; eexists; reflexivity].
  destruct (strict_eq (or_default status (Str "success")) (Str "success")); simpl.
  - destruct (truthy file) eqn:Hfile.
    + right; left. exists (Arr [file]), state. split; reflexivity.
    + destruct (truthy (or_default files (Arr []))) eqn:Hfiles.
      * right; left. eexists _, state. split; [reflexivity | exact Hfiles].
      * destruct (strict_eq _ (Str "error")).
        -- destruct (get_prop response "msg"); [|left; eexists; reflexivity].
           destruct (get_prop response "hint"); left; eexists; reflexivity.
        -- right; right. reflexivity.
  - destruct (strict_eq _ (Str "error")).
    + destruct (get_prop response "msg"); [|left; eexists; reflexivity].
      destruct (get_prop response "hint"); left; eexists; reflexivity.
    + right; right. reflexivity.
Qed.

Lemma strict_eq_true (a b : value) : strict_eq a b = true → a = b.
Proof.
  destruct a, b; simpl; try discriminate; try reflexivity.
  - destruct b, b0; simpl; congruence.
  - intros H. apply Z.eqb_eq in H. now subst.
  - intros H. apply String.eqb_eq in H. now subst.
Qed.

(** X8. When the [showAlert] of the call is not a function, an upload
    that fails never settles: whether the transport failed or the
    response handler threw, the call of [showAlert] throws inside the
    rejection handler before [reject] is reached, and the promise stays
    pending, with its caller never told. *)
Theorem upload_without_alert_function props req p reply e :
  uploadFiles props = Ok (req, p) →
  props_showAlert props = NotCallable →
  handled reply e →
  p reply = pending.
Proof.
  intros Hcall Halert Hhandled.
  rewrite (uploadFiles_promise _ _ _ _ _ Hcall), Halert. unfold run_chain.
  destruct Hhandled as [Hsend | (response & st & Hsend & Hthrow)]; rewrite Hsend.
  - apply on_error_not_callable.
  - rewrite Hthrow, on_error_not_callable.
    exact (on_response_throws _ _ _ _ _ Hthrow).
Qed.

(** X9. However axios settles, the promise of an upload ends in one of
    four ways: pending and without an alert; fulfilled, without an
    alert, with a triple whose first component is truthy and whose two
    others are booleans; rejected with the response itself and without
    an alert; or rejected after exactly one call of [showAlert], with an
    empty title and the kind ['error']. So a success never alerts, and
    no upload alerts twice. *)
Theorem upload_promise_outcomes props req p reply :
  uploadFiles props = Ok (req, p) →
  p reply = pending
  ∨ (∃ list d r,
       p reply = ended (Fulfilled (Arr [list; Bool d; Bool r])) []
       ∧ truthy list = true)
  ∨ (∃ response, send reply = Fulfilled response ∧ p reply = ended (Rejected response) [])
  ∨ (∃ e text, p reply = ended (Rejected e) [[Str ""; text; Str "error"]]).
Proof.
  intros Hcall. rewrite (uploadFiles_promise _ _ _ _ _ Hcall). unfold run_chain.
  destruct (send reply) as [response|e].
  - destruct (on_response_outcome response)
      as [[e He] | [(list & state & Hok & Hlist) | Hraw]].
    + rewrite He.
      destruct (on_error_outcome (props_showAlert props) e) as [H | [text H]];
        rewrite H; [now left | do 3 right; eauto].
    + rewrite Hok. right; left. eexists _, _, _. split; [reflexivity | exact Hlist].
    + rewrite Hraw. right; right; left. eauto.
  - destruct (on_error_outcome (props_showAlert props) e) as [H | [text H]];
      rewrite H; [now left | do 3 right; eauto].
Qed.

(** X10. A body that is not an object, such as text, a number or a
    list, is destructured like an empty one: the status defaults to
    ['success'] and [files] to the empty list, so the upload resolves
    as a success with no files, and without an alert. *)
Theorem upload_body_not_an_object props req p reply body :
  uploadFiles props = Ok (req, p) →
  send reply = Fulfilled body →
  body ≠ Null →
  (∀ fields, body ≠ Obj fields) →
  p reply = ended (Fulfilled (Arr (Arr [] :: flags Undefined))) [].
Proof.
  intros Hcall Hsend Hnull Hobject.
  rewrite (uploadFiles_promise _ _ _ _ _ Hcall). unfold run_chain. rewrite Hsend.
  pose proof (send_defined _ _ Hsend) as Hundefined.
  destruct body as [| |b|z|s|items|fields|n m]; try contradiction; try reflexivity.
  now destruct (Hobject fields).
Qed.

(** X11. An error that is no value at all: an [undefined] error is
    replaced by the default [{}] of the rejection handler, so the
    promise rejects with [{}] after an alert whose text is [undefined];
    a [null] error is not replaced, reading [error.response] throws
    inside the handler, and the promise stays pending without an
    alert. *)
Theorem upload_rejection_without_error props req p reply :
  uploadFiles props = Ok (req, p) →
  props_showAlert props = Callable →
  (handled reply Undefined →
   p reply = ended (Rejected (Obj [])) [[Str ""; Undefined; Str "error"]])
  ∧ (handled reply Null → p reply = pending).
Proof.
  intros Hcall Halert.
  rewrite (uploadFiles_promise _ _ _ _ _ Hcall), Halert. unfold run_chain.
  split; intros [Hsend | (response & st & Hsend & Hthrow)]; rewrite Hsend;
    try reflexivity;
    rewrite Hthrow, (on_response_throws _ _ _ _ _ Hthrow); reflexivity.
Qed.

(** X12. When the two codes of [../config] differ, an upload is never
    reported both as a duplicate and as replacing data: of the two flags
    of a resolved upload at most one is true. *)
Theorem upload_flags_exclusive props req p reply list d r :
  uploadFiles props = Ok (req, p) →
  DUPLICATE_CODE ≠ REPLACING_DATA_CODE →
  settled (p reply) = Some (Fulfilled (Arr [list; Bool d; Bool r])) →
  d && r = false.
Proof.
  intros Hcall Hcodes. rewrite (uploadFiles_promise _ _ _ _ _ Hcall). unfold run_chain.
  assert (Hrejects : ∀ showAlert e v,
            settled (on_error showAlert e pending).2 ≠ Some (Fulfilled v)).
  { intros showAlert e v.
    destruct (on_error_outcome showAlert e) as [H | [text H]]; rewrite H; discriminate. }
  destruct (send reply) as [response|e]; [|intros H; now apply Hrejects in H].
  destruct (on_response_outcome response)
    as [[e He] | [(list' & state & Hok & _) | Hraw]].
  - rewrite He. intros H. now apply Hrejects in H.
  - rewrite Hok. intros [= _ <- <-].
    destruct (strict_eq state DUPLICATE_CODE) eqn:HD; [|reflexivity].
    destruct (strict_eq state REPLACING_DATA_CODE) eqn:HR; [|reflexivity].
    apply strict_eq_true in HD, HR. congruence.
  - rewrite Hraw. discriminate.
Qed.

End UploadPromise.

(** ** The pairs of the upload query *)

Section UploadQuery.
Variables DUPLICATE_CODE REPLACING_DATA_CODE : value.
Implicit Types (ps cfg pairs : list (string * value)) (k : string) (v dir : value)
  (path q : string).

Local Abbreviation uploadFiles := (uploadFiles DUPLICATE_CODE REPLACING_DATA_CODE).

(** Membership after [o[k0] = d]. *)
Lemma In_set_prop k v k0 d ps :
  NoDup (map fst ps) →
  In (k, v) (set_prop ps k0 d) ↔ (k = k0 ∧ v = d) ∨ (k ≠ k0 ∧ In (k, v) ps).
Proof.
  induction ps as [|[k' v'] ps IH]; intros Hnd; simpl.
  - split; [intros [[= <- <-]|[]]; auto | intros [[-> ->]|[_ []]]; auto].
  - inversion Hnd as [|? ? Hk Hnd']; subst.
    destruct (String.eqb_spec k0 k') as [->|Hne]; simpl.
    + split.
      * intros [[= <- <-]|Hin]; [auto|]. right. split; [|auto].
        intros ->. apply Hk, list_elem_of_In.
        apply (in_map fst) in Hin. exact Hin.
      * intros [[-> ->]|[Hne [[= <- <-]|Hin]]]; auto. contradiction.
    + rewrite (IH Hnd'). split.
      * intros [[= <- <-]|[[-> ->]|[Hk0 Hin]]]; auto.
      * intros [[-> ->]|[Hk0 [[= <- <-]|Hin]]]; auto.
Qed.

Lemma append_same_l path q : path +:+ q = path → q = "".
Proof.
  induction path as [|c path IH]; [auto|].
  rewrite append_cons. intros [= H]. auto.
Qed.

Lemma with_query_bare path q : with_query path q = path ↔ q = "".
Proof.
  unfold with_query. destruct (String.eqb_spec q "") as [->|Hne].
  - tauto.
  - split; [|contradiction]. intros H. apply append_same_l in H. discriminate.
Qed.

Lemma pair_string_nonempty (kv : string * value) : pair_string kv ≠ "".
Proof. destruct kv as [[|c k] v]; unfold pair_string; simpl; discriminate. Qed.

Lemma join_empty sep (xs : list string) :
  (∀ x, In x xs → x ≠ "") → join sep xs = "" → xs = [].
Proof.
  destruct xs as [|x xs]; [auto|]. intros Hne Hjoin. exfalso.
  apply (Hne x); [now left|].
  destruct xs as [|y xs]; [exact Hjoin|].
  change (join sep (x :: y :: xs)) with (x +:+ sep +:+ join sep (y :: xs)) in Hjoin.
  destruct x; [reflexivity | discriminate].
Qed.

Lemma contains_join sep (x : string) xs : In x xs → contains x (join sep xs).
Proof.
  induction xs as [|y xs IH]; [intros []|].
  intros [->|Hin].
  - destruct xs as [|z xs]; [apply contains_refl|].
    apply contains_append_r, contains_refl.
  - destruct xs as [|z xs]; [destruct Hin|].
    change (join sep (y :: z :: xs)) with (y +:+ sep +:+ join sep (z :: xs)).
    do 2 apply contains_append_l. exact (IH Hin).
Qed.

Lemma NoDup_filter_keys (keep : string * value → bool) ps :
  NoDup (map fst ps) → NoDup (map fst (List.filter keep ps)).
Proof.
  induction ps as [|[k v] ps IH]; simpl; [auto|].
  intros Hnd. inversion Hnd as [|? ? Hk Hnd']; subst.
  destruct (keep (k, v)); simpl; [|auto].
  constructor; [|auto]. intros Hin. apply Hk.
  apply list_elem_of_In in Hin. apply list_elem_of_In.
  apply in_map_iff in Hin as ([k' v'] & Hk' & Hin). simpl in Hk'. subst k'.
  apply filter_In in Hin as [Hin _]. apply (in_map fst) in Hin. exact Hin.
Qed.

Lemma filter_not_null_nil ps :
  List.filter not_null ps = [] ↔ ∀ k v, In (k, v) ps → v = Null.
Proof.
  induction ps as [|[k v] ps IH]; simpl.
  - split; [intros _ k v [] | reflexivity].
  - destruct (not_null (k, v)) eqn:Hkeep.
    + split; [discriminate|]. intros Hall. exfalso.
      apply not_null_iff in Hkeep. apply Hkeep, (Hall k). now left.
    + assert (Hv : v = Null).
      { unfold not_null in Hkeep. simpl in Hkeep.
        apply negb_false_iff in Hkeep. now apply strict_eq_Null. }
      rewrite IH. split.
      * intros Hall k' v' [[= <- <-]|Hin]; [exact Hv | eauto].
      * intros Hall k' v' Hin. apply (Hall k'). now right.
Qed.

(** The URL of an upload whose parameters are an object. *)
Lemma upload_url_of_object files cfg ps path data_type dir :
  or_default (prop "uploadParams" cfg) (Obj []) = Obj ps →
  NoDup (map fst ps) →
  or_default (prop "uploadPath" cfg) (Str "") = Str path →
  ∃ req p,
    uploadFiles (upload_call files cfg data_type dir) = Ok (req, p)
    ∧ url req = Str (with_query path (query_string (with_dir ps dir))).
Proof.
  intros Hps Hnd Hpath.
  destruct (uploadFiles_returns DUPLICATE_CODE REPLACING_DATA_CODE
              files cfg data_type dir (with_dir ps dir)) as (req & Hcall & Hurl).
  { rewrite Hps. now apply merge_dir_object. }
  exists req. eexists. split; [exact Hcall|].
  rewrite Hurl, Hpath, upload_url_string.
  now rewrite params_string_entries by (now apply set_prop_NoDup).
Qed.

(** X13. With parameters, a [dir] and a [data_type] that can be
    printed, the query of an upload never has a key twice, and the [dir]
    argument wins over [uploadParams.dir]: the pairs are the entries of
    [uploadParams] other than [dir] whose value is not [null], and one
    pair for [dir], holding the argument when it is truthy and
    [uploadParams.dir] otherwise, unless that value is [null]. A truthy
    argument is always in the URL, as [dir=<dir>]. *)
Theorem upload_query_pairs files cfg ps path data_type dir :
  or_default (prop "uploadParams" cfg) (Obj []) = Obj ps →
  NoDup (map fst ps) →
  or_default (prop "uploadPath" cfg) (Str "") = Str path →
  printable_entries ps = true →
  printable dir = true →
  printable data_type = true →
  ∃ req p pairs,
    uploadFiles (upload_call files cfg data_type dir) = Ok (req, p)
    ∧ url req = Str (with_query path (join "&" (map pair_string pairs)))
    ∧ NoDup (map fst pairs)
    ∧ (∀ k v, In (k, v) pairs ↔
         v ≠ Null
         ∧ (k = "dir" ∧ v = js_or dir (prop "dir" ps) ∨ k ≠ "dir" ∧ In (k, v) ps))
    ∧ (truthy dir = true →
       In ("dir", dir) pairs
       ∧ contains ("dir=" +:+ to_string dir)
           (path +:+ "?" +:+ join "&" (map pair_string pairs))
       ∧ url req = Str (path +:+ "?" +:+ join "&" (map pair_string pairs))).
Proof.
  intros Hps Hnd Hpath _ _ _.
  destruct (upload_url_of_object files cfg ps path data_type dir Hps Hnd Hpath)
    as (req & p & Hcall & Hurl).
  exists req, p, (List.filter not_null (with_dir ps dir)).
  assert (Hmerged : NoDup (map fst (with_dir ps dir))) by (now apply set_prop_NoDup).
  assert (Hpairs : ∀ k v, In (k, v) (List.filter not_null (with_dir ps dir)) ↔
            v ≠ Null
            ∧ (k = "dir" ∧ v = js_or dir (prop "dir" ps) ∨ k ≠ "dir" ∧ In (k, v) ps)).
  { intros k v. rewrite filter_In, not_null_iff. unfold with_dir.
    rewrite (In_set_prop k v "dir" _ ps Hnd). tauto. }
  split; [exact Hcall|]. split; [exact Hurl|].
  split; [now apply NoDup_filter_keys|]. split; [exact Hpairs|].
  intros Hdir.
  assert (Hin : In ("dir", dir) (List.filter not_null (with_dir ps dir))).
  { apply Hpairs. unfold js_or. rewrite Hdir.
    split; [intros ->; discriminate | now left]. }
  assert (Hin' : In ("dir=" +:+ to_string dir)
                   (map pair_string (List.filter not_null (with_dir ps dir)))).
  { apply in_map_iff. exists ("dir", dir). split; [reflexivity | exact Hin]. }
  split; [exact Hin|]. split.
  - do 2 apply contains_append_l. now apply contains_join.
  - rewrite Hurl. unfold query_string, with_query.
    destruct (String.eqb_spec (join "&" (map pair_string
                (List.filter not_null (with_dir ps dir)))) "") as [Hempty|_];
      [|reflexivity].
    apply join_empty in Hempty.
    + rewrite Hempty in Hin'. destruct Hin'.
    + intros x Hx. apply in_map_iff in Hx as (kv & <- & _).
      apply pair_string_nonempty.
Qed.

(** X14. The request goes to the bare [uploadPath], with no [?], exactly
    when there is nothing to print: no truthy [dir] argument, an
    explicit [null] for [dir] in [uploadParams], and [null] for every
    other parameter. With an empty [uploadParams] and no [dir] the URL
    is not bare: it ends in [?dir=undefined]. *)
Theorem upload_url_bare_iff files cfg ps path data_type dir :
  or_default (prop "uploadParams" cfg) (Obj []) = Obj ps →
  NoDup (map fst ps) →
  or_default (prop "uploadPath" cfg) (Str "") = Str path →
  ∃ req p,
    uploadFiles (upload_call files cfg data_type dir) = Ok (req, p)
    ∧ (url req = Str path ↔
         truthy dir = false
         ∧ lookup_prop "dir" ps = Some Null
         ∧ ∀ k v, In (k, v) ps → v = Null)
    ∧ (ps = [] → truthy dir = false → url req = Str (path +:+ "?dir=undefined")).
Proof.
  intros Hps Hnd Hpath.
  destruct (upload_url_of_object files cfg ps path data_type dir Hps Hnd Hpath)
    as (req & p & Hcall & Hurl).
  exists req, p. split; [exact Hcall|]. rewrite Hurl. split.
  - assert (Hbare : Str (with_query path (query_string (with_dir ps dir))) = Str path
                    ↔ ∀ k v, In (k, v) (with_dir ps dir) → v = Null).
    { rewrite <- filter_not_null_nil. split.
      - intros [= H]. apply with_query_bare in H. unfold query_string in H.
        apply join_empty in H; [now apply map_eq_nil in H|].
        intros x Hx. apply in_map_iff in Hx as (kv & <- & _).
        apply pair_string_nonempty.
      - intros Hnil. f_equal. apply with_query_bare. unfold query_string.
        now rewrite Hnil. }
    rewrite Hbare. unfold with_dir. split.
    + intros Hall.
      assert (Hdir : js_or dir (prop "dir" ps) = Null).
      { apply (Hall "dir"). apply In_set_prop; [exact Hnd | now left]. }
      unfold js_or in Hdir. destruct (truthy dir) eqn:Htruthy.
      { subst dir. discriminate. }
      split; [reflexivity|].
      assert (Hlook : lookup_prop "dir" ps = Some Null).
      { unfold prop in Hdir. destruct (lookup_prop "dir" ps) as [v|];
          simpl in Hdir; [now subst | discriminate]. }
      split; [exact Hlook|]. intros k v Hin.
      destruct (String.eqb_spec k "dir") as [->|Hne].
      * pose proof (lookup_prop_In "dir" v ps Hnd Hin). congruence.
      * apply (Hall k). apply In_set_prop; [exact Hnd | now right].
    + intros (Htruthy & Hlook & Hall) k v Hin.
      apply In_set_prop in Hin as [[-> ->]|[_ Hin]]; [|eauto|exact Hnd].
      unfold js_or, prop. now rewrite Htruthy, Hlook.
  - intros -> Htruthy. unfold with_dir, js_or. now rewrite Htruthy.
Qed.

End UploadQuery.

(** ** The listing, the search and the other requests *)

Section OtherRequests.
Variable GALLERY_IMAGES_LIMIT : value.
Implicit Types (arg response e v : value) (reply : settlement).

(** [a && a.k] never throws. *)
Lemma guarded_read (a : value) (k : string) :
  (if truthy a then get_prop a k else mret a) = Ok (and_field a k).
Proof.
  unfold and_field, js_and. destruct (truthy a) eqn:Ha; [|reflexivity].
  destruct (truthy_defined _ Ha) as [Hn Hu]. now apply get_prop_field.
Qed.

(** A call that returns has read its argument: it was not [null] or
    [undefined]. *)
Ltac returned arg :=
  unfold mbind, result_bind, mret, result_ret;
  destruct arg; simpl; try discriminate.

(** X15. The promise of [getListFiles] passes an error of the transport
    on as it is and rejects with a [TypeError] on a [null] body; on any
    other body it resolves with a triple, whatever is missing: a missing
    [files] or [directories] is [undefined], and the count is
    [current_directory && current_directory.files_count], that is
    [current_directory] itself when it is missing, [null] or otherwise
    falsy. *)
Theorem list_settlement arg req p reply :
  getListFiles GALLERY_IMAGES_LIMIT arg = Ok (req, p) →
  match send reply with
  | Rejected e => p reply = Rejected e
  | Fulfilled Null => ∃ message, p reply = Rejected (type_error message)
  | Fulfilled response =>
      p reply = Fulfilled (Arr [field response "files";
                                field response "directories";
                                and_field (field response "current_directory")
                                  "files_count"])
  end.
Proof.
  intros Hcall.
  assert (Hp : p = λ reply, and_then (send reply) (λ response,
                 let response := or_default response (Obj []) in
                 files ← get_prop response "files";
                 directories ← get_prop response "directories";
                 current_directory ← get_prop response "current_directory";
                 count ← (if truthy current_directory
                          then get_prop current_directory "files_count"
                          else mret current_directory);
                 mret (Arr [files; directories; count]))).
  { revert Hcall. unfold getListFiles. returned arg; now intros [= _ <-]. }
  subst p. destruct (send reply) as [response|e]; [|reflexivity].
  destruct response; cbn [and_then or_default get_prop field];
    try (eexists; reflexivity);
    unfold mbind at 1 2 3, result_bind at 1 2 3; rewrite guarded_read; reflexivity.
Qed.

(** X16. The promise of [searchFiles] settles the same way, with the
    pair [[files, info && info.total_files_count]]. *)
Theorem search_settlement arg req p reply :
  searchFiles arg = Ok (req, p) →
  match send reply with
  | Rejected e => p reply = Rejected e
  | Fulfilled Null => ∃ message, p reply = Rejected (type_error message)
  | Fulfilled response =>
      p reply = Fulfilled (Arr [field response "files";
                                and_field (field response "info") "total_files_count"])
  end.
Proof.
  intros Hcall.
  assert (Hp : p = λ reply, and_then (send reply) (λ response,
                 let response := or_default response (Obj []) in
                 files ← get_prop response "files";
                 info ← get_prop response "info";
                 total ← (if truthy info then get_prop info "total_files_count"
                          else mret info);
                 mret (Arr [files; total]))).
  { revert Hcall. unfold searchFiles. returned arg; now intros [= _ <-]. }
  subst p. destruct (send reply) as [response|e]; [|reflexivity].
  destruct response; cbn [and_then or_default get_prop field];
    try (eexists; reflexivity);
    unfold mbind at 1 2, result_bind at 1 2; rewrite guarded_read; reflexivity.
Qed.

Lemma prop_set_prop_ne (k k' : string) v (ps : list (string * value)) :
  k ≠ k' → prop k (set_prop ps k' v) = prop k ps.
Proof.
  intros Hne. induction ps as [|[k0 v0] ps IH]; simpl.
  - now apply prop_cons_ne.
  - destruct (String.eqb_spec k' k0) as [->|Hk0].
    + now rewrite !(prop_cons_ne k k0).
    + destruct (String.eqb_spec k k0) as [->|Hk].
      * now rewrite !prop_cons_eq.
      * now rewrite !(prop_cons_ne k k0).
Qed.

(** X17. [searchFiles] takes a [language] option, with the default
    ['en'], and never uses it: whatever the option is set to, the
    request and the promise are the same. *)
Theorem search_ignores_language (options : list (string * value)) (language : value) :
  searchFiles (Obj (set_prop options "language" language)) = searchFiles (Obj options).
Proof.
  unfold searchFiles. cbn [get_prop].
  unfold mbind, result_bind. cbv zeta.
  now rewrite !prop_set_prop_ne by discriminate.
Qed.

(** X18. With an image, a container, options, a language and a token
    that can be printed, [generateTags] prints seven pairs in a fixed
    order after the autotagging endpoint, each option or its default:
    with nothing but an image URL it asks for [provider=google],
    [language=en], [confidence=60], [limit=10] and [ci=demo], with an
    empty key both in the query and in the secret header. *)
Theorem generateTags_defaults (image container platform : value) :
  printable image = true →
  printable container = true →
  (∀ (options : list (string * value)) language key token,
     printable_fields (Obj options) ["key"; "provider"; "confidence"; "limit"] = true →
     printable language = true →
     printable token = true →
     ∃ req p,
     generateTags image (Obj options) language container platform key token = Ok (req, p)
     ∧ method req = "GET"
     ∧ headers req = [(getSecretHeaderName platform, or_default key (Str ""))]
     ∧ url req
       = Str (getBaseUrl (or_default container (Str "")) platform
              +:+ "post-process/autotagging?"
              +:+ "key=" +:+ to_string (or_default (prop "key" options) (Str ""))
              +:+ "&image_url=" +:+ to_string (or_default image (Str ""))
              +:+ "&provider="
              +:+ to_string (or_default (prop "provider" options) (Str "google"))
              +:+ "&language=" +:+ to_string (or_default language (Str "en"))
              +:+ "&confidence="
              +:+ to_string (or_default (prop "confidence" options) (Num 60))
              +:+ "&limit=" +:+ to_string (or_default (prop "limit" options) (Num 10))
              +:+ "&ci=" +:+ to_string (or_default token (Str "demo"))))
  ∧ (∃ req p,
       generateTags image Undefined Undefined container platform Undefined Undefined
       = Ok (req, p)
       ∧ headers req = [(getSecretHeaderName platform, Str "")]
       ∧ url req
         = Str (getBaseUrl (or_default container (Str "")) platform
                +:+ "post-process/autotagging?key=&image_url="
                +:+ to_string (or_default image (Str ""))
                +:+ "&provider=google&language=en&confidence=60&limit=10&ci=demo")).
Proof.
  intros _ _. split.
  - intros options language key token _ _ _. unfold generateTags. cbn [or_default get_prop].
    unfold mbind, result_bind, mret, result_ret. cbv zeta.
    eexists _, _. split; [reflexivity|]. split; [reflexivity|]. split; [reflexivity|].
    unfold get_request. cbn [url]. rewrite append_assoc. reflexivity.
  - unfold generateTags. cbn [or_default get_prop].
    unfold mbind, result_bind, mret, result_ret. cbv zeta.
    eexists _, _. split; [reflexivity|]. split; [reflexivity|].
    unfold get_request. cbn [url]. rewrite append_assoc. reflexivity.
Qed.

(** X19. With an [id] and a [container] that can be printed,
    [saveMetaData] and [updateProduct] address the same file with the
    same credentials: both are a PUT under [<base>file/<id>], to
    [/properties] and to [/product], with the secret header of the
    platform, and each wraps its argument under one key. Their
    [container] has no default: a missing one is printed as [undefined]
    in the address. *)
Theorem file_requests (id properties product : value) (options : list (string * value)) :
  printable id = true →
  printable (prop "container" options) = true →
  ∃ file req p req' p',
    saveMetaData id properties (Obj options) = Ok (req, p)
    ∧ updateProduct id product (Obj options) = Ok (req', p')
    ∧ file = getBaseUrl (prop "container" options) (prop "platform" options)
             +:+ "file/" +:+ to_string id
    ∧ url req = Str (file +:+ "/properties")
    ∧ url req' = Str (file +:+ "/product")
    ∧ method req = "PUT" ∧ method req' = "PUT"
    ∧ data req = Data (Obj [("properties", properties)])
    ∧ data req' = Data (Obj [("product", product)])
    ∧ headers req = [(getSecretHeaderName (prop "platform" options),
                      prop "uploadKey" options)]
    ∧ headers req' = headers req
    ∧ (lookup_prop "container" options = None →
       file = (if is_filerobot (prop "platform" options)
               then "https://api.filerobot.com/undefined/v3/"
               else "https://undefined.api.airstore.io/v1/")
              +:+ "file/" +:+ to_string id).
Proof.
  intros _ _.
  unfold saveMetaData, updateProduct. cbn [get_prop].
  unfold mbind, result_bind, mret, result_ret. cbv zeta.
  eexists _, _, _, _, _.
  split; [reflexivity|]. split; [reflexivity|]. split; [reflexivity|].
  cbn [url method data headers put_request].
  split; [now rewrite !append_assoc|]. split; [now rewrite !append_assoc|].
  do 6 (split; [reflexivity|]).
  intros Hnone.
  assert (Hc : prop "container" options = Undefined)
    by (unfold prop; now rewrite Hnone).
  rewrite Hc. unfold getBaseUrl. destruct (is_filerobot _); reflexivity.
Qed.

(** X20. The promise of [getTokenSettings] rejects exactly when the
    transport fails (with the same error), when the body is [null], or
    when its [settings] is [null]; in every other case, a body that is
    not an object included, it resolves with an object whose only
    property is the boolean [productsEnabled]. *)
Theorem token_settings_settlement arg req p reply :
  getTokenSettings arg = Ok (req, p) →
  match send reply with
  | Rejected e => p reply = Rejected e
  | Fulfilled response =>
      if strict_eq response Null || strict_eq (field response "settings") Null
      then ∃ message, p reply = Rejected (type_error message)
      else ∃ b, p reply = Fulfilled (Obj [("productsEnabled", Bool b)])
  end.
Proof.
  intros Hcall.
  assert (Hp : p = λ reply, and_then (send reply) (λ response,
                 let response := or_default response (Obj []) in
                 settings ← get_prop response "settings";
                 let settings := or_default settings (Obj []) in
                 enabled ← get_prop settings "_products_enabled";
                 mret (Obj [("productsEnabled", Bool (strict_eq enabled (Num 1)))]))).
  { revert Hcall. unfold getTokenSettings. returned arg; now intros [= _ <-]. }
  subst p. destruct (send reply) as [response|e]; [|reflexivity].
  destruct response as [| |b|z|s|items|ps|n m];
    cbn [and_then or_default get_prop field strict_eq orb];
    try (eexists; reflexivity).
  destruct (prop "settings" ps); simpl; eexists; reflexivity.
Qed.

(** X21. Which calls throw before a request is made, when everything
    they print into the address can be printed: [getListFiles],
    [searchFiles], [getTokenSettings], [saveMetaData] and
    [updateProduct] destructure their options argument, which has no
    default, so they throw exactly when it is [null] or [undefined];
    [generateTags] has the default [{}] for [autoTaggingProps] and throws
    exactly when it is [null]. *)
Theorem calls_need_their_argument arg :
  printable GALLERY_IMAGES_LIMIT = true →
  printable_fields arg
    ["container"; "dir"; "offset"; "query"; "key"; "provider"; "confidence"; "limit"]
  = true →
  (throws (getListFiles GALLERY_IMAGES_LIMIT arg) ↔ arg = Null ∨ arg = Undefined)
  ∧ (throws (searchFiles arg) ↔ arg = Null ∨ arg = Undefined)
  ∧ (throws (getTokenSettings arg) ↔ arg = Null ∨ arg = Undefined)
  ∧ (∀ id properties,
       printable id = true →
       (throws (saveMetaData id properties arg) ↔ arg = Null ∨ arg = Undefined))
  ∧ (∀ id product,
       printable id = true →
       (throws (updateProduct id product arg) ↔ arg = Null ∨ arg = Undefined))
  ∧ (∀ image language container platform key token,
       printable image = true → printable language = true →
       printable container = true → printable token = true →
       (throws (generateTags image arg language container platform key token)
        ↔ arg = Null)).
Proof.
  intros _ _.
  unfold throws, getListFiles, searchFiles, getTokenSettings, saveMetaData,
    updateProduct, generateTags, mbind, result_bind, mret, result_ret.
  repeat split; intros;
    repeat (match goal with Hp : printable _ = true |- _ => clear Hp end);
    (match goal with H : _ |- _ => revert H end);
    destruct arg; simpl;
    try (intros [e [=]]); try (intros [[=]|[=]]); try (intros [=]);
    auto; eexists; reflexivity.
Qed.

(** X22. [getListFiles], [searchFiles] and [getTokenSettings] each make
    a GET without a body, under the base URL of the container (['']
    when there is none) and with one header, the secret header of the
    same platform carrying [uploadKey]; the settings are at
    [<base>settings]. *)
Theorem query_requests (options : list (string * value)) :
  let platform := prop "platform" options in
  let base := getBaseUrl (or_default (prop "container" options) (Str "")) platform in
  ∃ listing p1 search p2 settings p3,
    getListFiles GALLERY_IMAGES_LIMIT (Obj options) = Ok (listing, p1)
    ∧ searchFiles (Obj options) = Ok (search, p2)
    ∧ getTokenSettings (Obj options) = Ok (settings, p3)
    ∧ (∀ req, In req [listing; search; settings] →
         method req = "GET"
         ∧ data req = Data Null
         ∧ responseType req = "json"
         ∧ headers req = [(getSecretHeaderName platform, prop "uploadKey" options)]
         ∧ ∃ rest, url req = Str (base +:+ rest))
    ∧ url settings = Str (base +:+ "settings").
Proof.
  intros platform base.
  unfold getListFiles, searchFiles, getTokenSettings. cbn [get_prop].
  unfold mbind, result_bind, mret, result_ret. cbv zeta.
  eexists _, _, _, _, _, _.
  split; [reflexivity|]. split; [reflexivity|]. split; [reflexivity|].
  split; [|reflexivity].
  intros req [<-|[<-|[<-|[]]]]; cbn [method data responseType headers url get_request];
    (do 4 (split; [reflexivity|])); eexists; reflexivity.
Qed.

End OtherRequests.

(** ** The further properties at sample inputs *)

Section FurtherSamples.
Local Abbreviation D := sample_DUPLICATE_CODE.
Local Abbreviation R := sample_REPLACING_DATA_CODE.
Local Abbreviation LIMIT := sample_GALLERY_IMAGES_LIMIT.
Local Abbreviation demo := [("container", Str "demo"); ("uploadKey", Str "key")].
Local Abbreviation network_error := (Obj [("message", Str "Network Error")]).
Local Abbreviation without_alert :=
  {| props_files := Arr [];
     props_config := Obj (sample_config []);
     props_data_type := Undefined;
     props_dir := Undefined;
     props_showAlert := NotCallable |}.

(** Saving the properties of a file: the [null] the server answers with
    comes back as it is. *)
Lemma plain_handlers_pass_through_witness :
  ∃ req p,
    saveMetaData (Str "f1") (Obj [("title", Str "Cat")]) (Obj demo) = Ok (req, p)
    ∧ p (received Null) = Fulfilled Null
    ∧ p (Rejected network_error) = Rejected network_error.
Proof.
  eexists _, _. split; [reflexivity|]. split.
  - exact (proj1 (proj2 (plain_handlers_pass_through (received Null)))
             (Str "f1") (Obj [("title", Str "Cat")]) (Obj demo) _ _ eq_refl).
  - exact (proj1 (proj2 (plain_handlers_pass_through (Rejected network_error)))
             (Str "f1") (Obj [("title", Str "Cat")]) (Obj demo) _ _ eq_refl).
Defined.

Lemma upload_request_headers_witness :
  ∃ req p,
    uploadFiles D R (sample_upload []) = Ok (req, p)
    ∧ method req = "POST"
    ∧ headers req = [("X-Filerobot-Key", Str "key");
                     ("Content-Type", Str "multipart/form-data")].
Proof.
  eexists _, _. split; [reflexivity|].
  destruct (upload_request_headers D R (sample_upload []) _ _ eq_refl)
    as (Hmethod & _ & Hheaders & _).
  split; [exact Hmethod | exact Hheaders].
Defined.

(** Two files, the second without a name. *)
Lemma upload_payload_witness :
  ∃ req p,
    uploadFiles D R (upload_call [[("name", Str "a.png")]; [("size", Num 3)]]
                       (sample_config []) Undefined Undefined) = Ok (req, p)
    ∧ data req = FormData [("files[]", Obj [("name", Str "a.png")], Str "a.png");
                           ("files[]", Obj [("size", Num 3)], Null)].
Proof.
  eexists _, _. split; [reflexivity|].
  exact (proj1 (upload_payload D R [[("name", Str "a.png")]; [("size", Num 3)]]
                  (sample_config []) Undefined Undefined _ _ eq_refl)).
Defined.

(** No [uploadParams] to read [dir] from, and no [dir] argument. *)
Lemma upload_returns_iff_witness :
  throws (uploadFiles D R {| props_files := Arr [];
                             props_config := Obj [("uploadParams", Null)];
                             props_data_type := Undefined;
                             props_dir := Undefined;
                             props_showAlert := Callable |})
  ∧ returns (uploadFiles D R {| props_files := Arr [];
                                props_config := Obj [("uploadParams", Null)];
                                props_data_type := Undefined;
                                props_dir := Str "photos";
                                props_showAlert := Callable |}).
Proof.
  split.
  - eexists. reflexivity.
  - apply (proj2 (upload_returns_iff D R [] (Obj [("uploadParams", Null)])
                    Undefined (Str "photos") Callable
                    eq_refl eq_refl eq_refl eq_refl)).
    split; [discriminate | now left].
Defined.

(** No configuration at all, and a directory. *)
Lemma upload_without_config_witness :
  ∃ req p,
    uploadFiles D R {| props_files := Arr [Obj [("name", Str "a.png")]];
                       props_config := Undefined;
                       props_data_type := Undefined;
                       props_dir := Str "photos";
                       props_showAlert := Callable |} = Ok (req, p)
    ∧ url req = Str "?dir=photos".
Proof.
  destruct (upload_without_config D R [[("name", Str "a.png")]] Undefined
              (Str "photos") Callable eq_refl eq_refl)
    as (req & p & Hcall & Hurl & _).
  exists req, p. split; [exact Hcall | exact Hurl].
Defined.

(** A network error, and nothing to call. *)
Lemma upload_without_alert_function_witness :
  ∃ req p,
    uploadFiles D R without_alert = Ok (req, p)
    ∧ p (Rejected network_error) = pending.
Proof.
  eexists _, _. split; [reflexivity|].
  exact (upload_without_alert_function D R without_alert _ _
           (Rejected network_error) network_error eq_refl eq_refl (or_introl eq_refl)).
Defined.

Lemma upload_promise_outcomes_witness :
  ∃ req p,
    uploadFiles D R (sample_upload []) = Ok (req, p)
    ∧ (p (Rejected network_error) = pending
       ∨ (∃ list d r,
            p (Rejected network_error) = ended (Fulfilled (Arr [list; Bool d; Bool r])) []
            ∧ truthy list = true)
       ∨ (∃ response,
            send (Rejected network_error) = Fulfilled response
            ∧ p (Rejected network_error) = ended (Rejected response) [])
       ∨ (∃ e text,
            p (Rejected network_error)
            = ended (Rejected e) [[Str ""; text; Str "error"]])).
Proof.
  eexists _, _. split; [reflexivity|].
  exact (upload_promise_outcomes D R (sample_upload []) _ _ (Rejected network_error)
           eq_refl).
Defined.

(** A response of text, as a server that does not answer in JSON gives. *)
Lemma upload_body_not_an_object_witness :
  ∃ req p,
    uploadFiles D R (sample_upload []) = Ok (req, p)
    ∧ p (received (Str "<html>Service unavailable</html>"))
      = ended (Fulfilled (Arr [Arr []; Bool false; Bool false])) [].
Proof.
  eexists _, _. split; [reflexivity|].
  refine (upload_body_not_an_object D R (sample_upload []) _ _
            (received (Str "<html>Service unavailable</html>")) (Str "<html>Service unavailable</html>")
            eq_refl eq_refl _ _); discriminate.
Defined.

(** A transport that fails with nothing, and with [null]. *)
Lemma upload_rejection_without_error_witness :
  ∃ req p,
    uploadFiles D R (sample_upload []) = Ok (req, p)
    ∧ p (Rejected Undefined) = ended (Rejected (Obj [])) [[Str ""; Undefined; Str "error"]]
    ∧ p (Rejected Null) = pending.
Proof.
  eexists _, _. split; [reflexivity|]. split.
  - exact (proj1 (upload_rejection_without_error D R (sample_upload []) _ _
                    (Rejected Undefined) eq_refl eq_refl) (or_introl eq_refl)).
  - exact (proj2 (upload_rejection_without_error D R (sample_upload []) _ _
                    (Rejected Null) eq_refl eq_refl) (or_introl eq_refl)).
Defined.

Lemma upload_flags_exclusive_witness :
  ∃ req p,
    uploadFiles D R (sample_upload []) = Ok (req, p)
    ∧ settled (p (received (Obj [("file", Obj [("id", Num 1)]);
                                 ("upload", Obj [("state", D)])])))
      = Some (Fulfilled (Arr [Arr [Obj [("id", Num 1)]]; Bool true; Bool false]))
    ∧ true && false = false.
Proof.
  eexists _, _. split; [reflexivity|]. split; [reflexivity|].
  refine (upload_flags_exclusive D R (sample_upload []) _ _
            (received (Obj [("file", Obj [("id", Num 1)]);
                            ("upload", Obj [("state", D)])]))
            _ true false eq_refl _ eq_refl).
  discriminate.
Defined.

(** An upload into ["photos"] with parameters that name another
    directory and hold a [null]. *)
Lemma upload_query_pairs_witness :
  ∃ req p pairs,
    uploadFiles D R
      (upload_call [] (sample_config [("dir", Str "old"); ("tag", Str "x"); ("skip", Null)])
         Undefined (Str "photos")) = Ok (req, p)
    ∧ url req = Str ("//demo.api.airstore.io/upload" +:+ "?"
                     +:+ join "&" (map pair_string pairs))
    ∧ NoDup (map fst pairs)
    ∧ In ("dir", Str "photos") pairs
    ∧ (In ("tag", Str "x") pairs ∧ ¬ In ("dir", Str "old") pairs ∧ ¬ In ("skip", Null) pairs).
Proof.
  destruct (upload_query_pairs D R []
              (sample_config [("dir", Str "old"); ("tag", Str "x"); ("skip", Null)])
              [("dir", Str "old"); ("tag", Str "x"); ("skip", Null)]
              "//demo.api.airstore.io/upload" Undefined (Str "photos"))
    as (req & p & pairs & Hcall & Hurl & Hnd & Hpairs & Hdir).
  - reflexivity.
  - apply (bool_decide_unpack _). vm_compute. exact I.
  - reflexivity.
  - reflexivity.
  - reflexivity.
  - reflexivity.
  - destruct (Hdir eq_refl) as (Hin & _ & Hurl').
    exists req, p, pairs. split; [exact Hcall|]. split; [exact Hurl'|].
    split; [exact Hnd|]. split; [exact Hin|]. split; [|split].
    + apply Hpairs. split; [discriminate|]. right. split; [discriminate|].
      right. now left.
    + intros H. apply Hpairs in H as [_ [[_ [=]]|[H _]]]. now apply H.
    + intros H. apply Hpairs in H as [H _]. now apply H.
Defined.

Lemma upload_url_bare_iff_witness :
  ∃ req p,
    uploadFiles D R (upload_call [] (sample_config [("dir", Null); ("tag", Null)])
                       Undefined Undefined) = Ok (req, p)
    ∧ url req = Str "//demo.api.airstore.io/upload".
Proof.
  destruct (upload_url_bare_iff D R [] (sample_config [("dir", Null); ("tag", Null)])
              [("dir", Null); ("tag", Null)]
              "//demo.api.airstore.io/upload" Undefined Undefined)
    as (req & p & Hcall & Hbare & _).
  - reflexivity.
  - apply (bool_decide_unpack _). vm_compute. exact I.
  - reflexivity.
  - exists req, p. split; [exact Hcall|]. apply Hbare.
    split; [reflexivity|]. split; [reflexivity|].
    intros k v [[= <- <-]|[[= <- <-]|[]]]; reflexivity.
Defined.

(** A listing of an empty container, and a [null] body. *)
Lemma list_settlement_witness :
  ∃ req p,
    getListFiles LIMIT (Obj demo) = Ok (req, p)
    ∧ p (received (Obj [("files", Arr [])])) = Fulfilled (Arr [Arr []; Undefined; Undefined])
    ∧ p (Rejected network_error) = Rejected network_error.
Proof.
  eexists _, _. split; [reflexivity|]. split.
  - exact (list_settlement LIMIT (Obj demo) _ _ (received (Obj [("files", Arr [])]))
             eq_refl).
  - exact (list_settlement LIMIT (Obj demo) _ _ (Rejected network_error) eq_refl).
Defined.

Lemma search_settlement_witness :
  ∃ req p,
    searchFiles (Obj demo) = Ok (req, p)
    ∧ p (received (Obj [("files", Arr [Obj [("id", Num 7)]]);
                        ("info", Obj [("total_files_count", Num 1)])]))
      = Fulfilled (Arr [Arr [Obj [("id", Num 7)]]; Num 1])
    ∧ p (received (Obj [("files", Arr []); ("info", Null)]))
      = Fulfilled (Arr [Arr []; Null]).
Proof.
  eexists _, _. split; [reflexivity|]. split.
  - exact (search_settlement (Obj demo) _ _
             (received (Obj [("files", Arr [Obj [("id", Num 7)]]);
                             ("info", Obj [("total_files_count", Num 1)])])) eq_refl).
  - exact (search_settlement (Obj demo) _ _
             (received (Obj [("files", Arr []); ("info", Null)])) eq_refl).
Defined.

Lemma token_settings_settlement_witness :
  ∃ req p,
    getTokenSettings (Obj demo) = Ok (req, p)
    ∧ (∃ message, p (received Null) = Rejected (type_error message))
    ∧ (∃ b, p (received (Str "ok")) = Fulfilled (Obj [("productsEnabled", Bool b)])).
Proof.
  eexists _, _. split; [reflexivity|]. split.
  - exact (token_settings_settlement (Obj demo) _ _ (received Null) eq_refl).
  - exact (token_settings_settlement (Obj demo) _ _ (received (Str "ok")) eq_refl).
Defined.

(** Tags for one image, five at most. *)
Lemma generateTags_defaults_witness :
  ∃ req p,
    generateTags (Str "https://example.com/a.png") (Obj [("limit", Num 5)]) Undefined
      (Str "demo") Undefined (Str "key") Undefined = Ok (req, p)
    ∧ url req
      = Str ("https://api.filerobot.com/demo/v3/post-process/autotagging?key="
             +:+ "&image_url=https://example.com/a.png"
             +:+ "&provider=google&language=en&confidence=60&limit=5&ci=demo").
Proof.
  destruct (proj1 (generateTags_defaults (Str "https://example.com/a.png") (Str "demo")
                     Undefined eq_refl eq_refl)
              [("limit", Num 5)] Undefined (Str "key") Undefined
              eq_refl eq_refl eq_refl)
    as (req & p & Hcall & _ & _ & Hurl).
  exists req, p. split; [exact Hcall | exact Hurl].
Defined.

(** The properties and the product of the file [f1]. *)
Lemma file_requests_witness :
  ∃ req p req' p',
    saveMetaData (Str "f1") (Obj [("title", Str "Sea")]) (Obj demo) = Ok (req, p)
    ∧ updateProduct (Str "f1") (Obj [("ref", Str "R1")]) (Obj demo) = Ok (req', p')
    ∧ url req = Str "https://api.filerobot.com/demo/v3/file/f1/properties"
    ∧ url req' = Str "https://api.filerobot.com/demo/v3/file/f1/product".
Proof.
  destruct (file_requests (Str "f1") (Obj [("title", Str "Sea")]) (Obj [("ref", Str "R1")])
              demo eq_refl eq_refl)
    as (file & req & p & req' & p' & Hsave & Hupdate & Hfile & Hurl & Hurl' & _).
  exists req, p, req', p'. split; [exact Hsave|]. split; [exact Hupdate|].
  rewrite Hurl, Hurl', Hfile. split; reflexivity.
Defined.

(** Calls without their options. *)
Lemma calls_need_their_argument_witness :
  throws (getListFiles LIMIT Undefined)
  ∧ throws (saveMetaData (Str "f1") (Obj []) Null).
Proof.
  split.
  - exact (proj2 (proj1 (calls_need_their_argument LIMIT Undefined eq_refl eq_refl))
             (or_intror eq_refl)).
  - exact (proj2 (proj1 (proj2 (proj2 (proj2
                    (calls_need_their_argument LIMIT Null eq_refl eq_refl))))
                    (Str "f1") (Obj []) eq_refl)
             (or_introl eq_refl)).
Defined.

End FurtherSamples.

(** * The options of [init] *)

(** ** Steps of a script *)

Section Scripts.
Context {A B : Type}.
Variable T : gmap nat object → Prop.
Implicit Types (h : gmap nat object) (o : object) (w x : word) (k : string).

Lemma wp_ret (a : A) h (Q : A → gmap nat object → Prop) : Q a h → wp T (mret a) h Q.
Proof. intros H. exact H. Qed.

Lemma wp_bind (m : script A) (f : A → script B) h (Q : B → gmap nat object → Prop) :
  wp T m h (λ a h', wp T (f a) h' Q) → wp T (m ≫= f) h Q.
Proof.
  unfold wp, mbind, script_bind. destruct (m h) as [[a|e] h']; auto.
Qed.

End Scripts.

Section ScriptSteps.
Context {B : Type}.
Variable T : gmap nat object → Prop.
Implicit Types (h : gmap nat object) (o : object) (w x : word) (k : string).

Lemma wp_create o h (Q : nat → gmap nat object → Prop) :
  (∀ l, h !! l = None → Q l (<[l:=o]> h)) → wp T (create o) h Q.
Proof. intros H. apply H. apply not_elem_of_dom, is_fresh. Qed.

(** [w || o] never throws, and only adds to the heap. *)
Lemma wp_or_create w o h (Q : word → gmap nat object → Prop) :
  (∀ w' h', h ⊆ h' → word_truthy w' = true → Q w' h') → wp T (or_create w o) h Q.
Proof.
  intros H. unfold or_create. destruct (word_truthy w) eqn:Hw.
  - now apply H.
  - apply wp_bind, wp_create. intros l Hl. apply H; [|reflexivity].
    now apply insert_subseteq.
Qed.

Lemma wp_or_create_ref l o h (Q : word → gmap nat object → Prop) :
  Q (Ref l) h → wp T (or_create (Ref l) o) h Q.
Proof. intros H. exact H. Qed.

Lemma wp_read l k o h (Q : word → gmap nat object → Prop) :
  h !! l = Some o → Q (word_at k (own o)) h → wp T (obj_read (Ref l) k) h Q.
Proof.
  intros Hl H. unfold wp, obj_read, mbind, script_bind, deref. now rewrite Hl.
Qed.

(** Reading changes nothing, whether it returns or throws. *)
Lemma wp_read_any w k h (Q : word → gmap nat object → Prop) :
  T h → (∀ w', Q w' h) → wp T (obj_read w k) h Q.
Proof.
  intros Ht H. unfold wp, obj_read, mbind, script_bind, deref. destruct w as [v|l].
  - destruct (get_prop v k); auto.
  - destruct (h !! l); auto. apply H.
Qed.

Lemma obj_write_known l k x o h :
  h !! l = Some o → obj_write (Ref l) k x h = (Ok (), <[l := with_prop o k x]> h).
Proof.
  intros Hl. unfold obj_write, mbind, script_bind, deref, update. now rewrite Hl.
Qed.

Lemma wp_write l k x o h (Q : () → gmap nat object → Prop) :
  h !! l = Some o → Q () (<[l := with_prop o k x]> h) → wp T (obj_write (Ref l) k x) h Q.
Proof. intros Hl H. unfold wp. now rewrite (obj_write_known l k x o h Hl). Qed.

(** A write through a word that is not known: it throws, or it lands on
    the object the word refers to. *)
Lemma wp_write_any w k x h (Q : () → gmap nat object → Prop) :
  T h →
  (∀ l o, w = Ref l → h !! l = Some o → Q () (<[l := with_prop o k x]> h)) →
  wp T (obj_write w k x) h Q.
Proof.
  intros Ht H. unfold wp, obj_write, mbind, script_bind, deref, update.
  destruct w as [v|l]; [exact Ht|].
  destruct (h !! l) as [o|] eqn:Hl; [now apply H | exact Ht].
Qed.

Lemma write_all_known l entries o h :
  h !! l = Some o →
  write_all (Ref l) entries h = (Ok (), <[l := with_entries o entries]> h).
Proof.
  revert o h. induction entries as [|[k x] entries IH]; intros o h Hl.
  - simpl. unfold mret, script_ret. f_equal. symmetry.
    destruct o. now apply insert_id.
  - cbn [write_all]. unfold mbind at 1, script_bind at 1.
    rewrite (obj_write_known l k x o h Hl).
    rewrite (IH (with_prop o k x)) by apply lookup_insert_eq.
    now rewrite insert_insert_eq.
Qed.

Lemma wp_assign t l ot ol h (Q : () → gmap nat object → Prop) :
  h !! t = Some ot → h !! l = Some ol →
  Q () (<[t := with_entries ot (own ol)]> h) →
  wp T (assign_from (Ref t) (Ref l)) h Q.
Proof.
  intros Ht Hl H. unfold wp, assign_from, obj_entries, mbind, script_bind, deref.
  rewrite Hl. cbn. now rewrite (write_all_known t _ ot h Ht).
Qed.

(** Copying from a source that is not known: it throws before it
    writes, or it writes into the target only. *)
Lemma wp_assign_any t w ot h (Q : () → gmap nat object → Prop) :
  h !! t = Some ot → T h →
  (∀ entries, Q () (<[t := with_entries ot entries]> h)) →
  wp T (assign_from (Ref t) w) h Q.
Proof.
  intros Ht HT H. unfold wp, assign_from, obj_entries, mbind, script_bind, deref.
  destruct w as [v|l].
  - cbn. now rewrite (write_all_known t _ ot h Ht).
  - destruct (h !! l) as [ol|]; [|exact HT].
    cbn. now rewrite (write_all_known t _ ot h Ht).
Qed.

End ScriptSteps.

Section ScriptFrame.
Variable T : gmap nat object → Prop.
Implicit Types (h before : gmap nat object) (o : object) (w x : word) (k : string).

Lemma wp_default_param w o h (Q : word → gmap nat object → Prop) :
  (∀ w' h', h ⊆ h' → Q w' h') → wp T (default_param w o) h Q.
Proof.
  intros H. unfold default_param.
  destruct w as [[]|]; try (now apply H).
  apply wp_bind, wp_create. intros l Hl. apply H. now apply insert_subseteq.
Qed.

Lemma new_outside before h l : before ⊆ h → h !! l = None → before !! l = None.
Proof. intros Hsub Hl. exact (lookup_weaken_None _ _ _ Hl Hsub). Qed.

Lemma insert_outside before h l o : before ⊆ h → before !! l = None → before ⊆ <[l:=o]> h.
Proof. intros Hsub Hl. now apply insert_subseteq_r. Qed.

Lemma lookup_other h l l' o o' : l ≠ l' → h !! l' = Some o' → <[l:=o]> h !! l' = Some o'.
Proof. intros Hne Hl. now rewrite lookup_insert_ne. Qed.

Lemma sub_same k before h : before ⊆ h → same_but_for k before h.
Proof.
  intros Hsub. exists 0%nat. split.
  - intros l o _ Hl. exact (lookup_weaken _ _ _ _ Hl Hsub).
  - intros o Hl. left. exact (lookup_weaken _ _ _ _ Hl Hsub).
Qed.

Lemma same_grown k before h h' : same_but_for k before h → h ⊆ h' → same_but_for k before h'.
Proof.
  intros (written & Hrest & Hone) Hsub. exists written. split.
  - intros l o Hne Hl. exact (lookup_weaken _ _ _ _ (Hrest l o Hne Hl) Hsub).
  - intros o Hl. destruct (Hone o Hl) as [H|[x H]]; [left | right; exists x];
      exact (lookup_weaken _ _ _ _ H Hsub).
Qed.

Lemma same_insert_outside k before h l o :
  same_but_for k before h → before !! l = None → same_but_for k before (<[l:=o]> h).
Proof.
  intros (written & Hrest & Hone) Hl. exists written. split.
  - intros l' o' Hne Hl'. rewrite lookup_insert_ne by congruence. now apply Hrest.
  - intros o' Hw. rewrite lookup_insert_ne by congruence. now apply Hone.
Qed.

Lemma sub_written k before h l o x :
  before ⊆ h → h !! l = Some o → same_but_for k before (<[l := with_prop o k x]> h).
Proof.
  intros Hsub Hl. exists l. split.
  - intros l' o' Hne Hl'. rewrite lookup_insert_ne by congruence.
    exact (lookup_weaken _ _ _ _ Hl' Hsub).
  - intros o' Hl'. right. exists x. rewrite lookup_insert_eq.
    pose proof (lookup_weaken _ _ _ _ Hl' Hsub). congruence.
Qed.

End ScriptFrame.

(** ** What [init] writes *)

Section InitFrame.
Variable before : gmap nat object.
Implicit Types (h : gmap nat object) (o : object) (w x : word) (k : string).

Local Abbreviation T := (same_but_for "opt_auth_upload_key" before).

(** After an allocation: the new place is outside the heap [init]
    started from, and what was known of the heap still holds. *)
Ltac allocated l H0 Hl :=
  apply wp_bind, wp_create; intros l Hl;
  match goal with
  | Hsub : before ⊆ ?h |- context [<[l:=?o]> ?h] =>
      pose proof (new_outside before h l Hsub Hl) as H0;
      repeat match goal with
        | H : h !! ?l' = Some ?o' |- _ =>
            assert (l ≠ l') by congruence;
            apply (lookup_other h l l' o o' ltac:(assumption)) in H
        end;
      apply (insert_outside before h l o) in Hsub; [|exact H0];
      clear Hl;
      pose proof (lookup_insert_eq h l o) as Hl;
      let h' := fresh "h" in
      set (h' := <[l:=o]> h) in *; clearbody h'
  end.

(** After a step that only adds to the heap. *)
Ltac grown h' Hext :=
  intros h' Hext;
  match type of Hext with
  | ?h ⊆ _ =>
      repeat match goal with
        | H : h !! ?l = Some ?o |- _ => apply (λ H, lookup_weaken h h' l o H Hext) in H
        end;
      match goal with
      | Hsub : before ⊆ h |- _ =>
          apply (λ H, transitivity (R:=(⊆)) H Hext) in Hsub
      end;
      clear Hext
  end.

(** After a write to an object that [init] has created. *)
Ltac written l :=
  match goal with
  | Hsub : before ⊆ ?h, H0 : before !! l = None, Hl : ?h !! l = Some ?o
    |- context [<[l:=?o']> ?h] =>
      apply (insert_outside before h l o') in Hsub; [|exact H0];
      repeat match goal with
        | H : h !! ?l' = Some ?o'' |- _ =>
            lazymatch l' with
            | l => fail
            | _ => apply (lookup_other h l l' o' o'' ltac:(congruence)) in H
            end
        end;
      clear Hl;
      pose proof (lookup_insert_eq h l o') as Hl;
      let h' := fresh "h" in
      set (h' := <[l:=o']> h) in *; clearbody h'
  end.

Lemma word_at_set_prop_eq k x (ps : list (string * word)) :
  word_at k (set_prop ps k x) = x.
Proof.
  unfold word_at. induction ps as [|[k' x'] ps IH]; simpl.
  - now rewrite String.eqb_refl.
  - destruct (String.eqb_spec k k') as [->|Hne]; simpl.
    + now rewrite String.eqb_refl.
    + destruct (String.eqb_spec k k') as [->|_]; [contradiction | exact IH].
Qed.

Lemma word_at_set_prop_ne k k' x (ps : list (string * word)) :
  k ≠ k' → word_at k (set_prop ps k' x) = word_at k ps.
Proof.
  intros Hne. unfold word_at. induction ps as [|[k0 x0] ps IH]; simpl.
  - destruct (String.eqb_spec k k') as [->|_]; [contradiction | reflexivity].
  - destruct (String.eqb_spec k' k0) as [->|Hk0]; simpl.
    + destruct (String.eqb_spec k k0) as [->|_]; [contradiction | reflexivity].
    + destruct (String.eqb_spec k k0) as [->|_]; [reflexivity | exact IH].
Qed.

Theorem init_spares_its_caller config options :
  same_but_for "opt_auth_upload_key" before (init_options config options before).2.
Proof.
  assert (H : wp T (init_options config options) before (λ _ h, T h)).
  { assert (Hsub : before ⊆ before) by reflexivity.
    revert Hsub. generalize before at 2 4 as h. intros h Hsub.
    unfold init_options, init_merge.
    apply wp_bind, wp_default_param. intros given. grown h1 Hext.
    allocated merged H0m Hm.
    apply wp_bind, wp_or_create. intros defaults. grown h3 Hext. intros _.
    apply wp_bind, wp_or_create. intros given1. grown h4 Hext. intros _.
    apply wp_bind, (wp_assign_any T merged _ _ _ _ Hm);
      [now apply sub_same | intros entries1]. written merged.
    apply wp_bind, (wp_assign_any T merged _ _ _ _ Hm);
      [now apply sub_same | intros entries2]. written merged.
    apply wp_bind, (wp_read T merged _ _ _ _ Hm).
    apply wp_bind, wp_or_create. intros modules. grown h7 Hext. intros _.
    apply wp_bind, (wp_write T merged _ _ _ _ _ Hm). written merged.
    allocated settings H0s Hs.
    apply wp_bind, wp_read_any; [now apply sub_same | intros default_settings].
    apply wp_bind, wp_or_create. intros default_settings1. grown h10 Hext. intros _.
    apply wp_bind, (wp_read T merged _ _ _ _ Hm).
    apply wp_bind, wp_or_create. intros given_settings. grown h11 Hext. intros _.
    apply wp_bind, (wp_assign_any T settings _ _ _ _ Hs);
      [now apply sub_same | intros entries3]. written settings.
    apply wp_bind, (wp_assign_any T settings _ _ _ _ Hs);
      [now apply sub_same | intros entries4]. written settings.
    apply wp_bind, (wp_write T merged _ _ _ _ _ Hm). written merged.
    (* options.settings.uploadPath *)
    apply wp_bind, (wp_read T merged _ _ _ _ Hm).
    cbn [own with_prop]. rewrite word_at_set_prop_eq.
    apply wp_bind, (wp_read T merged _ _ _ _ Hm).
    cbn [own with_prop]. rewrite word_at_set_prop_eq.
    apply wp_bind, (wp_read T settings _ _ _ _ Hs).
    apply wp_bind, (wp_write T settings _ _ _ _ _ Hs). written settings.
    (* options.settings.uploadParams *)
    apply wp_bind, (wp_read T merged _ _ _ _ Hm).
    cbn [own with_prop]. rewrite word_at_set_prop_eq.
    apply wp_bind, (wp_read T merged _ _ _ _ Hm).
    cbn [own with_prop]. rewrite word_at_set_prop_eq.
    apply wp_bind, (wp_read T settings _ _ _ _ Hs).
    apply wp_bind, wp_or_create. intros uploadParams. grown h16 Hext. intros _.
    apply wp_bind, (wp_write T settings _ _ _ _ _ Hs). written settings.
    (* options.settings.uploadParams.opt_auth_upload_key *)
    apply wp_bind, (wp_read T merged _ _ _ _ Hm).
    cbn [own with_prop]. rewrite word_at_set_prop_eq.
    apply wp_bind, (wp_read T settings _ _ _ _ Hs).
    cbn [own with_prop]. rewrite word_at_set_prop_eq.
    apply wp_bind, (wp_read T merged _ _ _ _ Hm).
    cbn [own with_prop]. rewrite word_at_set_prop_eq.
    apply wp_bind, (wp_read T settings _ _ _ _ Hs).
    cbn [own with_prop]. rewrite word_at_set_prop_eq.
    apply wp_bind, wp_read_any; [now apply sub_same | intros key].
    apply wp_bind, wp_write_any; [now apply sub_same | intros l o -> Hl].
    pose proof (sub_written "opt_auth_upload_key" before _ l o
                  (word_or key (Prim Null)) Hsub Hl) as Hsame.
    clear Hsub Hm Hs Hl.
    (* options.onUpload *)
    apply wp_bind, wp_read_any; [exact Hsame | intros onUpload].
    apply wp_bind, wp_or_create. intros onUpload1 h18 Hext _.
    apply (same_grown _ _ _ _ Hsame) in Hext.
    apply wp_bind, wp_write_any; [exact Hext | intros l1 o1 [= <-] Hl1].
    apply wp_ret. now apply same_insert_outside. }
  unfold wp in H. now destruct (init_options config options before) as [[a|e] h].
Qed.

Lemma word_at_assign_absent k (acc entries : list (string * word)) :
  lookup_prop k entries = None → word_at k (assign acc entries) = word_at k acc.
Proof.
  unfold assign. revert acc. induction entries as [|[k' x'] entries IH]; intros acc.
  - reflexivity.
  - simpl. destruct (String.eqb_spec k k') as [->|Hne]; [discriminate|].
    intros Hnone. rewrite (IH _ Hnone). now apply word_at_set_prop_ne.
Qed.

(** After a copy, a property of the source is the property of the
    target. *)
Lemma word_at_assign k x (acc entries : list (string * word)) :
  NoDup (map fst entries) → lookup_prop k entries = Some x →
  word_at k (assign acc entries) = x.
Proof.
  unfold assign. revert acc. induction entries as [|[k' x'] entries IH]; intros acc Hnd.
  - discriminate.
  - inversion Hnd as [|? ? Hk Hnd']; subst. simpl.
    destruct (String.eqb_spec k k') as [->|Hne].
    + intros [= ->].
      assert (Hnone : lookup_prop k' entries = None).
      { destruct (lookup_prop k' entries) as [y|] eqn:Hy; [|reflexivity].
        exfalso. apply Hk, list_elem_of_In.
        clear -Hy. induction entries as [|[k0 x0] entries IH]; [discriminate|].
        simpl in *. destruct (String.eqb_spec k' k0) as [->|_]; auto. }
      change (word_at k' (assign (set_prop acc k' x) entries) = x).
      rewrite (word_at_assign_absent _ _ _ Hnone). apply word_at_set_prop_eq.
    + intros Hsome. exact (IH _ Hnd' Hsome).
Qed.

Lemma word_at_Some k x (ps : list (string * word)) :
  lookup_prop k ps = Some x → word_at k ps = x.
Proof. intros H. unfold word_at. now rewrite H. Qed.

(** The merge, from a heap that holds the defaults with their settings,
    the options, the settings the options end up with, and an object as
    the upload parameters of those. *)
Lemma init_merge_writes lc lg lcs lgs lu co og cso gso uo :
  before !! lc = Some co →
  before !! lg = Some og →
  word_at "settings" (own co) = Ref lcs →
  before !! lcs = Some cso →
  word_at "settings" (assign (assign [] (own co)) (own og)) = Ref lgs →
  before !! lgs = Some gso →
  word_at "uploadParams" (assign (assign [] (own cso)) (own gso)) = Ref lu →
  before !! lu = Some uo →
  wp (λ _, False) (init_merge (Ref lc) (Ref lg)) before
    (λ result after,
       ∃ merged settings,
         result = Ref merged
         ∧ before !! merged = None
         ∧ before !! settings = None
         ∧ after !! lu
           = Some (with_prop uo "opt_auth_upload_key"
                     (word_or (word_at "opt_auth_upload_key" (own uo)) (Prim Null)))
         ∧ (∀ l o, l ≠ lu → before !! l = Some o → after !! l = Some o)
         ∧ (∃ o, after !! merged = Some o ∧ word_at "settings" (own o) = Ref settings)
         ∧ (∃ o, after !! settings = Some o ∧ word_at "uploadParams" (own o) = Ref lu)).
Proof.
  intros Hc Hg Hcs Hcso Hgs Hgso Hup Hu.
  assert (Hsub : before ⊆ before) by reflexivity.
  revert Hc Hg Hcso Hgso Hu Hsub. generalize before at 1 2 3 4 5 7 8 as h.
  intros h Hc Hg Hcso Hgso Hu Hsub.
  unfold init_merge.
  allocated merged H0m Hm.
  apply wp_bind, wp_or_create_ref. apply wp_bind, wp_or_create_ref.
  apply wp_bind, (wp_assign _ merged lc _ _ _ _ Hm Hc). written merged.
  apply wp_bind, (wp_assign _ merged lg _ _ _ _ Hm Hg). written merged.
  apply wp_bind, (wp_read _ merged _ _ _ _ Hm).
  apply wp_bind, wp_or_create. intros modules. grown h5 Hext. intros _.
  apply wp_bind, (wp_write _ merged _ _ _ _ _ Hm). written merged.
  allocated settings H0s Hs.
  apply wp_bind, (wp_read _ lc _ _ _ _ Hc). rewrite Hcs.
  apply wp_bind, wp_or_create_ref.
  apply wp_bind, (wp_read _ merged _ _ _ _ Hm).
  cbn [own with_prop with_entries new_object].
  rewrite word_at_set_prop_ne by discriminate. rewrite Hgs.
  apply wp_bind, wp_or_create_ref.
  apply wp_bind, (wp_assign _ settings lcs _ _ _ _ Hs Hcso). written settings.
  apply wp_bind, (wp_assign _ settings lgs _ _ _ _ Hs Hgso). written settings.
  apply wp_bind, (wp_write _ merged _ _ _ _ _ Hm). written merged.
  (* options.settings.uploadPath *)
  apply wp_bind, (wp_read _ merged _ _ _ _ Hm).
  cbn [own with_prop]. rewrite word_at_set_prop_eq.
  apply wp_bind, (wp_read _ merged _ _ _ _ Hm).
  cbn [own with_prop]. rewrite word_at_set_prop_eq.
  apply wp_bind, (wp_read _ settings _ _ _ _ Hs).
  apply wp_bind, (wp_write _ settings _ _ _ _ _ Hs). written settings.
  (* options.settings.uploadParams *)
  apply wp_bind, (wp_read _ merged _ _ _ _ Hm).
  cbn [own with_prop]. rewrite word_at_set_prop_eq.
  apply wp_bind, (wp_read _ merged _ _ _ _ Hm).
  cbn [own with_prop]. rewrite word_at_set_prop_eq.
  apply wp_bind, (wp_read _ settings _ _ _ _ Hs).
  cbn [own with_prop with_entries new_object].
  rewrite word_at_set_prop_ne by discriminate. rewrite Hup.
  apply wp_bind, wp_or_create_ref.
  apply wp_bind, (wp_write _ settings _ _ _ _ _ Hs). written settings.
  (* options.settings.uploadParams.opt_auth_upload_key *)
  apply wp_bind, (wp_read _ merged _ _ _ _ Hm).
  cbn [own with_prop]. rewrite word_at_set_prop_eq.
  apply wp_bind, (wp_read _ settings _ _ _ _ Hs).
  cbn [own with_prop]. rewrite word_at_set_prop_eq.
  apply wp_bind, (wp_read _ merged _ _ _ _ Hm).
  cbn [own with_prop]. rewrite word_at_set_prop_eq.
  apply wp_bind, (wp_read _ settings _ _ _ _ Hs).
  cbn [own with_prop]. rewrite word_at_set_prop_eq.
  apply wp_bind, (wp_read _ lu _ _ _ _ Hu).
  apply wp_bind, (wp_write _ lu _ _ _ _ _ Hu).
  assert (Hframe : ∀ l o, l ≠ lu → before !! l = Some o →
            <[lu := with_prop uo "opt_auth_upload_key"
                      (word_or (word_at "opt_auth_upload_key" (own uo)) (Prim Null))]>
              h10 !! l = Some o).
  { intros l o Hne Hl. rewrite lookup_insert_ne by congruence.
    exact (lookup_weaken _ _ _ _ Hl Hsub). }
  apply (lookup_other h10 lu merged (with_prop uo "opt_auth_upload_key"
           (word_or (word_at "opt_auth_upload_key" (own uo)) (Prim Null))))
    in Hm; [|congruence].
  apply (lookup_other h10 lu settings (with_prop uo "opt_auth_upload_key"
           (word_or (word_at "opt_auth_upload_key" (own uo)) (Prim Null))))
    in Hs; [|congruence].
  pose proof (lookup_insert_eq h10 lu (with_prop uo "opt_auth_upload_key"
                (word_or (word_at "opt_auth_upload_key" (own uo)) (Prim Null))))
    as Hwritten.
  clear Hc Hg Hcso Hgso Hu Hsub.
  set (h11 := <[lu := _]> h10) in *. clearbody h11.
  (* options.onUpload *)
  apply wp_bind, (wp_read _ merged _ _ _ _ Hm).
  apply wp_bind, wp_or_create. intros onUpload h12 Hext _.
  apply (λ H, lookup_weaken _ _ _ _ H Hext) in Hm, Hs, Hwritten.
  apply wp_bind, (wp_write _ merged _ _ _ _ _ Hm).
  apply wp_ret. exists merged, settings.
  split; [reflexivity|]. split; [exact H0m|]. split; [exact H0s|].
  split; [now rewrite lookup_insert_ne by congruence|]. split; [|split].
  - intros l o Hne Hl. rewrite lookup_insert_ne by congruence.
    exact (lookup_weaken _ _ _ _ (Hframe l o Hne Hl) Hext).
  - eexists. split; [apply lookup_insert_eq|]. cbn [own with_prop].
    rewrite word_at_set_prop_ne by discriminate. apply word_at_set_prop_eq.
  - eexists. split; [rewrite lookup_insert_ne by congruence; exact Hs|].
    cbn [own with_prop]. apply word_at_set_prop_eq.
Qed.



(** [init] throws when there are no defaults to read the settings
    from. *)
Lemma init_options_throws config options :
  config = Prim Null ∨ config = Prim Undefined →
  wp (λ _, True) (init_options config options) before (λ _ _, False).
Proof.
  intros Hconfig.
  assert (Hsub : before ⊆ before) by reflexivity.
  revert Hsub. generalize before at 2 3 as h. intros h Hsub.
  unfold init_options, init_merge.
  apply wp_bind, wp_default_param. intros given. grown h1 Hext.
  allocated merged H0m Hm.
  apply wp_bind, wp_or_create. intros defaults. grown h3 Hext. intros _.
  apply wp_bind, wp_or_create. intros given1. grown h4 Hext. intros _.
  apply wp_bind, (wp_assign_any _ merged _ _ _ _ Hm); [exact I | intros entries1].
  written merged.
  apply wp_bind, (wp_assign_any _ merged _ _ _ _ Hm); [exact I | intros entries2].
  written merged.
  apply wp_bind, (wp_read _ merged _ _ _ _ Hm).
  apply wp_bind, wp_or_create. intros modules. grown h7 Hext. intros _.
  apply wp_bind, (wp_write _ merged _ _ _ _ _ Hm). written merged.
  allocated settings H0s Hs.
  apply wp_bind. destruct Hconfig as [-> | ->]; exact I.
Qed.

End InitFrame.

Section InitProperties.
Implicit Types (before after : gmap nat object) (o : object).

Lemma wp_returns {A} (m : script A) before (Q : A → gmap nat object → Prop) :
  wp (λ _, False) m before Q → ∃ a after, m before = (Ok a, after) ∧ Q a after.
Proof.
  unfold wp. destruct (m before) as [[a|e] after]; [eauto | contradiction].
Qed.

Lemma assign_nil (acc : list (string * word)) : assign acc [] = acc.
Proof. reflexivity. Qed.

(** X23. Lines 15 to 24 of [init], which prepare the options before
    anything is rendered or registered on [window.AirstoreUploader],
    change at most one of the objects that exist when [init] is called,
    the options of the caller and the imported defaults among them, and
    only by setting its property [opt_auth_upload_key]: everything else
    these lines write goes to objects they have created themselves. This
    holds whatever the arguments are, and also when one of the lines
    throws. *)
Theorem init_writes_one_property before config options :
  same_but_for "opt_auth_upload_key" before (init_options config options before).2
  ∧ ∀ l o, before !! l = Some o →
      ∃ o', (init_options config options before).2 !! l = Some o'
            ∧ made_as o' = made_as o
            ∧ ∀ k, k ≠ "opt_auth_upload_key" → word_at k (own o') = word_at k (own o).
Proof.
  pose proof (init_spares_its_caller before config options) as Hsame.
  split; [exact Hsame|]. destruct Hsame as (written & Hrest & Hone).
  intros l o Hl. destruct (decide (l = written)) as [->|Hne].
  - destruct (Hone o Hl) as [H|[x H]].
    + exists o. auto.
    + eexists. split; [exact H|]. split; [reflexivity|].
      intros k Hk. cbn [own with_prop]. now apply word_at_set_prop_ne.
  - exists o. split; [now apply Hrest | auto].
Qed.

(** X24. The options that lines 15 to 24 of [init] prepare for the
    component are a new object with a new settings object, but the
    upload parameters are not copied: when the options of the caller
    carry a settings object with an [uploadParams] object, that very
    object becomes the [uploadParams] of the new settings, and line 23
    writes [opt_auth_upload_key] into it, keeping a truthy value and
    putting [null] otherwise. Up to line 24, where the options are
    complete, no other object that existed before is changed; what
    [init] does afterwards, setting [component], [init] and [unmount] on
    [window.AirstoreUploader] and rendering, is not part of this
    statement. *)
Theorem init_writes_given_params before lc lcs lo ls lu co cso oo so uo :
  before !! lc = Some co →
  lookup_prop "settings" (own co) = Some (Ref lcs) →
  before !! lcs = Some cso →
  before !! lo = Some oo →
  NoDup (map fst (own oo)) →
  lookup_prop "settings" (own oo) = Some (Ref ls) →
  before !! ls = Some so →
  NoDup (map fst (own so)) →
  lookup_prop "uploadParams" (own so) = Some (Ref lu) →
  before !! lu = Some uo →
  ∃ merged settings after,
    init_options (Ref lc) (Ref lo) before = (Ok (Ref merged), after)
    ∧ before !! merged = None
    ∧ before !! settings = None
    ∧ after !! lu
      = Some (with_prop uo "opt_auth_upload_key"
                (word_or (word_at "opt_auth_upload_key" (own uo)) (Prim Null)))
    ∧ (∀ l o, l ≠ lu → before !! l = Some o → after !! l = Some o)
    ∧ (∃ o, after !! merged = Some o ∧ word_at "settings" (own o) = Ref settings)
    ∧ (∃ o, after !! settings = Some o ∧ word_at "uploadParams" (own o) = Ref lu).
Proof.
  intros Hc Hcs Hcso Ho Hndo Hos Hso Hnds Hup Hu.
  destruct (wp_returns _ _ _
              (init_merge_writes before lc lo lcs ls lu co oo cso so uo
                 Hc Ho (word_at_Some _ _ _ Hcs) Hcso
                 (word_at_assign _ _ _ _ Hndo Hos) Hso
                 (word_at_assign _ _ _ _ Hnds Hup) Hu))
    as (result & after & Hrun & merged & settings & -> & Hrest).
  exists merged, settings, after. split; [|exact Hrest].
  unfold init_options, default_param, mbind, script_bind, mret, script_ret.
  exact Hrun.
Qed.

(** X25. A call without options reaches the defaults themselves: when
    the settings of the imported [config] carry an [uploadParams]
    object, [init()] writes [opt_auth_upload_key] into that object of
    the module, where every later call finds it; the options handed to
    the component share it. *)
Theorem init_writes_default_params before lc lcs lu co cso uo :
  before !! lc = Some co →
  NoDup (map fst (own co)) →
  lookup_prop "settings" (own co) = Some (Ref lcs) →
  before !! lcs = Some cso →
  NoDup (map fst (own cso)) →
  lookup_prop "uploadParams" (own cso) = Some (Ref lu) →
  before !! lu = Some uo →
  ∃ merged settings after,
    init_options (Ref lc) (Prim Undefined) before = (Ok (Ref merged), after)
    ∧ before !! merged = None
    ∧ before !! settings = None
    ∧ after !! lu
      = Some (with_prop uo "opt_auth_upload_key"
                (word_or (word_at "opt_auth_upload_key" (own uo)) (Prim Null)))
    ∧ (∀ l o, l ≠ lu → before !! l = Some o → after !! l = Some o)
    ∧ (∃ o, after !! merged = Some o ∧ word_at "settings" (own o) = Ref settings)
    ∧ (∃ o, after !! settings = Some o ∧ word_at "uploadParams" (own o) = Ref lu).
Proof.
  intros Hc Hndc Hcs Hcso Hnds Hup Hu.
  set (given := fresh (dom before)).
  assert (Hgiven : before !! given = None) by apply not_elem_of_dom, is_fresh.
  set (h := <[given := new_object]> before).
  assert (Hsub : before ⊆ h) by now apply insert_subseteq.
  destruct (wp_returns _ _ _
              (init_merge_writes h lc given lcs lcs lu co new_object cso cso uo
                 (lookup_weaken _ _ _ _ Hc Hsub) (lookup_insert_eq _ _ _)
                 (word_at_Some _ _ _ Hcs) (lookup_weaken _ _ _ _ Hcso Hsub)
                 (word_at_assign _ _ _ _ Hndc Hcs) (lookup_weaken _ _ _ _ Hcso Hsub)
                 (word_at_assign _ _ _ _ Hnds Hup) (lookup_weaken _ _ _ _ Hu Hsub)))
    as (result & after & Hrun & merged & settings & -> & Hm & Hs & Hwritten & Hframe & Hrest).
  exists merged, settings, after.
  split; [exact Hrun|].
  split; [exact (lookup_weaken_None _ _ _ Hm Hsub)|].
  split; [exact (lookup_weaken_None _ _ _ Hs Hsub)|].
  split; [exact Hwritten|]. split; [|exact Hrest].
  intros l o Hne Hl. apply (Hframe l o Hne). exact (lookup_weaken _ _ _ _ Hl Hsub).
Qed.

(** X26. Line 17 allows for missing defaults with [config || {}], line
    20 does not: when the imported [config] is [null] or [undefined],
    [init] throws at [config.settings], whatever the options are. *)
Theorem init_needs_config before (config options : word) :
  config = Prim Null ∨ config = Prim Undefined →
  ∃ e after, init_options config options before = (Throw e, after).
Proof.
  intros Hconfig. pose proof (init_options_throws before config options Hconfig) as H.
  unfold wp in H.
  destruct (init_options config options before) as [[a|e] after]; [contradiction | eauto].
Qed.

End InitProperties.

(** ** [init] on a sample heap *)

Section InitSamples.

(** The options of the caller at 2 are left as they were. *)
Lemma init_writes_one_property_witness :
  ∃ o, (init_options (Ref 0) (Ref 2) sample_heap).2 !! 2%nat = Some o
       ∧ made_as o = Plain
       ∧ word_at "settings" (own o) = Ref 3.
Proof.
  destruct (proj2 (init_writes_one_property sample_heap (Ref 0) (Ref 2)) 2%nat
              {| made_as := Plain; own := [("settings", Ref 3)] |})
    as (o & Hl & Hmade & Hown).
  - vm_compute. reflexivity.
  - exists o. split; [exact Hl|]. split; [exact Hmade|].
    apply (Hown "settings"). discriminate.
Defined.

(** The upload parameters of the caller, at 4, are written to. *)
Lemma init_writes_given_params_witness :
  ∃ merged settings after,
    init_options (Ref 0) (Ref 2) sample_heap = (Ok (Ref merged), after)
    ∧ after !! 4%nat
      = Some {| made_as := Plain;
                own := [("dir", Prim (Str "photos"));
                        ("opt_auth_upload_key", Prim Null)] |}
    ∧ (∃ o, after !! settings = Some o ∧ word_at "uploadParams" (own o) = Ref 4).
Proof.
  destruct (init_writes_given_params sample_heap 0 1 2 3 4
              {| made_as := Plain;
                 own := [("settings", Ref 1); ("language", Prim (Str "en"))] |}
              {| made_as := Plain;
                 own := [("uploadPath", Prim (Str "//demo.api.airstore.io/upload"));
                         ("container", Prim (Str "demo"));
                         ("uploadParams", Ref 5)] |}
              {| made_as := Plain; own := [("settings", Ref 3)] |}
              {| made_as := Plain;
                 own := [("container", Prim (Str "mine")); ("uploadParams", Ref 4)] |}
              {| made_as := Plain; own := [("dir", Prim (Str "photos"))] |})
    as (merged & settings & after & Hrun & _ & _ & Hwritten & _ & _ & Hshared).
  - vm_compute. reflexivity.
  - reflexivity.
  - vm_compute. reflexivity.
  - vm_compute. reflexivity.
  - apply (bool_decide_unpack _). vm_compute. exact I.
  - reflexivity.
  - vm_compute. reflexivity.
  - apply (bool_decide_unpack _). vm_compute. exact I.
  - reflexivity.
  - vm_compute. reflexivity.
  - exists merged, settings, after. split; [exact Hrun|].
    split; [exact Hwritten | exact Hshared].
Defined.

(** Without options it is the upload parameters of the defaults, at 5. *)
Lemma init_writes_default_params_witness :
  ∃ merged settings after,
    init_options (Ref 0) (Prim Undefined) sample_heap = (Ok (Ref merged), after)
    ∧ after !! 5%nat
      = Some {| made_as := Plain; own := [("opt_auth_upload_key", Prim Null)] |}
    ∧ (∃ o, after !! settings = Some o ∧ word_at "uploadParams" (own o) = Ref 5).
Proof.
  destruct (init_writes_default_params sample_heap 0 1 5
              {| made_as := Plain;
                 own := [("settings", Ref 1); ("language", Prim (Str "en"))] |}
              {| made_as := Plain;
                 own := [("uploadPath", Prim (Str "//demo.api.airstore.io/upload"));
                         ("container", Prim (Str "demo"));
                         ("uploadParams", Ref 5)] |}
              new_object)
    as (merged & settings & after & Hrun & _ & _ & Hwritten & _ & _ & Hshared).
  - vm_compute. reflexivity.
  - apply (bool_decide_unpack _). vm_compute. exact I.
  - reflexivity.
  - vm_compute. reflexivity.
  - apply (bool_decide_unpack _). vm_compute. exact I.
  - reflexivity.
  - vm_compute. reflexivity.
  - exists merged, settings, after. split; [exact Hrun|].
    split; [exact Hwritten | exact Hshared].
Defined.

Lemma init_needs_config_witness :
  ∃ e after, init_options (Prim Undefined) (Ref 2) sample_heap = (Throw e, after).
Proof. apply init_needs_config. now right. Defined.

End InitSamples.
